(** * wallet_manager.py: the wallet tool and its transfer polling loop

    A shallow embedding of [src/wallet_manager.py].  The program talks to
    the console, to the local disk and to the CDP SDK; every one of its
    functions returns [None], so what it "reports" is what it prints and
    which SDK calls it makes.  The embedding keeps exactly that: a
    function of the program is a computation [M A] that, from a [world],
    yields an [outcome], the list of [event]s it emitted (console lines and
    SDK calls, in order) and the world it leaves behind.

    Conventions.
    - Python [str] is [string]; [lower]/[upper] act on the ASCII letters.
    - Python [float] is the kernel's binary64 [float], NaN included; a
      [Decimal] of the SDK is known by its [float(...)] and [str(...)].
    - [datetime.now()] is [clock], in microseconds; a blocking call moves it
      forward by a duration of type [N], so the clock is never set back.
    - The SDK's objects ([Wallet], [Transfer]) carry, as data, what their
      methods will answer: the statements quantify over every such script.
    - A wallet record file is well formed (it holds the three fields that
      [create_wallet] writes); writing a file (a record, the [.env]
      template) does not fail.  Making the storage directory can fail
      ([mkdir_error]).
    - An exception is an instance of [Exception] raised by a call that the
      program makes.  The process is not interrupted from outside: a
      [KeyboardInterrupt] (Ctrl-C at the prompt or during a sleep), which
      [except Exception] does not catch, is not modelled, and every
      statement below is about runs without one.
    - A path is the text of its parts joined by "/"; the normal form that
      [pathlib] prints ("wallets/x" for "./wallets/x") is not computed.
    - An f-string is the list of its pieces ([frag]); the text of a float or
      of a reflective value ([dir], [type]) is not computed.

    The file has two parts: the program (definitions, in the order of the
    source) with the vocabulary of the statements and some sample worlds,
    then the properties.
*)

From Stdlib Require Import ZArith String Ascii List Lia.
From Stdlib Require Import Floats.
From stdpp Require Import gmap strings.
From Equations Require Import Equations.
Import ListNotations.

Open Scope Z_scope.
Open Scope string_scope.

(* ===================================================================== *)
(** ** Python strings                                                     *)
(* ===================================================================== *)

Definition is_upper (c : ascii) : bool :=
  let n := nat_of_ascii c in ((65 <=? n) && (n <=? 90))%nat.

Definition is_lower (c : ascii) : bool :=
  let n := nat_of_ascii c in ((97 <=? n) && (n <=? 122))%nat.

Definition lower_char (c : ascii) : ascii :=
  if is_upper c then ascii_of_nat (nat_of_ascii c + 32) else c.

Definition upper_char (c : ascii) : ascii :=
  if is_lower c then ascii_of_nat (nat_of_ascii c - 32) else c.

(** [s.lower()] *)
Fixpoint lower (s : string) : string :=
  match s with
  | EmptyString => EmptyString
  | String c r => String (lower_char c) (lower r)
  end.

(** [s.upper()] *)
Fixpoint upper (s : string) : string :=
  match s with
  | EmptyString => EmptyString
  | String c r => String (upper_char c) (upper r)
  end.

(** [needle in hay] *)
Fixpoint str_in (needle hay : string) : bool :=
  String.prefix needle hay ||
  match hay with
  | EmptyString => false
  | String _ r => str_in needle r
  end.

(** Equality of two texts up to the case of ASCII letters, character by
    character: what "compared case-insensitively" says, written without
    [lower]. *)
Fixpoint caseless_eqb (a b : string) : bool :=
  match a, b with
  | EmptyString, EmptyString => true
  | String x a', String y b' =>
      (Ascii.eqb x y
       || (is_upper x && Ascii.eqb (lower_char x) y)
       || (is_upper y && Ascii.eqb x (lower_char y)))
      && caseless_eqb a' b'
  | _, _ => false
  end.

(* ===================================================================== *)
(** ** Exceptions and outcomes                                            *)
(* ===================================================================== *)

(** The instances of [Exception] the program can meet; the text is
    [str(e)].  [SystemExit] is not one of them ([except Exception] lets it
    through): it is the [SysExit] outcome.  [KeyboardInterrupt] is not one
    either, and has no outcome here: interrupts are not modelled. *)
Inductive exn :=
| FileNotFoundError (msg : string)
| ValueError (msg : string)
| EOFError (msg : string)
| Exception (msg : string).

Definition exn_str (e : exn) : string :=
  match e with
  | FileNotFoundError m | ValueError m | EOFError m | Exception m => m
  end.

Inductive outcome (A : Type) :=
| Return (a : A)          (* the call returned [a] *)
| Raise (e : exn)         (* an exception is propagating *)
| SysExit (code : Z).     (* [sys.exit(code)] is propagating *)
Arguments Return {A} a.
Arguments Raise {A} e.
Arguments SysExit {A} code.

(* ===================================================================== *)
(** ** What the program observes of the SDK                               *)
(* ===================================================================== *)

(** A [Decimal] balance, as far as this program looks at it: [float(d)]
    and [str(d)]. *)
Record Decimal := { float_of_Decimal : float; str_of_Decimal : string }.

(** A balances dict, in iteration order. *)
Definition balances_t := list (string * Decimal).

(** [balances.get(key, 0)] followed by [float(...)]. *)
Definition get_float (balances : balances_t) (key : string) : float :=
  match List.find (fun kv => String.eqb (fst kv) key) balances with
  | Some kv => float_of_Decimal (snd kv)
  | None => 0%float
  end.

(** One [transfer.reload()]: how long the call blocks, and what it does. *)
Record reload_step := {
  took : N;                       (* microseconds *)
  observed : exn + string         (* raises, or the new [str(transfer.status)] *)
}.

Record transfer := {
  status : string;                      (* [str(transfer.status)] now *)
  polls : nat;                          (* [reload()] calls made so far *)
  script : nat -> reload_step;          (* what the n-th [reload()] will do *)
  transaction_hash : option string;     (* [hasattr] and value *)
  transaction_link : option string;     (* [getTransactionLink], if present *)
  error : option string                 (* [hasattr(transfer, 'error')] and value *)
}.

Record faucet_tx := { wait_error : option exn }.

(** The attributes of a wallet that [reload()] refreshes. *)
Record wallet_state := {
  can_sign : bool;
  server_signer_status : string;
  balances_result : exn + balances_t    (* what [wallet.balances()] answers *)
}.

Record wallet := {
  wallet_id : string;
  address_id : string;                  (* [wallet.default_address.address_id] *)
  network_id : string;
  reloads : nat;                        (* [reload()] calls made on this object *)
  state_after : nat -> wallet_state;    (* its attributes after that many reloads *)
  reload_error : nat -> option exn;     (* whether the n-th [reload()] raises *)
  transfer_result : float -> string -> string -> bool -> exn + transfer;
  faucet_result : exn + faucet_tx;
  transfers_result : exn + list string  (* [default_address.transfers()], each as text *)
}.

Definition wallet_now (wl : wallet) : wallet_state := state_after wl (reloads wl).

(** The wallet record file written by [create_wallet]. *)
Record wallet_data := {
  wd_address : string;
  wd_network : string;
  wd_wallet_id : string
}.

(* ===================================================================== *)
(** ** Events: console lines and SDK calls                                *)
(* ===================================================================== *)

(** The pieces of an f-string. *)
Inductive frag :=
| Nl                          (* a newline inside the text *)
| Txt (s : string)            (* literal text, or an interpolated [str] *)
| Flt (x : float)             (* an interpolated [float] *)
| Dec (d : Decimal)           (* an interpolated [Decimal] *)
| Bln (b : bool)              (* an interpolated [bool] *)
| Num (n : Z)                 (* an interpolated [int] *)
| Traceback (e : exn)         (* [traceback.format_exc()] *)
| Reflect (what : string).    (* [dir(...)], [type(...)]: not modelled further *)

Inductive sdk_call :=
| Cdp_configure_from_json
| Wallet_list
| Wallet_create (network : string)
| Wallet_reload (id : string)
| Wallet_balances (id : string)
| Wallet_faucet (id : string)
| Faucet_wait
| Address_transfers (id : string)
| Wallet_transfer (id : string) (amount : float) (asset_id destination : string) (gasless : bool)
| Transfer_reload.

Inductive event :=
| Print (line : list frag)            (* [print(f"...")] *)
| PrintDot                            (* [print(".", end='', flush=True)] *)
| Input (prompt : list frag)          (* [input(prompt)] *)
| Sleep (seconds : Z)                 (* [time.sleep(seconds)] *)
| Sdk (c : sdk_call).

(* ===================================================================== *)
(** ** The world                                                          *)
(* ===================================================================== *)

(** Which file [load_dotenv()] loads.  The program tests and writes the
    [.env] of the current directory (lines 38-40); [load_dotenv()] looks for
    a [.env] from the directory of the script upward.  The two are the same
    file when the program is started where the script is. *)
Inductive dotenv_source :=
| Cwd_dotenv                                (* the [.env] of the current directory *)
| Other_dotenv (vars : gmap string string)  (* another [.env], with these variables *)
| No_dotenv.                                (* no file *)

Record world := {
  clock : Z;                               (* [datetime.now()], microseconds *)
  naps : nat;                              (* [time.sleep] calls so far *)
  oversleep : nat -> N;                    (* by how much the n-th sleep overshoots *)
  stdin : list string;                     (* the lines [input()] will read *)
  files : gmap string wallet_data;         (* wallet record files, by path *)
  key_file : bool;                         (* [cdp_api_key.json] exists *)
  configure_error : option exn;            (* [Cdp.configure_from_json] raises *)
  dotenv : option (gmap string string);    (* the [.env] of the current directory *)
  load_dotenv_finds : dotenv_source;       (* the file that [load_dotenv()] loads *)
  environ : gmap string string;            (* [os.environ] *)
  mkdir_error : string -> option exn;      (* what [Path(p).mkdir(exist_ok=True)] raises *)
  remote_wallets : exn + list wallet;      (* what [Wallet.list()] answers *)
  remote_create : string -> exn + wallet   (* what [Wallet.create(network)] answers *)
}.

Definition set_clock (c : Z) (w : world) : world :=
  {| clock := c; naps := naps w; oversleep := oversleep w; stdin := stdin w;
     files := files w; key_file := key_file w; configure_error := configure_error w;
     dotenv := dotenv w; load_dotenv_finds := load_dotenv_finds w;
     environ := environ w; mkdir_error := mkdir_error w; remote_wallets := remote_wallets w;
     remote_create := remote_create w |}.

Definition set_naps (n : nat) (w : world) : world :=
  {| clock := clock w; naps := n; oversleep := oversleep w; stdin := stdin w;
     files := files w; key_file := key_file w; configure_error := configure_error w;
     dotenv := dotenv w; load_dotenv_finds := load_dotenv_finds w;
     environ := environ w; mkdir_error := mkdir_error w; remote_wallets := remote_wallets w;
     remote_create := remote_create w |}.

Definition set_stdin (l : list string) (w : world) : world :=
  {| clock := clock w; naps := naps w; oversleep := oversleep w; stdin := l;
     files := files w; key_file := key_file w; configure_error := configure_error w;
     dotenv := dotenv w; load_dotenv_finds := load_dotenv_finds w;
     environ := environ w; mkdir_error := mkdir_error w; remote_wallets := remote_wallets w;
     remote_create := remote_create w |}.

Definition set_files (f : gmap string wallet_data) (w : world) : world :=
  {| clock := clock w; naps := naps w; oversleep := oversleep w; stdin := stdin w;
     files := f; key_file := key_file w; configure_error := configure_error w;
     dotenv := dotenv w; load_dotenv_finds := load_dotenv_finds w;
     environ := environ w; mkdir_error := mkdir_error w; remote_wallets := remote_wallets w;
     remote_create := remote_create w |}.

Definition set_dotenv (d : option (gmap string string)) (w : world) : world :=
  {| clock := clock w; naps := naps w; oversleep := oversleep w; stdin := stdin w;
     files := files w; key_file := key_file w; configure_error := configure_error w;
     dotenv := d; load_dotenv_finds := load_dotenv_finds w;
     environ := environ w; mkdir_error := mkdir_error w; remote_wallets := remote_wallets w;
     remote_create := remote_create w |}.

Definition set_environ (e : gmap string string) (w : world) : world :=
  {| clock := clock w; naps := naps w; oversleep := oversleep w; stdin := stdin w;
     files := files w; key_file := key_file w; configure_error := configure_error w;
     dotenv := dotenv w; load_dotenv_finds := load_dotenv_finds w;
     environ := e; mkdir_error := mkdir_error w; remote_wallets := remote_wallets w;
     remote_create := remote_create w |}.

(* ===================================================================== *)
(** ** Computations                                                       *)
(* ===================================================================== *)

Record run (A : Type) := Run {
  result : outcome A;
  emitted : list event;
  final : world
}.
Arguments Run {A} result emitted final.
Arguments result {A} r.
Arguments emitted {A} r.
Arguments final {A} r.

Definition M (A : Type) : Type := world -> run A.

(** The events [evs] happened, then [r]. *)
Definition after {A} (evs : list event) (r : run A) : run A :=
  Run (result r) (evs ++ emitted r) (final r).

Definition ret {A} (a : A) : M A := fun w => Run (Return a) [] w.

Definition bind {A B} (m : M A) (k : A -> M B) : M B := fun w =>
  let r := m w in
  match result r with
  | Return a => after (emitted r) (k a (final r))
  | Raise e => Run (Raise e) (emitted r) (final r)
  | SysExit c => Run (SysExit c) (emitted r) (final r)
  end.

Definition raise {A} (e : exn) : M A := fun w => Run (Raise e) [] w.

(** [sys.exit(code)] *)
Definition sys_exit {A} (code : Z) : M A := fun w => Run (SysExit code) [] w.

(** [try: m  except Exception as e: handler e] *)
Definition try_except {A} (m : M A) (handler : exn -> M A) : M A := fun w =>
  let r := m w in
  match result r with
  | Raise e => after (emitted r) (handler e (final r))
  | _ => r
  end.

#[global] Instance M_ret : MRet M := @ret.
#[global] Instance M_bind : MBind M := fun A B k m => bind m k.

Definition emit (e : event) : M unit := fun w => Run (Return tt) [e] w.

Definition print (line : list frag) : M unit := emit (Print line).

(** [for x in l: body x] *)
Fixpoint for_each {A} (l : list A) (body : A -> M unit) : M unit :=
  match l with
  | [] => ret tt
  | x :: r => body x;; for_each r body
  end.

(** An SDK call that answers [ans]. *)
Definition sdk {A} (c : sdk_call) (ans : exn + A) : M A := fun w =>
  match ans with
  | inl e => Run (Raise e) [Sdk c] w
  | inr a => Run (Return a) [Sdk c] w
  end.

(* ===================================================================== *)
(** ** Primitives: clock, console, disk, SDK                              *)
(* ===================================================================== *)

Definition microseconds_per_second : Z := 1000000.

(** [time.sleep(seconds)]: at least [seconds] pass. *)
Definition time_sleep (seconds : Z) : M unit := fun w =>
  Run (Return tt) [Sleep seconds]
      (set_naps (S (naps w))
         (set_clock (clock w + seconds * microseconds_per_second
                     + Z.of_N (oversleep w (naps w))) w)).

(** [input(prompt)] *)
Definition input (prompt : list frag) : M string := fun w =>
  match stdin w with
  | [] => Run (Raise (EOFError "EOF when reading a line")) [Input prompt] w
  | l :: rest => Run (Return l) [Input prompt] (set_stdin rest w)
  end.

(** [a / b] on paths. *)
Definition path_join (a b : string) : string := a +:+ "/" +:+ b.

(** [with open(path, 'r') as f: json.load(f)] *)
Definition read_wallet_file (path : string) : M wallet_data := fun w =>
  match files w !! path with
  | Some d => Run (Return d) [] w
  | None => Run (Raise (FileNotFoundError path)) [] w
  end.

(** [with open(path, 'w') as f: json.dump(data, f, indent=4)] *)
Definition write_wallet_file (path : string) (data : wallet_data) : M unit := fun w =>
  Run (Return tt) [] (set_files (<[path := data]> (files w)) w).

(** [try: m  except FileNotFoundError: handler] *)
Definition try_except_FileNotFoundError {A} (m : M A) (handler : M A) : M A := fun w =>
  let r := m w in
  match result r with
  | Raise (FileNotFoundError _) => after (emitted r) (handler (final r))
  | _ => r
  end.

(** [transfer.reload()]: blocks for [took], then raises or refreshes the
    status in place. *)
Definition transfer_reload (t : transfer) : M transfer := fun w =>
  let s := script t (polls t) in
  let w' := set_clock (clock w + Z.of_N (took s)) w in
  match observed s with
  | inl e => Run (Raise e) [Sdk Transfer_reload] w'
  | inr st =>
      Run (Return {| status := st; polls := S (polls t); script := script t;
                     transaction_hash := transaction_hash t;
                     transaction_link := transaction_link t;
                     error := error t |})
          [Sdk Transfer_reload] w'
  end.

(** [wallet.reload()] *)
Definition wallet_reload (wl : wallet) : M wallet := fun w =>
  match reload_error wl (reloads wl) with
  | Some e => Run (Raise e) [Sdk (Wallet_reload (wallet_id wl))] w
  | None =>
      Run (Return {| wallet_id := wallet_id wl; address_id := address_id wl;
                     network_id := network_id wl; reloads := S (reloads wl);
                     state_after := state_after wl; reload_error := reload_error wl;
                     transfer_result := transfer_result wl;
                     faucet_result := faucet_result wl;
                     transfers_result := transfers_result wl |})
          [Sdk (Wallet_reload (wallet_id wl))] w
  end.

Definition wallet_balances (wl : wallet) : M balances_t :=
  sdk (Wallet_balances (wallet_id wl)) (balances_result (wallet_now wl)).

Definition wallet_transfer (wl : wallet) (amount : float) (asset_id destination : string)
    (gasless : bool) : M transfer :=
  sdk (Wallet_transfer (wallet_id wl) amount asset_id destination gasless)
      (transfer_result wl amount asset_id destination gasless).

Definition wallet_faucet (wl : wallet) : M faucet_tx :=
  sdk (Wallet_faucet (wallet_id wl)) (faucet_result wl).

Definition faucet_wait (tx : faucet_tx) : M unit :=
  sdk Faucet_wait (match wait_error tx with Some e => inl e | None => inr tt end).

Definition address_transfers (wl : wallet) : M (list string) :=
  sdk (Address_transfers (wallet_id wl)) (transfers_result wl).

(** [list(Wallet.list())] *)
Definition Wallet_list_all : M (list wallet) := fun w =>
  sdk Wallet_list (remote_wallets w) w.

(** [Wallet.create(network)] *)
Definition Wallet_create_on (network : string) : M wallet := fun w =>
  sdk (Wallet_create network) (remote_create w network) w.

(** The scan [for wallet in wallets: if ...address_id == address: ...; break]. *)
Definition find_wallet (address : string) (wallets : list wallet) : option wallet :=
  List.find (fun wl => String.eqb (address_id wl) address) wallets.

(** [for asset_id, balance in balances.items(): print(f"{asset_id.upper()}: {balance}")],
    with the indentation [lead] that [list_wallets] puts in front. *)
Definition print_balances (lead : list frag) (balances : balances_t) : M unit :=
  for_each balances (fun kv => print (lead ++ [Txt (upper (fst kv)); Txt ": "; Dec (snd kv)])).

(* ===================================================================== *)
(** ** WalletManager                                                      *)
(* ===================================================================== *)

(** [self.network], [self.wallet_path] *)
Record manager := { network : string; wallet_path : string }.

Definition _load_credentials : M unit := fun w =>
  (if negb (key_file w) then
     print [Txt "Error: cdp_api_key.json not found"];;
     print [Txt "Please ensure your CDP API credentials are in cdp_api_key.json"];;
     sys_exit 1
   else
     try_except
       (sdk Cdp_configure_from_json
            (match configure_error w with Some e => inl e | None => inr tt end);;
        print [Txt "CDP SDK has been successfully configured from JSON file."];;
        print [Txt "Server signer has been enabled for transaction signing."])
       (fun e =>
          print [Txt "Error configuring CDP SDK: "; Txt (exn_str e)];;
          print [Traceback e];;
          sys_exit 1)) w.

(** The variables of the template [.env] that [_create_default_env_file]
    writes. *)
Definition default_env : gmap string string :=
  <["NETWORK" := "base-sepolia"]> (<["WALLET_STORAGE_PATH" := "./wallets"]> ∅).

Definition _create_default_env_file : M unit := fun w =>
  Run (Return tt) [] (set_dotenv (Some default_env) w).

(** The variables of the file that [load_dotenv()] loads. *)
Definition loaded_variables (w : world) : gmap string string :=
  match load_dotenv_finds w with
  | Cwd_dotenv => match dotenv w with Some d => d | None => ∅ end
  | Other_dotenv d => d
  | No_dotenv => ∅
  end.

(** [load_dotenv()]: the variables of the file it finds that the
    environment does not set already. *)
Definition load_dotenv : M unit := fun w =>
  Run (Return tt) [] (set_environ (environ w ∪ loaded_variables w) w).

(** [Path(path).mkdir(exist_ok=True)]: raises when the parent is missing,
    when [path] is a file, when the directory cannot be made. *)
Definition mkdir (path : string) : M unit := fun w =>
  match mkdir_error w path with
  | Some e => Run (Raise e) [] w
  | None => Run (Return tt) [] w
  end.

(** [os.getenv(key, dflt)] *)
Definition getenv (key dflt : string) : M string := fun w =>
  Run (Return (match environ w !! key with Some v => v | None => dflt end)) [] w.

Definition _load_env_config : M manager := fun w =>
  (match dotenv w with
   | None =>
       _create_default_env_file;;
       print [Txt "Warning: .env file not found. A template has been created."];;
       print [Txt "Using default values for network and storage path."]
   | Some _ => mret tt
   end;;
   load_dotenv;;
   net ← getenv "NETWORK" "base-sepolia";
   path ← getenv "WALLET_STORAGE_PATH" "./wallets";
   mkdir path;;
   mret {| network := net; wallet_path := path |}) w.

(** [WalletManager()] *)
Definition WalletManager_init : M manager :=
  _load_credentials;; _load_env_config.

(** The deadline test and one round of the [while] loop of
    [_wait_for_transfer], from the loop head: [Return (Some b, t)] when the
    body executed [return b], [Return (None, t)] when the condition
    [datetime.now() < timeout] became false.  The measure is the number of
    whole sleeps that still fit before the deadline. *)
Equations? poll (timeout : Z) (t : transfer) (w : world) : run (option bool * transfer)
  by wf (Z.to_nat ((timeout - clock w + 1999999) / 2000000)) lt :=
  poll timeout t w with Z_lt_dec (clock w) timeout => {
    | right _ => Run (Return (None, t)) [] w
    | left _ =>
        let r := transfer_reload t w in
        match result r with
        | Raise e => Run (Raise e) (emitted r) (final r)
        | SysExit c => Run (SysExit c) (emitted r) (final r)
        | Return t' =>
            let current_status := status t' in
            let status_str := lower current_status in
            after (emitted r ++ [Print [Nl; Txt "Current status: "; Txt current_status]])
              (if str_in "complete" status_str then
                 Run (Return (Some true, t')) [Print [Txt "Transfer completed!"]] (final r)
               else if str_in "failed" status_str then
                 Run (Return (Some false, t')) [Print [Txt "Transfer failed!"]] (final r)
               else if str_in "pending" status_str then
                 let s := time_sleep 2 (final r) in
                 after (PrintDot :: emitted s) (poll timeout t' (final s))
               else
                 Run (Return (Some false, t'))
                     [Print [Txt "Unexpected status: "; Txt current_status]] (final r))
        end }.
Proof.
  assert (Hr : clock w <= clock (final r)).
  { subst r. unfold transfer_reload. destruct (observed _); simpl; lia. }
  subst s. unfold time_sleep, microseconds_per_second. simpl.
  set (a := clock (final r)) in *. set (o := Z.of_N _).
  assert (0 <= o) by (subst o; lia).
  Z.div_mod_to_equations. lia.
Qed.

(** Lines 72-78 of [_wait_for_transfer]: the debug prints. *)
Definition debug_lines (t : transfer) : list event :=
  [ Print [Nl; Txt "Transfer object details:"];
    Print [Txt "All attributes: "; Reflect "dir(transfer)"];
    Print [Txt "Status value: "; Txt (status t)];
    Print [Txt "Status type: "; Reflect "type(transfer.status)"];
    Print [Txt "Status class module: "; Reflect "transfer.status.__class__.__module__"];
    Print [Txt "Status possible values: "; Reflect "type(transfer.status).__members__"] ].

Definition timed_out_line (timeout_minutes : Z) : event :=
  Print [Nl; Txt "Transfer timed out after "; Num timeout_minutes; Txt " minutes!"].

(** [timeout = start_time + timedelta(minutes=timeout_minutes)], in
    microseconds, for a call that starts in the world [w]. *)
Definition deadline (w : world) (timeout_minutes : Z) : Z :=
  clock w + timeout_minutes * 60 * microseconds_per_second.

(** How [_wait_for_transfer] ends once its loop is over: a [return] of the
    body is the answer; when the loop ran out of time, lines 103-104. *)
Definition conclude (timeout_minutes : Z) (r : run (option bool * transfer))
    : run (bool * transfer) :=
  match result r with
  | Return (Some b, t') => Run (Return (b, t')) (emitted r) (final r)
  | Return (None, t') =>
      Run (Return (false, t')) (emitted r ++ [timed_out_line timeout_minutes]) (final r)
  | Raise e => Run (Raise e) (emitted r) (final r)
  | SysExit c => Run (SysExit c) (emitted r) (final r)
  end.

(** The object is mutated by its reloads: it is returned with the answer. *)
Definition _wait_for_transfer (t : transfer) (timeout_minutes : Z) : M (bool * transfer) := fun w =>
  let timeout := deadline w timeout_minutes in
  after (debug_lines t) (conclude timeout_minutes (poll timeout t w)).

Definition list_wallets (self : manager) : M unit :=
  try_except
    (print [Nl; Txt "Fetching wallets..."];;
     wallets ← Wallet_list_all;
     print [Txt "Found "; Num (Z.of_nat (length wallets)); Txt " wallet(s):"];;
     for_each wallets (fun wl =>
       print [Nl; Txt "Wallet ID: "; Txt (wallet_id wl)];;
       print [Txt "Address: "; Txt (address_id wl)];;
       print [Txt "Network: "; Txt (network_id wl)];;
       print [Txt "Can Sign: "; Bln (can_sign (wallet_now wl))];;
       print [Txt "Server Signer Status: "; Txt (server_signer_status (wallet_now wl))];;
       wl ← wallet_reload wl;
       balances ← wallet_balances wl;
       match balances with
       | _ :: _ => print [Txt "Balances:"];; print_balances [Txt "  "] balances
       | [] => print [Txt "No balances found"]
       end;;
       print [Txt "--------------------------------------------------"]))
    (fun e =>
       print [Txt "Error listing wallets: "; Txt (exn_str e)];;
       print [Traceback e]).

(** [self.wallet_path / f"{address}.txt"] *)
Definition wallet_file_of (self : manager) (address : string) : string :=
  path_join (wallet_path self) (address +:+ ".txt").

Definition testnet : string := "base-sepolia".

(** Lines 166-176 of [create_wallet]: the funding attempt on the test
    network. *)
Definition fund_wallet (wl : wallet) : M unit :=
  print [Nl; Txt "Attempting to fund wallet with testnet ETH..."];;
  try_except
    (faucet_tx ← wallet_faucet wl;
     faucet_wait faucet_tx;;
     print [Txt "Wallet funded successfully with testnet ETH"];;
     print [Nl; Txt "Initial balance:"];;
     balances ← wallet_balances wl;
     print_balances [] balances)
    (fun e => print [Txt "Note: Faucet funding failed: "; Txt (exn_str e)]).

(** The handler of the outer [try] of [create_wallet]. *)
Definition create_wallet_error (e : exn) : M unit :=
  print [Txt "Error creating wallet: "; Txt (exn_str e)];;
  print [Traceback e];;
  sys_exit 1.

(** The record that [create_wallet] saves for the wallet [wl]. *)
Definition record_of (self : manager) (wl : wallet) : wallet_data :=
  {| wd_address := address_id wl; wd_network := network self; wd_wallet_id := wallet_id wl |}.

Definition create_wallet (self : manager) : M unit :=
  try_except
    (wl ← Wallet_create_on (network self);
     let address := address_id wl in
     let wallet_data := record_of self wl in
     let filename := wallet_file_of self address in
     write_wallet_file filename wallet_data;;
     print [Nl; Txt "New wallet created successfully!"];;
     print [Txt "Wallet ID: "; Txt (wallet_id wl)];;
     print [Txt "Address: "; Txt address];;
     print [Txt "Network: "; Txt (network self)];;
     print [Txt "Can Sign: "; Bln (can_sign (wallet_now wl))];;
     print [Txt "Server Signer Status: "; Txt (server_signer_status (wallet_now wl))];;
     print [Txt "Wallet info saved to: "; Txt filename];;
     if String.eqb (network self) testnet then fund_wallet wl else mret tt)
    create_wallet_error.

Definition show_balance (self : manager) (wallet_address : string) : M unit :=
  try_except
    (let wallet_file := wallet_file_of self wallet_address in
     found ← try_except_FileNotFoundError
                (wallet_info ← read_wallet_file wallet_file; mret (Some wallet_info))
                (print [Txt "Error: Wallet file not found at "; Txt wallet_file];; mret None);
     match found with
     | None => mret tt
     | Some wallet_info =>
         wallets ← Wallet_list_all;
         match find_wallet wallet_address wallets with
         | None => print [Txt "Error: Wallet "; Txt wallet_address; Txt " not found in CDP"]
         | Some target_wallet =>
             target_wallet ← wallet_reload target_wallet;
             print [Nl; Txt "Wallet Information:"];;
             print [Txt "Wallet ID: "; Txt (wallet_id target_wallet)];;
             print [Txt "Address: "; Txt wallet_address];;
             print [Txt "Network: "; Txt (wd_network wallet_info)];;
             print [Txt "Can Sign: "; Bln (can_sign (wallet_now target_wallet))];;
             print [Txt "Server Signer Status: ";
                    Txt (server_signer_status (wallet_now target_wallet))];;
             print [Nl; Txt "Current balances:"];;
             balances ← wallet_balances target_wallet;
             match balances with
             | _ :: _ => print_balances [] balances
             | [] => print [Txt "No balances found"]
             end;;
             print [Nl; Txt "Transfer history:"];;
             transfers ← address_transfers target_wallet;
             match transfers with
             | _ :: _ => for_each transfers (fun tr => print [Txt "Transfer: "; Txt tr])
             | [] => print [Txt "No transfer history found"]
             end
         end
     end)
    (fun e =>
       print [Txt "Error showing balance: "; Txt (exn_str e)];;
       print [Traceback e]).

(** The three console lines of the balance guard of [send_tokens] (lines
    281-283), for an asset already in lower case. *)
Definition insufficient_balance_report (quantity current_balance : float) (asset_id : string)
    : list event :=
  [ Print [Nl; Txt "Error: Insufficient balance"];
    Print [Txt "Required: "; Flt quantity; Txt " "; Txt (upper asset_id)];
    Print [Txt "Available: "; Flt current_balance; Txt " "; Txt (upper asset_id)] ].

(** Lines 271-288 of [send_tokens]: the balance guard.  [true] when the
    function goes on, [false] when it has executed [return]. *)
Definition check_balance (target_wallet : wallet) (quantity : float) (asset_id : string)
    : M bool :=
  try_except
    (balances ← wallet_balances target_wallet;
     print [Nl; Txt "Current balance:"];;
     print_balances [] balances;;
     let asset_id := lower asset_id in
     let current_balance := get_float balances asset_id in
     if (current_balance <? quantity)%float then
       print [Nl; Txt "Error: Insufficient balance"];;
       print [Txt "Required: "; Flt quantity; Txt " "; Txt (upper asset_id)];;
       print [Txt "Available: "; Flt current_balance; Txt " "; Txt (upper asset_id)];;
       mret false
     else mret true)
    (fun e =>
       print [Txt "Error checking balance: "; Txt (exn_str e)];;
       print [Traceback e];;
       mret false).

Definition default_timeout_minutes : Z := 10.

(** Lines 305-336 of [send_tokens]: create the transfer, follow it, report. *)
Definition submit_and_follow (target_wallet : wallet) (to_address : string)
    (quantity : float) (asset_id : string) : M unit :=
  print [Nl; Txt "Preparing transaction..."];;
  let gasless := String.eqb asset_id "usdc" in
  print [Txt "Creating transfer..."];;
  tr ← wallet_transfer target_wallet quantity asset_id to_address gasless;
  print [Txt "Transfer created with status: "; Txt (status tr)];;
  '(completed, tr) ← _wait_for_transfer tr default_timeout_minutes;
  if completed : bool then
    print [Nl; Txt "Transfer completed successfully!"];;
    match transaction_hash tr with
    | Some h => print [Txt "Transaction hash: "; Txt h]
    | None => mret tt
    end;;
    match transaction_link tr with
    | Some l => print [Txt "Transaction link: "; Txt l]
    | None => mret tt
    end;;
    target_wallet ← wallet_reload target_wallet;
    print [Nl; Txt "Updated balance:"];;
    balances ← wallet_balances target_wallet;
    print_balances [] balances
  else
    print [Nl; Txt "Transfer failed or timed out!"];;
    match error tr with
    | Some e => print [Txt "Error details: "; Txt e]
    | None => mret tt
    end.

(** Lines 264-336 of [send_tokens]: from the wallet found in the listing. *)
Definition send_from (wallet_info : wallet_data) (target_wallet : wallet)
    (from_address to_address : string) (quantity : float) (asset_id : string) : M unit :=
  target_wallet ← wallet_reload target_wallet;
  print [Txt "Wallet signing capability: "; Bln (can_sign (wallet_now target_wallet))];;
  print [Txt "Server signer status: "; Txt (server_signer_status (wallet_now target_wallet))];;
  print [Nl; Txt "Checking current balance..."];;
  sufficient ← check_balance target_wallet quantity asset_id;
  if negb sufficient then mret tt
  else
    let asset_id := lower asset_id in
    print [Nl; Txt "Transaction Details:"];;
    print [Txt "From: "; Txt from_address];;
    print [Txt "To: "; Txt to_address];;
    print [Txt "Amount: "; Flt quantity];;
    print [Txt "Asset ID: "; Txt asset_id];;
    print [Txt "Network: "; Txt (wd_network wallet_info)];;
    print [Txt "Gasless: "; Bln (String.eqb asset_id "usdc")];;
    confirm ← input [Nl; Txt "Proceed with transaction? (yes/no): "];
    let confirm := lower confirm in
    if negb (String.eqb confirm "yes") then print [Txt "Transaction cancelled"]
    else submit_and_follow target_wallet to_address quantity asset_id.

(** The two "not found" lines of [send_tokens]. *)
Definition wallet_file_not_found (wallet_file : string) : event :=
  Print [Txt "Error: Wallet file not found at "; Txt wallet_file].

Definition wallet_not_in_cdp (address : string) : event :=
  Print [Txt "Error: Wallet "; Txt address; Txt " not found in CDP"].

(** The handler of the outer [try] of [send_tokens]. *)
Definition send_tokens_error (e : exn) : M unit :=
  print [Txt "Error sending tokens: "; Txt (exn_str e)];;
  print [Traceback e].

Definition send_tokens (self : manager) (from_address to_address : string)
    (quantity : float) (asset_id : string) : M unit :=
  try_except
    (let wallet_file := wallet_file_of self from_address in
     found ← try_except_FileNotFoundError
                (wallet_info ← read_wallet_file wallet_file; mret (Some wallet_info))
                (emit (wallet_file_not_found wallet_file);; mret None);
     match found with
     | None => mret tt
     | Some wallet_info =>
         print [Nl; Txt "Locating wallet "; Txt from_address; Txt "..."];;
         wallets ← Wallet_list_all;
         match find_wallet from_address wallets with
         | None => emit (wallet_not_in_cdp from_address)
         | Some target_wallet =>
             send_from wallet_info target_wallet from_address to_address quantity asset_id
         end
     end)
    send_tokens_error.

(* ===================================================================== *)
(** ** The command line                                                   *)
(* ===================================================================== *)

Definition usage_text : string := "
Usage:
    create-wallet
    list-wallets
    send <from-wallet-address> <to-wallet-address> <quantity> <asset-id>
    show-balance <wallet-address>

Example commands:
    python3 wallet_manager.py create-wallet
    python3 wallet_manager.py list-wallets
    python3 wallet_manager.py send 0x123... 0x456... 0.0001 eth
    python3 wallet_manager.py show-balance 0x123...

Note: 
- Ensure cdp_api_key.json exists with your CDP API credentials
- Configuration can be customized in .env file:
  - NETWORK: The blockchain network to use
  - WALLET_STORAGE_PATH: Directory for wallet files
- Asset ID examples: 'eth', 'usdc' (USDC transfers are gasless)
- New wallets on base-sepolia will be auto-funded with testnet ETH
    ".

Definition print_usage : M unit := print [Txt usage_text].

(** [sys.argv[i]] for an index the caller has checked. *)
Definition argv_at (argv : list string) (i : nat) : string := nth i argv "".

Section CommandLine.

(** The builtin [float(text)]: the number it reads, or its [ValueError]. *)
Variable builtin_float : string -> exn + float.

Definition float_of_str (text : string) : M float := fun w =>
  match builtin_float text with
  | inl e => Run (Raise e) [] w
  | inr x => Run (Return x) [] w
  end.

Definition main (argv : list string) : M unit :=
  if (length argv <? 2)%nat then print_usage
  else
    manager ← WalletManager_init;
    let command := lower (argv_at argv 1) in
    if String.eqb command "create-wallet" then create_wallet manager
    else if String.eqb command "list-wallets" then list_wallets manager
    else if String.eqb command "send" && (length argv =? 6)%nat then
      let from_address := argv_at argv 2 in
      let to_address := argv_at argv 3 in
      quantity ← float_of_str (argv_at argv 4);
      let asset_id := argv_at argv 5 in
      send_tokens manager from_address to_address quantity asset_id
    else if String.eqb command "show-balance" && (length argv =? 3)%nat then
      let wallet_address := argv_at argv 2 in
      show_balance manager wallet_address
    else print_usage.

End CommandLine.

(* ===================================================================== *)
(** ** Vocabulary of the statements                                       *)
(* ===================================================================== *)

(** Every event of [m] satisfies [E], and a value it returns satisfies [Q],
    whatever the world. *)
Definition behaves {A} (E : event -> Prop) (Q : A -> Prop) (m : M A) : Prop :=
  forall w, Forall E (emitted (m w)) /\ forall a, result (m w) = Return a -> Q a.

(** The events the polling loop can emit. *)
Inductive wait_event : event -> Prop :=
| we_reload : wait_event (Sdk Transfer_reload)
| we_status s : wait_event (Print [Nl; Txt "Current status: "; Txt s])
| we_completed : wait_event (Print [Txt "Transfer completed!"])
| we_failed : wait_event (Print [Txt "Transfer failed!"])
| we_dot : wait_event PrintDot
| we_sleep : wait_event (Sleep 2)
| we_unexpected s : wait_event (Print [Txt "Unexpected status: "; Txt s])
| we_timed_out m :
    wait_event (Print [Nl; Txt "Transfer timed out after "; Num m; Txt " minutes!"])
| we_debug l : wait_event (Print (Txt "All attributes: " :: l))
| we_debug_head : wait_event (Print [Nl; Txt "Transfer object details:"])
| we_debug_status l : wait_event (Print (Txt "Status value: " :: l))
| we_debug_type l : wait_event (Print (Txt "Status type: " :: l))
| we_debug_module l : wait_event (Print (Txt "Status class module: " :: l))
| we_debug_values l : wait_event (Print (Txt "Status possible values: " :: l)).

(** The remote submission: a call of [wallet.transfer]. *)
Definition is_submission (ev : event) : Prop :=
  exists id amount asset destination gasless,
    ev = Sdk (Wallet_transfer id amount asset destination gasless).

(** What [send_tokens quantity asset_id to_address] may submit: the amount
    and the destination it was given, the asset in lower case, and a
    gasless flag that tells whether the asset is USDC up to case. *)
Definition submits_as_asked (quantity : float) (asset_id to_address : string)
    (ev : event) : Prop :=
  forall id amount asset destination gasless,
    ev = Sdk (Wallet_transfer id amount asset destination gasless) ->
    gasless = caseless_eqb asset_id "usdc" /\
    asset = lower asset_id /\ amount = quantity /\ destination = to_address.

(** The remote service answered the listing, and no wallet of the listing
    has [address] as its default address. *)
Definition unknown_to_remote (address : string) (w : world) : Prop :=
  exists wallets, remote_wallets w = inr wallets /\ find_wallet address wallets = None.

(** The disk holds a wallet record file for [address]. *)
Definition has_record (self : manager) (address : string) (w : world) : Prop :=
  is_Some (files w !! wallet_file_of self address).

(** The console lines of [print_balances]. *)
Definition balance_lines (lead : list frag) (balances : balances_t) : list event :=
  map (fun kv => Print (lead ++ [Txt (upper (fst kv)); Txt ": "; Dec (snd kv)])) balances.

(** A float that is a number. *)
Definition is_number (x : float) : Prop := is_nan x = false.

(** The value that [_wait_for_transfer] hands to its caller. *)
Definition answered (r : run (bool * transfer)) : option bool :=
  match result r with
  | Return (b, _) => Some b
  | _ => None
  end.

(** What [submit_and_follow] prints when the answer is [False] (lines 334-336). *)
Definition not_completed_report (t : transfer) : list event :=
  Print [Nl; Txt "Transfer failed or timed out!"]
  :: match error t with
     | Some e => [Print [Txt "Error details: "; Txt e]]
     | None => []
     end.

(** A funding request: a call of [wallet.faucet]. *)
Definition is_funding (ev : event) : Prop :=
  exists id, ev = Sdk (Wallet_faucet id).


(** The command of an invocation, as [main] reads it. *)
Definition command_of (argv : list string) : string := lower (argv_at argv 1).


(** The number of [transfer.reload()] calls among some events. *)
Fixpoint reload_count (evs : list event) : nat :=
  match evs with
  | [] => 0
  | Sdk Transfer_reload :: r => S (reload_count r)
  | _ :: r => reload_count r
  end.

(** The three keywords of the polling loop, on the lowercased status. *)
Definition says (keyword status_text : string) : bool :=
  str_in keyword (lower status_text).

(** A status on which the loop sleeps and polls again. *)
Definition keeps_pending (status_text : string) : Prop :=
  says "complete" status_text = false /\
  says "failed" status_text = false /\
  says "pending" status_text = true.

(** The transfer object after a [reload()] that observed [st]. *)
Definition reloaded (t : transfer) (st : string) : transfer :=
  {| status := st; polls := S (polls t); script := script t;
     transaction_hash := transaction_hash t; transaction_link := transaction_link t;
     error := error t |}.

(** The wallet object after a [reload()] that did not raise. *)
Definition wallet_reloaded (wl : wallet) : wallet :=
  {| wallet_id := wallet_id wl; address_id := address_id wl;
     network_id := network_id wl; reloads := S (reloads wl);
     state_after := state_after wl; reload_error := reload_error wl;
     transfer_result := transfer_result wl; faucet_result := faucet_result wl;
     transfers_result := transfers_result wl |}.

(** What [send_from] emits before it looks at the balances. *)
Definition reload_and_announce (wl : wallet) : list event :=
  [ Sdk (Wallet_reload (wallet_id wl));
    Print [Txt "Wallet signing capability: "; Bln (can_sign (wallet_now (wallet_reloaded wl)))];
    Print [Txt "Server signer status: ";
           Txt (server_signer_status (wallet_now (wallet_reloaded wl)))];
    Print [Nl; Txt "Checking current balance..."];
    Sdk (Wallet_balances (wallet_id wl));
    Print [Nl; Txt "Current balance:"] ].

(** The balance that the guard of [send_tokens] compares with the quantity,
    when [balances()] answers [balances]. *)
Definition guarded_balance (asset_id : string) (balances : balances_t) : float :=
  get_float balances (lower asset_id).

(** What [send_tokens] shows the operator before it asks (lines 291-298). *)
Definition transaction_details (wallet_info : wallet_data) (from_address to_address : string)
    (quantity : float) (asset_id : string) : list event :=
  [ Print [Nl; Txt "Transaction Details:"];
    Print [Txt "From: "; Txt from_address];
    Print [Txt "To: "; Txt to_address];
    Print [Txt "Amount: "; Flt quantity];
    Print [Txt "Asset ID: "; Txt (lower asset_id)];
    Print [Txt "Network: "; Txt (wd_network wallet_info)];
    Print [Txt "Gasless: "; Bln (String.eqb (lower asset_id) "usdc")] ].

(** The question of line 300. *)
Definition confirmation_prompt : event :=
  Input [Nl; Txt "Proceed with transaction? (yes/no): "].

(** The operator's next line is "yes", in any case of the letters. *)
Definition confirms (w : world) : Prop :=
  exists answer rest, stdin w = answer :: rest /\ lower answer = "yes".

(** [send_tokens] gets as far as its question: the record file is there,
    the listing has the wallet, the wallet reloads, its balances are read,
    and the balance of the asset is not found lower than the quantity. *)
Definition gets_to_question (self : manager) (from_address : string) (quantity : float)
    (asset_id : string) (w : world) (wallet_info : wallet_data) (wl : wallet)
    (balances : balances_t) : Prop :=
  files w !! wallet_file_of self from_address = Some wallet_info /\
  (exists wallets, remote_wallets w = inr wallets /\
                   find_wallet from_address wallets = Some wl) /\
  reload_error wl (reloads wl) = None /\
  balances_result (wallet_now (wallet_reloaded wl)) = inr balances /\
  (guarded_balance asset_id balances <? quantity)%float = false.

(** What [send_tokens] has emitted when it asks. *)
Definition up_to_question (wallet_info : wallet_data) (wl : wallet)
    (from_address to_address : string) (quantity : float) (asset_id : string)
    (balances : balances_t) : list event :=
  [ Print [Nl; Txt "Locating wallet "; Txt from_address; Txt "..."]; Sdk Wallet_list ]
  ++ reload_and_announce wl ++ balance_lines [] balances
  ++ transaction_details wallet_info from_address to_address quantity asset_id
  ++ [confirmation_prompt].

(** The world one pending round later: the reload, then the sleep. *)
Definition next_round (t : transfer) (w : world) : world :=
  final (time_sleep 2 (final (transfer_reload t w))).

(** The console and SDK events of a round that observes [st]. *)
Definition round_head (st : string) : list event :=
  [Sdk Transfer_reload; Print [Nl; Txt "Current status: "; Txt st]].

Definition pending_round (st : string) : list event :=
  round_head st ++ [PrintDot; Sleep 2].

(** [reaches timeout t w t' w']: the loop, at its head with the transfer [t]
    in the world [w], comes back to its head with [t'] in [w'] after some
    rounds (none, possibly) that each began before [timeout], observed a
    status that keeps the transfer pending, and slept. *)
Inductive reaches (timeout : Z) : transfer -> world -> transfer -> world -> Prop :=
| reaches_here t w : reaches timeout t w t w
| reaches_round t w st t' w' :
    clock w < timeout ->
    observed (script t (polls t)) = inr st ->
    keeps_pending st ->
    reaches timeout (reloaded t st) (next_round t w) t' w' ->
    reaches timeout t w t' w'.

(** The most rounds that fit before [timeout] from the world [w]. *)
Definition rounds_left (timeout : Z) (w : world) : nat :=
  Z.to_nat ((timeout - clock w + 1999999) / 2000000).

(** The lines that [show_balance] and [list_wallets] print for "no entry":
    the balances, or the line [none] when there are none. *)
Definition balances_or (none : list event) (lead : list frag) (balances : balances_t)
    : list event :=
  match balances with
  | [] => none
  | _ :: _ => balance_lines lead balances
  end.

(** What [show_balance] emits for a wallet it found and reloaded, up to the
    call of [balances()]. *)
Definition wallet_information (wallet_info : wallet_data) (wl : wallet)
    (wallet_address : string) : list event :=
  [ Sdk Wallet_list;
    Sdk (Wallet_reload (wallet_id wl));
    Print [Nl; Txt "Wallet Information:"];
    Print [Txt "Wallet ID: "; Txt (wallet_id wl)];
    Print [Txt "Address: "; Txt wallet_address];
    Print [Txt "Network: "; Txt (wd_network wallet_info)];
    Print [Txt "Can Sign: "; Bln (can_sign (wallet_now (wallet_reloaded wl)))];
    Print [Txt "Server Signer Status: ";
           Txt (server_signer_status (wallet_now (wallet_reloaded wl)))];
    Print [Nl; Txt "Current balances:"];
    Sdk (Wallet_balances (wallet_id wl)) ].

(** Then, from the balances to the call of [transfers()]. *)
Definition current_balances (wl : wallet) (balances : balances_t) : list event :=
  balances_or [Print [Txt "No balances found"]] [] balances
  ++ [ Print [Nl; Txt "Transfer history:"]; Sdk (Address_transfers (wallet_id wl)) ].

(** Then the transfers. *)
Definition transfer_history (transfers : list string) : list event :=
  match transfers with
  | [] => [Print [Txt "No transfer history found"]]
  | _ :: _ => map (fun tr => Print [Txt "Transfer: "; Txt tr]) transfers
  end.

(** The two lines of the handler of [show_balance]. *)
Definition show_balance_error (e : exn) : list event :=
  [ Print [Txt "Error showing balance: "; Txt (exn_str e)]; Print [Traceback e] ].

(** What [list_wallets] prints of a wallet before it reloads it. *)
Definition wallet_lines (wl : wallet) : list event :=
  [ Print [Nl; Txt "Wallet ID: "; Txt (wallet_id wl)];
    Print [Txt "Address: "; Txt (address_id wl)];
    Print [Txt "Network: "; Txt (network_id wl)];
    Print [Txt "Can Sign: "; Bln (can_sign (wallet_now wl))];
    Print [Txt "Server Signer Status: "; Txt (server_signer_status (wallet_now wl))] ].

(** Where [list_wallets] fails on a wallet, if it does: the calls it has
    made on the wallet by then, and the exception. *)
Definition wallet_failure (wl : wallet) : option (list event * exn) :=
  match reload_error wl (reloads wl) with
  | Some e => Some ([Sdk (Wallet_reload (wallet_id wl))], e)
  | None =>
      match balances_result (wallet_now (wallet_reloaded wl)) with
      | inl e =>
          Some ([Sdk (Wallet_reload (wallet_id wl)); Sdk (Wallet_balances (wallet_id wl))], e)
      | inr _ => None
      end
  end.

(** A wallet that [list_wallets] can show: its reload and its balances do
    not raise. *)
Definition healthy (wl : wallet) : Prop := wallet_failure wl = None.

(** The balances that the service answers for [wl] once reloaded (none if
    the call raises). *)
Definition balances_after_reload (wl : wallet) : balances_t :=
  match balances_result (wallet_now (wallet_reloaded wl)) with
  | inr balances => balances
  | inl _ => []
  end.

(** The block of [list_wallets] for a healthy wallet. *)
Definition wallet_block (wl : wallet) : list event :=
  wallet_lines wl
  ++ [ Sdk (Wallet_reload (wallet_id wl)); Sdk (Wallet_balances (wallet_id wl)) ]
  ++ match balances_after_reload wl with
     | [] => [Print [Txt "No balances found"]]
     | _ :: _ =>
         Print [Txt "Balances:"] :: balance_lines [Txt "  "] (balances_after_reload wl)
     end
  ++ [Print [Txt "--------------------------------------------------"]].

(** The first lines of [list_wallets] when the service lists [n] wallets. *)
Definition listing_head (n : nat) : list event :=
  [ Print [Nl; Txt "Fetching wallets..."]; Sdk Wallet_list;
    Print [Txt "Found "; Num (Z.of_nat n); Txt " wallet(s):"] ].

(** The two lines of the handler of [list_wallets]. *)
Definition list_wallets_error (e : exn) : list event :=
  [ Print [Txt "Error listing wallets: "; Txt (exn_str e)]; Print [Traceback e] ].

(** What [send_tokens] prints of a completed transfer: its hash and its
    link, each if the transfer has one (lines 322-325). *)
Definition receipt (t : transfer) : list event :=
  Print [Nl; Txt "Transfer completed successfully!"]
  :: match transaction_hash t with
     | Some h => [Print [Txt "Transaction hash: "; Txt h]]
     | None => []
     end
  ++ match transaction_link t with
     | Some l => [Print [Txt "Transaction link: "; Txt l]]
     | None => []
     end.

(** The [.env] of the current directory once [_load_env_config] has looked
    for it: the file that was there, or else the template. *)
Definition env_file_after_check (w : world) : gmap string string :=
  match dotenv w with
  | Some d => d
  | None => default_env
  end.

(** The variables that [load_dotenv()] loads after that. *)
Definition loaded_by_dotenv (w : world) : gmap string string :=
  match load_dotenv_finds w with
  | Cwd_dotenv => env_file_after_check w
  | Other_dotenv d => d
  | No_dotenv => ∅
  end.

(** A setting by precedence: the variable of the process environment, or
    else the variable of the loaded [.env], or else the default. *)
Definition setting (w : world) (key dflt : string) : string :=
  match environ w !! key with
  | Some v => v
  | None =>
      match loaded_by_dotenv w !! key with
      | Some v => v
      | None => dflt
      end
  end.

(** The manager that this precedence gives in the world [w]. *)
Definition configured (w : world) : manager :=
  {| network := setting w "NETWORK" "base-sepolia";
     wallet_path := setting w "WALLET_STORAGE_PATH" "./wallets" |}.

(** What the program keeps outside its process: the wallet record files,
    the [.env] file, the environment, the credentials file. *)
Definition storage (w : world)
    : gmap string wallet_data * option (gmap string string) * gmap string string * bool :=
  (files w, dotenv w, environ w, key_file w).

(** [m] leaves the observation [f] of the world as it found it, however it
    ends. *)
Definition preserves {A X} (f : world -> X) (m : M A) : Prop :=
  forall w, f (final (m w)) = f w.

(** [m] never ends the process. *)
Definition no_exit {A} (m : M A) : Prop :=
  forall w c, result (m w) <> SysExit c.

(** No exception leaves [m]: none of the instances of [Exception] that the
    calls of the program raise. *)
Definition no_exception {A} (m : M A) : Prop :=
  forall w e, result (m w) <> Raise e.

(** [m] always returns: neither an exception nor an exit leaves it. *)
Definition always_returns {A} (m : M A) : Prop :=
  forall w, exists a, result (m w) = Return a.

(* ===================================================================== *)
(** ** Sample objects and worlds                                          *)
(* ===================================================================== *)

Definition sample_decimal (x : float) (text : string) : Decimal :=
  {| float_of_Decimal := x; str_of_Decimal := text |}.

(** A transfer whose reloads each take 0.3 s and observe the statuses of
    [seen_statuses], then [last] for ever. *)
Definition scripted_transfer (seen_statuses : list string) (last : string) : transfer :=
  {| status := "pending"; polls := 0;
     script := fun n => {| took := 300000; observed := inr (nth n seen_statuses last) |};
     transaction_hash := Some "0xabc"; transaction_link := None; error := None |}.

(** A transfer whose reloads observe the statuses of [seen_statuses], then
    raise [e]. *)
Definition interrupted_transfer (seen_statuses : list string) (e : exn) : transfer :=
  {| status := "pending"; polls := 0;
     script := fun n =>
       {| took := 300000;
          observed := match nth_error seen_statuses n with
                      | Some st => inr st
                      | None => inl e
                      end |};
     transaction_hash := None; transaction_link := None; error := None |}.

(** A wallet of the listing that the service cannot reload. *)
Definition unreachable_wallet (id address : string) : wallet :=
  {| wallet_id := id; address_id := address; network_id := "base-sepolia"; reloads := 0;
     state_after := fun _ =>
       {| can_sign := false; server_signer_status := "pending_seed_creation";
          balances_result := inr [] |};
     reload_error := fun _ => Some (Exception "503 Service Unavailable");
     transfer_result := fun _ _ _ _ => inl (Exception "503 Service Unavailable");
     faucet_result := inl (Exception "503 Service Unavailable");
     transfers_result := inr [] |}.

(** A wallet like [sample_wallet tr] that the service reloads once and then
    no more. *)
Definition fading_wallet (tr : transfer) : wallet :=
  {| wallet_id := "w-1"; address_id := "0xA"; network_id := "base-sepolia"; reloads := 0;
     state_after := fun _ =>
       {| can_sign := true; server_signer_status := "active";
          balances_result := inr [("usdc", sample_decimal 5 "5")] |};
     reload_error := fun n =>
       match n with
       | O => None
       | S _ => Some (Exception "429 Too Many Requests")
       end;
     transfer_result := fun _ _ _ _ => inr tr;
     faucet_result := inl (Exception "faucet unavailable");
     transfers_result := inr [] |}.

(** A wallet holding 1 ETH and 5 USDC whose transfers follow [tr]. *)
Definition sample_wallet (tr : transfer) : wallet :=
  {| wallet_id := "w-1"; address_id := "0xA"; network_id := "base-sepolia"; reloads := 0;
     state_after := fun _ =>
       {| can_sign := true; server_signer_status := "active";
          balances_result := inr [("eth", sample_decimal 1 "1"); ("usdc", sample_decimal 5 "5")] |};
     reload_error := fun _ => None;
     transfer_result := fun _ _ _ _ => inr tr;
     faucet_result := inl (Exception "faucet unavailable");
     transfers_result := inr [] |}.

Definition sample_manager : manager :=
  {| network := "base-sepolia"; wallet_path := "./wallets" |}.

Definition sample_record : wallet_data :=
  {| wd_address := "0xA"; wd_network := "base-sepolia"; wd_wallet_id := "w-1" |}.

(** A world where the remote service lists [wallets], the disk holds the
    record files [disk], and the operator answers [answers]. *)
Definition sample_world (wallets : list wallet) (disk : gmap string wallet_data)
    (answers : list string) : world :=
  {| clock := 0; naps := 0; oversleep := fun _ => 0%N; stdin := answers;
     files := disk; key_file := true; configure_error := None;
     dotenv := None; load_dotenv_finds := Cwd_dotenv; environ := ∅;
     mkdir_error := fun _ => None;
     remote_wallets := inr wallets;
     remote_create := fun _ => inr (sample_wallet (scripted_transfer [] "complete")) |}.


Definition sample_disk : gmap string wallet_data :=
  <["./wallets/0xA.txt" := sample_record]> ∅.

(* ===================================================================== *)
(** * Properties                                                          *)
(* ===================================================================== *)

(** ** Strings *)

Lemma lower_char_caseless (x y : ascii) :
  is_upper y = false ->
  Ascii.eqb (lower_char x) y =
  (Ascii.eqb x y || (is_upper x && Ascii.eqb (lower_char x) y)
   || (is_upper y && Ascii.eqb x (lower_char y)))%bool.
Proof.
  intros Hy. rewrite Hy. unfold lower_char.
  destruct (is_upper x) eqn:Hx; simpl.
  - destruct (Ascii.eqb_spec x y) as [->|_]; [congruence|].
    simpl. rewrite !orb_false_r. reflexivity.
  - rewrite !orb_false_r. reflexivity.
Qed.

(** Comparing the lowercased text with a text that has no capital letter
    is comparing the two texts up to case. *)
Lemma lower_eqb_caseless (b a : string) :
  lower b = b -> String.eqb (lower a) b = caseless_eqb a b.
Proof.
  revert a. induction b as [|y b IH]; intros [|x a] Hb; simpl; try reflexivity.
  simpl in Hb. injection Hb as Hy Hb'.
  assert (is_upper y = false) as Hny.
  { unfold lower_char in Hy. destruct (is_upper y) eqn:E; [|reflexivity].
    exfalso. unfold is_upper in E.
    apply (f_equal nat_of_ascii) in Hy.
    apply andb_prop in E as [E1 E2]. apply Nat.leb_le in E1, E2.
    rewrite nat_ascii_embedding in Hy; lia. }
  rewrite <- (lower_char_caseless x y Hny). rewrite IH by assumption. reflexivity.
Qed.

(** ** The logic of [behaves] *)

Section BehavesRules.

Context {A B : Type}.
Variable E : event -> Prop.

Lemma behaves_weaken (Q Q' : A -> Prop) (m : M A) :
  behaves E Q m -> (forall a, Q a -> Q' a) -> behaves E Q' m.
Proof. intros H HQ w. destruct (H w) as [He Hr]. split; auto. Qed.

Lemma behaves_ret (Q : A -> Prop) (a : A) : Q a -> behaves E Q (mret a).
Proof.
  intros Ha w. split; [constructor|].
  intros a' H. cbv in H. congruence.
Qed.

Lemma behaves_bind (Q : A -> Prop) (R : B -> Prop) (m : M A) (k : A -> M B) :
  behaves E Q m -> (forall a, Q a -> behaves E R (k a)) -> behaves E R (m ≫= k).
Proof.
  intros Hm Hk w. unfold mbind, M_bind, bind.
  destruct (Hm w) as [He Hr].
  destruct (result (m w)) as [a|e|c] eqn:Hres; simpl.
  - destruct (Hk a (Hr a eq_refl) (final (m w))) as [He' Hr'].
    split; [apply Forall_app; split; assumption | exact Hr'].
  - split; [assumption | discriminate].
  - split; [assumption | discriminate].
Qed.

Lemma behaves_try_except (Q : A -> Prop) (m : M A) (h : exn -> M A) :
  behaves E Q m -> (forall e, behaves E Q (h e)) -> behaves E Q (try_except m h).
Proof.
  intros Hm Hh w. unfold try_except.
  destruct (Hm w) as [He Hr].
  destruct (result (m w)) as [a|e|c] eqn:Hres; simpl.
  - split; [assumption|]. rewrite Hres. exact Hr.
  - destruct (Hh e (final (m w))) as [He' Hr'].
    split; [apply Forall_app; split; assumption | exact Hr'].
  - split; [assumption|]. rewrite Hres. discriminate.
Qed.

Lemma behaves_try_except_FileNotFoundError (Q : A -> Prop) (m h : M A) :
  behaves E Q m -> behaves E Q h -> behaves E Q (try_except_FileNotFoundError m h).
Proof.
  intros Hm Hh w. unfold try_except_FileNotFoundError.
  destruct (Hm w) as [He Hr].
  destruct (result (m w)) as [a|[p|p|p|p]|c] eqn:Hres; simpl;
    try (split; [assumption|]; rewrite Hres; first [exact Hr | discriminate]).
  destruct (Hh (final (m w))) as [He' Hr'].
  split; [apply Forall_app; split; assumption | exact Hr'].
Qed.

End BehavesRules.

Section PrimitiveRules.

Variable E : event -> Prop.

Lemma behaves_emit (ev : event) : E ev -> behaves E (fun _ => True) (emit ev).
Proof. intros H w. split; [repeat constructor; exact H | trivial]. Qed.

Lemma behaves_print (line : list frag) :
  E (Print line) -> behaves E (fun _ => True) (print line).
Proof. apply behaves_emit. Qed.

Lemma behaves_sdk {A} (c : sdk_call) (ans : exn + A) :
  E (Sdk c) -> behaves E (fun a => ans = inr a) (sdk c ans).
Proof.
  intros H w. unfold sdk. destruct ans as [e|a]; simpl.
  - split; [repeat constructor; exact H | discriminate].
  - split; [repeat constructor; exact H | congruence].
Qed.

Lemma behaves_input (prompt : list frag) :
  E (Input prompt) -> behaves E (fun _ => True) (input prompt).
Proof.
  intros H w. unfold input. destruct (stdin w); simpl;
    (split; [repeat constructor; exact H | trivial]).
Qed.

Lemma behaves_for_each {A} (l : list A) (body : A -> M unit) :
  (forall x, behaves E (fun _ => True) (body x)) ->
  behaves E (fun _ => True) (for_each l body).
Proof.
  intros Hb. induction l as [|x l IH]; simpl.
  - apply behaves_ret. exact I.
  - eapply behaves_bind; [apply Hb | intros _ _; exact IH].
Qed.

Lemma behaves_read_wallet_file (path : string) :
  behaves E (fun _ => True) (read_wallet_file path).
Proof.
  intros w. unfold read_wallet_file. destruct (files w !! path); simpl;
    (split; [constructor | trivial]).
Qed.

Lemma behaves_wallet_reload (wl : wallet) :
  E (Sdk (Wallet_reload (wallet_id wl))) ->
  behaves E (fun wl' => wl' = wallet_reloaded wl /\ reload_error wl (reloads wl) = None)
          (wallet_reload wl).
Proof.
  intros H w. unfold wallet_reload. destruct (reload_error wl (reloads wl)) eqn:Hre; simpl.
  - split; [repeat constructor; exact H | discriminate].
  - split; [repeat constructor; exact H | ].
    intros a Ha. injection Ha as <-. split; reflexivity.
Qed.

Lemma behaves_Wallet_list_all :
  E (Sdk Wallet_list) -> behaves E (fun _ => True) Wallet_list_all.
Proof.
  intros H w. unfold Wallet_list_all.
  destruct (behaves_sdk Wallet_list (remote_wallets w) H w) as [He _].
  split; [exact He | trivial].
Qed.

End PrimitiveRules.

(** ** The polling loop, one round at a time *)

Lemma poll_expired (timeout : Z) (t : transfer) (w : world) :
  timeout <= clock w -> poll timeout t w = Run (Return (None, t)) [] w.
Proof.
  intros H. etransitivity; [apply poll_equation_1|].
  destruct (Z_lt_dec (clock w) timeout); [lia|]. reflexivity.
Qed.

Lemma transfer_reload_observes (t : transfer) (w : world) (st : string) :
  observed (script t (polls t)) = inr st ->
  transfer_reload t w =
  Run (Return (reloaded t st)) [Sdk Transfer_reload]
      (set_clock (clock w + Z.of_N (took (script t (polls t)))) w).
Proof. intros H. unfold transfer_reload. rewrite H. reflexivity. Qed.

Section OneRound.

Variables (timeout : Z) (t : transfer) (w : world) (st : string).
Hypothesis before_deadline : clock w < timeout.
Hypothesis observes : observed (script t (polls t)) = inr st.

Lemma poll_round :
  poll timeout t w =
  after (round_head st)
    (if says "complete" st then
       Run (Return (Some true, reloaded t st)) [Print [Txt "Transfer completed!"]]
           (final (transfer_reload t w))
     else if says "failed" st then
       Run (Return (Some false, reloaded t st)) [Print [Txt "Transfer failed!"]]
           (final (transfer_reload t w))
     else if says "pending" st then
       after [PrintDot; Sleep 2] (poll timeout (reloaded t st) (next_round t w))
     else
       Run (Return (Some false, reloaded t st))
           [Print [Txt "Unexpected status: "; Txt st]] (final (transfer_reload t w))).
Proof.
  etransitivity; [apply poll_equation_1|].
  destruct (Z_lt_dec (clock w) timeout); [|lia].
  unfold poll_unfold_clause_1, says, next_round.
  rewrite (transfer_reload_observes t w st observes). reflexivity.
Qed.

Lemma poll_round_complete :
  says "complete" st = true ->
  poll timeout t w =
  Run (Return (Some true, reloaded t st))
      (round_head st ++ [Print [Txt "Transfer completed!"]])
      (final (transfer_reload t w)).
Proof. intros H. rewrite poll_round, H. reflexivity. Qed.

Lemma poll_round_failed :
  says "complete" st = false -> says "failed" st = true ->
  poll timeout t w =
  Run (Return (Some false, reloaded t st))
      (round_head st ++ [Print [Txt "Transfer failed!"]])
      (final (transfer_reload t w)).
Proof. intros H1 H2. rewrite poll_round, H1, H2. reflexivity. Qed.

Lemma poll_round_unexpected :
  says "complete" st = false -> says "failed" st = false -> says "pending" st = false ->
  poll timeout t w =
  Run (Return (Some false, reloaded t st))
      (round_head st ++ [Print [Txt "Unexpected status: "; Txt st]])
      (final (transfer_reload t w)).
Proof. intros H1 H2 H3. rewrite poll_round, H1, H2, H3. reflexivity. Qed.

Lemma poll_round_pending :
  keeps_pending st ->
  poll timeout t w =
  after (pending_round st) (poll timeout (reloaded t st) (next_round t w)).
Proof.
  intros (H1 & H2 & H3). rewrite poll_round, H1, H2, H3.
  unfold after. simpl. reflexivity.
Qed.

End OneRound.

Lemma poll_round_raises (timeout : Z) (t : transfer) (w : world) (e : exn) :
  clock w < timeout -> observed (script t (polls t)) = inl e ->
  poll timeout t w =
  Run (Raise e) [Sdk Transfer_reload]
      (set_clock (clock w + Z.of_N (took (script t (polls t)))) w).
Proof.
  intros Hlt H. etransitivity; [apply poll_equation_1|].
  destruct (Z_lt_dec (clock w) timeout); [|lia].
  unfold poll_unfold_clause_1, transfer_reload. rewrite H. reflexivity.
Qed.

Lemma next_round_clock (t : transfer) (w : world) :
  clock (next_round t w) =
  clock w + Z.of_N (took (script t (polls t))) + 2 * microseconds_per_second
  + Z.of_N (oversleep w (naps w)).
Proof.
  unfold next_round, transfer_reload. destruct (observed _); reflexivity.
Qed.

Lemma rounds_left_next (timeout : Z) (t : transfer) (w : world) :
  clock w < timeout ->
  (rounds_left timeout (next_round t w) < rounds_left timeout w)%nat.
Proof.
  intros H. unfold rounds_left. rewrite next_round_clock.
  unfold microseconds_per_second.
  set (a := Z.of_N (took _)). set (o := Z.of_N (oversleep _ _)).
  assert (0 <= a) by (subst a; lia). assert (0 <= o) by (subst o; lia).
  Z.div_mod_to_equations. lia.
Qed.

(** ** The polling loop, over many rounds *)

Lemma after_after {A} (e1 e2 : list event) (r : run A) :
  after e1 (after e2 r) = after (e1 ++ e2) r.
Proof. unfold after. simpl. rewrite app_assoc. reflexivity. Qed.

Lemma reload_count_app (e1 e2 : list event) :
  reload_count (e1 ++ e2) = (reload_count e1 + reload_count e2)%nat.
Proof.
  induction e1 as [|ev e1 IH]; simpl; [reflexivity|].
  destruct ev as [l| |p|s|c]; try exact IH.
  destruct c; simpl; rewrite ?IH; reflexivity.
Qed.

Lemma debug_lines_wait (t : transfer) : Forall wait_event (debug_lines t).
Proof. unfold debug_lines. repeat constructor. Qed.

Lemma debug_lines_no_reload (t : transfer) : reload_count (debug_lines t) = 0%nat.
Proof. reflexivity. Qed.

(** Induction over the rounds of the loop: they are finitely many, since
    each one moves the clock by two seconds at least. *)
Lemma poll_rounds_ind (timeout : Z) (P : transfer -> world -> Prop) :
  (forall t w, timeout <= clock w -> P t w) ->
  (forall t w, clock w < timeout ->
     (forall st, observed (script t (polls t)) = inr st ->
                 P (reloaded t st) (next_round t w)) ->
     P t w) ->
  forall t w, P t w.
Proof.
  intros Hend Hstep t w.
  remember (rounds_left timeout w) as n eqn:Hn.
  assert (Hle : (rounds_left timeout w <= n)%nat) by lia. clear Hn.
  revert t w Hle. induction n as [|n IH]; intros t w Hle.
  - destruct (Z_lt_dec (clock w) timeout) as [Hlt|Hge]; [|apply Hend; lia].
    exfalso. unfold rounds_left in Hle.
    assert (1 <= (timeout - clock w + 1999999) / 2000000)
      by (Z.div_mod_to_equations; lia). lia.
  - destruct (Z_lt_dec (clock w) timeout) as [Hlt|Hge]; [|apply Hend; lia].
    apply Hstep; [exact Hlt|]. intros st _. apply IH.
    pose proof (rounds_left_next timeout t w Hlt). lia.
Qed.

Lemma poll_emits_wait_events (timeout : Z) (t : transfer) (w : world) :
  Forall wait_event (emitted (poll timeout t w)).
Proof.
  revert t w.
  apply (poll_rounds_ind timeout
           (fun t w => Forall wait_event (emitted (poll timeout t w)))); intros t w Hc.
  - rewrite poll_expired by assumption. constructor.
  - intros IH. destruct (observed (script t (polls t))) as [e|st] eqn:Hobs.
    + rewrite (poll_round_raises timeout t w e Hc Hobs). repeat constructor.
    + rewrite (poll_round timeout t w st Hc Hobs). specialize (IH st eq_refl).
      destruct (says "complete" st); [repeat constructor|].
      destruct (says "failed" st); [repeat constructor|].
      destruct (says "pending" st); [|repeat constructor].
      simpl. repeat (constructor; [constructor|]). exact IH.
Qed.

(** From one loop head to a later one. *)
Lemma poll_reaches (timeout : Z) (t : transfer) (w : world) (t' : transfer) (w' : world) :
  reaches timeout t w t' w' ->
  exists evs,
    poll timeout t w = after evs (poll timeout t' w') /\
    Forall wait_event evs /\
    (polls t <= polls t')%nat /\
    reload_count evs = (polls t' - polls t)%nat /\
    clock w <= clock w'.
Proof.
  induction 1 as [t w | t w st t' w' Hc Hobs Hst Hr IH].
  - exists []. repeat split; try constructor; try lia.
    + unfold after. simpl. destruct (poll timeout t w); reflexivity.
    + simpl. lia.
  - destruct IH as (evs & Heq & Hev & Hp & Hn & Hck).
    exists (pending_round st ++ evs)%list.
    rewrite (poll_round_pending timeout t w st Hc Hobs Hst), Heq, after_after.
    simpl in Hp. rewrite next_round_clock in Hck.
    repeat split.
    + apply Forall_app. split; [repeat constructor | exact Hev].
    + lia.
    + rewrite reload_count_app, Hn. simpl. lia.
    + unfold microseconds_per_second in Hck. lia.
Qed.

Lemma reaches_script (timeout : Z) (t : transfer) (w : world) (t' : transfer) (w' : world) :
  reaches timeout t w t' w' -> script t' = script t.
Proof. induction 1 as [|? ? ? ? ? _ _ _ _ IH]; [reflexivity | exact IH]. Qed.

(** A transfer that stays pending is polled until the deadline, and no
    longer. *)
Lemma poll_pending_until_deadline (timeout : Z) (t : transfer) (w : world) :
  (forall t1 w1, reaches timeout t w t1 w1 -> clock w1 < timeout ->
     exists st, observed (script t1 (polls t1)) = inr st /\ keeps_pending st) ->
  exists t' w',
    reaches timeout t w t' w' /\
    timeout <= clock w' /\
    (polls t' - polls t <= rounds_left timeout w)%nat /\
    (w' = w \/ exists t1 w1, reaches timeout t w t1 w1 /\ clock w1 < timeout /\
                             w' = next_round t1 w1).
Proof.
  revert t w. apply (poll_rounds_ind timeout (fun t w =>
    (forall t1 w1, reaches timeout t w t1 w1 -> clock w1 < timeout ->
       exists st, observed (script t1 (polls t1)) = inr st /\ keeps_pending st) ->
    exists t' w',
      reaches timeout t w t' w' /\
      timeout <= clock w' /\
      (polls t' - polls t <= rounds_left timeout w)%nat /\
      (w' = w \/ exists t1 w1, reaches timeout t w t1 w1 /\ clock w1 < timeout /\
                               w' = next_round t1 w1))).
  - intros t w Hc _. exists t, w. repeat split; [constructor | lia | lia | left; reflexivity].
  - intros t w Hc IH Hall.
    pose proof (rounds_left_next timeout t w Hc) as Hdec.
    destruct (Hall t w (reaches_here timeout t w) Hc) as (st & Hobs & Hst).
    destruct (IH st Hobs) as (t' & w' & Hr & Hd & Hn & Hlast).
    { intros t1 w1 Hr1 Hc1. apply (Hall t1 w1); [|exact Hc1]. eapply reaches_round; eauto. }
    exists t', w'. simpl in Hn.
    assert (Hreach : reaches timeout t w t' w') by (eapply reaches_round; eauto).
    repeat split; [exact Hreach | exact Hd | lia |]. right.
    destruct Hlast as [-> | (t1 & w1 & Hr1 & Hc1 & ->)].
    + exists t, w. repeat split; [constructor | exact Hc].
    + exists t1, w1. repeat split; [|exact Hc1]. eapply reaches_round; eauto.
Qed.

(** ** [_wait_for_transfer] *)

Lemma conclude_after (m : Z) (evs : list event) (r : run (option bool * transfer)) :
  conclude m (after evs r) = after evs (conclude m r).
Proof.
  unfold conclude, after. simpl.
  destruct (result r) as [[[b|] t']|e|c]; simpl; rewrite ?app_assoc; reflexivity.
Qed.

(** The call, followed up to a later loop head. *)
Lemma wait_reaches (t : transfer) (m : Z) (w : world) (t' : transfer) (w' : world) :
  reaches (deadline w m) t w t' w' ->
  exists evs,
    _wait_for_transfer t m w =
      after (debug_lines t ++ evs) (conclude m (poll (deadline w m) t' w')) /\
    Forall wait_event evs /\
    reload_count evs = (polls t' - polls t)%nat.
Proof.
  intros Hr. destruct (poll_reaches _ _ _ _ _ Hr) as (evs & Heq & Hev & _ & Hn & _).
  exists evs. repeat split; try assumption.
  unfold _wait_for_transfer. rewrite Heq, conclude_after, after_after. reflexivity.
Qed.

Lemma wait_emits_wait_events (t : transfer) (m : Z) (w : world) :
  Forall wait_event (emitted (_wait_for_transfer t m w)).
Proof.
  unfold _wait_for_transfer, after. cbn [emitted].
  apply Forall_app. split; [apply debug_lines_wait|].
  pose proof (poll_emits_wait_events (deadline w m) t w) as H.
  unfold conclude. destruct (result (poll (deadline w m) t w)) as [[[b|] t']|e|c]; simpl;
    try exact H.
  apply Forall_app. split; [exact H | repeat constructor].
Qed.

Lemma behaves_wait (E : event -> Prop) (t : transfer) (m : Z) :
  (forall ev, wait_event ev -> E ev) ->
  behaves E (fun _ => True) (_wait_for_transfer t m).
Proof.
  intros H w. split; [|trivial].
  eapply Forall_impl; [apply wait_emits_wait_events | exact H].
Qed.

(** C2.  A transfer whose next three reloads observe a pending status, a
    pending status and then a complete one, with the third reload starting
    before the deadline: [_wait_for_transfer] answers [True]; it has made
    exactly these three reloads, and "Transfer completed!" is the last
    thing it does. *)
Theorem wait_pending_pending_complete (t : transfer) (m : Z) (w : world) (s1 s2 s3 : string) :
  observed (script t (polls t)) = inr s1 ->
  observed (script t (S (polls t))) = inr s2 ->
  observed (script t (S (S (polls t)))) = inr s3 ->
  keeps_pending s1 -> keeps_pending s2 -> says "complete" s3 = true ->
  clock (next_round (reloaded t s1) (next_round t w)) < deadline w m ->
  let t3 := reloaded (reloaded (reloaded t s1) s2) s3 in
  let r := _wait_for_transfer t m w in
  result r = Return (true, t3) /\
  emitted r = (debug_lines t ++ pending_round s1 ++ pending_round s2
               ++ round_head s3 ++ [Print [Txt "Transfer completed!"]])%list /\
  reload_count (emitted r) = 3%nat /\
  polls t3 = (polls t + 3)%nat.
Proof.
  intros H1 H2 H3 P1 P2 C3 Hc3 t3 r.
  set (w1 := next_round t w) in *. set (w2 := next_round (reloaded t s1) w1) in *.
  assert (Hc2 : clock w1 < deadline w m).
  { subst w2. rewrite next_round_clock in Hc3. unfold microseconds_per_second in Hc3. lia. }
  assert (Hc1 : clock w < deadline w m).
  { subst w1. rewrite next_round_clock in Hc2. unfold microseconds_per_second in Hc2. lia. }
  assert (Hr : r = Run (Return (true, t3))
                 (debug_lines t ++ pending_round s1 ++ pending_round s2
                  ++ round_head s3 ++ [Print [Txt "Transfer completed!"]])
                 (final (transfer_reload (reloaded (reloaded t s1) s2) w2))).
  { subst r. unfold _wait_for_transfer.
    rewrite (poll_round_pending _ t w s1 Hc1 H1 P1). fold w1.
    rewrite (poll_round_pending _ (reloaded t s1) w1 s2 Hc2 H2 P2). fold w2.
    rewrite (poll_round_complete _ (reloaded (reloaded t s1) s2) w2 s3 Hc3 H3 C3).
    reflexivity. }
  rewrite Hr. simpl. repeat split; try reflexivity. lia.
Qed.

Lemma wait_pending_pending_complete_witness :
  let t := scripted_transfer ["pending"; "pending"] "complete" in
  let r := _wait_for_transfer t 10 (sample_world [] ∅ []) in
  result r = Return (true, reloaded (reloaded (reloaded t "pending") "pending") "complete") /\
  emitted r = (debug_lines t ++ pending_round "pending" ++ pending_round "pending"
               ++ round_head "complete" ++ [Print [Txt "Transfer completed!"]])%list /\
  reload_count (emitted r) = 3%nat /\
  polls (reloaded (reloaded (reloaded t "pending") "pending") "complete") = (polls t + 3)%nat.
Proof.
  apply (wait_pending_pending_complete
           (scripted_transfer ["pending"; "pending"] "complete") 10 (sample_world [] ∅ [])
           "pending" "pending" "complete");
    first [ reflexivity | repeat split; reflexivity ].
Defined.

(** C3.  The deadline is [timeout_minutes] minutes after the start, that
    is, [m * 60000000] microseconds after the clock of the world in which
    [_wait_for_transfer] is called.  A transfer that stays pending, that
    is, one whose reload observes a status that keeps it pending at every
    loop head reached before that instant: [_wait_for_transfer] returns,
    with the answer [False] and the "timed out" line as its last event.  It
    does not stop before that instant, and it stops at the first loop head
    at or after it: the round before, if any, began before it, so the end
    is later than the deadline by less than that one round (its reload, the
    two seconds and what the sleep overshoots).  The reloads are as many as
    the rounds: at most thirty per minute of the timeout, and at least one
    if the timeout is positive.  (The clock only moves forward.) *)
Theorem wait_pending_times_out (t : transfer) (m : Z) (w : world) :
  (forall t1 w1,
     reaches (clock w + m * 60000000) t w t1 w1 -> clock w1 < clock w + m * 60000000 ->
     exists st, observed (script t1 (polls t1)) = inr st /\ keeps_pending st) ->
  let r := _wait_for_transfer t m w in
  exists t',
    result r = Return (false, t') /\
    (exists before, emitted r = (before ++ [timed_out_line m])%list) /\
    reaches (clock w + m * 60000000) t w t' (final r) /\
    clock w + m * 60000000 <= clock (final r) /\
    (final r = w \/
     exists t1 w1,
       reaches (clock w + m * 60000000) t w t1 w1 /\
       clock w1 < clock w + m * 60000000 /\
       final r = next_round t1 w1 /\
       clock (final r) = clock w1 + Z.of_N (took (script t1 (polls t1))) + 2000000
                         + Z.of_N (oversleep w1 (naps w1))) /\
    reload_count (emitted r) = (polls t' - polls t)%nat /\
    (polls t' - polls t <= Z.to_nat (30 * m))%nat /\
    (0 < m -> (1 <= reload_count (emitted r))%nat).
Proof.
  assert (Hd : deadline w m = clock w + m * 60000000)
    by (unfold deadline, microseconds_per_second; lia).
  rewrite <- Hd. intros Hall r.
  destruct (poll_pending_until_deadline _ t w Hall) as (t' & w' & Hr & Hdl & Hn & Hlast).
  destruct (wait_reaches t m w t' w' Hr) as (evs & Heq & Hev & Hcount).
  assert (Hrun : r = Run (Return (false, t')) ((debug_lines t ++ evs) ++ [timed_out_line m]) w').
  { subst r. rewrite Heq, (poll_expired _ t' w' Hdl). unfold conclude, after.
    cbn [result emitted final]. rewrite app_nil_l. reflexivity. }
  assert (Hreloads : reload_count (emitted r) = (polls t' - polls t)%nat).
  { rewrite Hrun. cbn [emitted].
    rewrite !reload_count_app, Hcount, debug_lines_no_reload. simpl. lia. }
  assert (Hrounds : rounds_left (deadline w m) w = Z.to_nat (30 * m)).
  { unfold rounds_left. rewrite Hd. f_equal. Z.div_mod_to_equations. lia. }
  exists t'. rewrite Hreloads. rewrite Hrun. cbn [result emitted final].
  split; [reflexivity|]. split; [eexists; reflexivity|].
  split; [exact Hr|]. split; [exact Hdl|]. split; [|split; [reflexivity|split]].
  - destruct Hlast as [->|(t1 & w1 & Hr1 & Hc1 & ->)]; [left; reflexivity|].
    right. exists t1, w1. repeat split; try assumption.
    rewrite next_round_clock. unfold microseconds_per_second. lia.
  - rewrite <- Hrounds. exact Hn.
  - intros Hm. inversion Hr as [t0 w0 | t0 w0 st t1 w1 Hlt Hobs Hkeep Hrest]; subst.
    + exfalso. lia.
    + destruct (poll_reaches _ _ _ _ _ Hrest) as (evs' & _ & _ & Hle & _).
      cbn [polls reloaded] in Hle. lia.
Qed.

Lemma wait_pending_times_out_witness :
  let t := scripted_transfer [] "pending" in
  let w := sample_world [] ∅ [] in
  let r := _wait_for_transfer t 10 w in
  exists t',
    result r = Return (false, t') /\
    (exists before, emitted r = (before ++ [timed_out_line 10])%list) /\
    reaches (clock w + 10 * 60000000) t w t' (final r) /\
    clock w + 10 * 60000000 <= clock (final r) /\
    (final r = w \/
     exists t1 w1,
       reaches (clock w + 10 * 60000000) t w t1 w1 /\
       clock w1 < clock w + 10 * 60000000 /\
       final r = next_round t1 w1 /\
       clock (final r) = clock w1 + Z.of_N (took (script t1 (polls t1))) + 2000000
                         + Z.of_N (oversleep w1 (naps w1))) /\
    reload_count (emitted r) = (polls t' - polls t)%nat /\
    (polls t' - polls t <= Z.to_nat (30 * 10))%nat /\
    (0 < 10 -> (1 <= reload_count (emitted r))%nat).
Proof.
  apply (wait_pending_times_out (scripted_transfer [] "pending") 10 (sample_world [] ∅ [])).
  intros t1 w1 Hr _. exists "pending". split; [|repeat split; reflexivity].
  rewrite (reaches_script _ _ _ _ _ Hr). simpl. destruct (polls t1); reflexivity.
Defined.

(** C6.  Wherever the loop stands (after any number of pending rounds), when
    the reload it makes before the deadline observes a status whose
    lowercased text has none of "complete", "failed", "pending":
    [_wait_for_transfer] answers [False], the "Unexpected status" line is
    its last event, and that reload was its last. *)
Theorem wait_unexpected_status (t : transfer) (m : Z) (w : world)
    (t' : transfer) (w' : world) (st : string) :
  reaches (deadline w m) t w t' w' ->
  clock w' < deadline w m ->
  observed (script t' (polls t')) = inr st ->
  says "complete" st = false -> says "failed" st = false -> says "pending" st = false ->
  let r := _wait_for_transfer t m w in
  result r = Return (false, reloaded t' st) /\
  (exists before,
     emitted r = (before ++ round_head st
                  ++ [Print [Txt "Unexpected status: "; Txt st]])%list) /\
  reload_count (emitted r) = S (polls t' - polls t) /\
  final r = final (transfer_reload t' w').
Proof.
  intros Hr Hc Hobs H1 H2 H3 r.
  destruct (wait_reaches t m w t' w' Hr) as (evs & Heq & Hev & Hcount).
  subst r. rewrite Heq, (poll_round_unexpected _ t' w' st Hc Hobs H1 H2 H3).
  unfold conclude, after. simpl. repeat split.
  - exists (debug_lines t ++ evs)%list. rewrite <- app_assoc. reflexivity.
  - change (reload_count (debug_lines t ++ evs ++ round_head st
                          ++ [Print [Txt "Unexpected status: "; Txt st]])
            = S (polls t' - polls t)) .
    rewrite !reload_count_app, Hcount. simpl. lia.
Qed.

Lemma wait_unexpected_status_witness :
  let t := scripted_transfer ["pending"] "archived" in
  let w := sample_world [] ∅ [] in
  let t' := reloaded t "pending" in
  let r := _wait_for_transfer t 10 w in
  result r = Return (false, reloaded t' "archived") /\
  (exists before,
     emitted r = (before ++ round_head "archived"
                  ++ [Print [Txt "Unexpected status: "; Txt "archived"]])%list) /\
  reload_count (emitted r) = S (polls t' - polls t) /\
  final r = final (transfer_reload t' (next_round t w)).
Proof.
  apply (wait_unexpected_status
           (scripted_transfer ["pending"] "archived") 10 (sample_world [] ∅ [])
           (reloaded (scripted_transfer ["pending"] "archived") "pending")
           (next_round (scripted_transfer ["pending"] "archived") (sample_world [] ∅ []))
           "archived");
    try reflexivity.
  apply (reaches_round _ _ _ "pending"); [reflexivity | reflexivity | | constructor].
  repeat split; reflexivity.
Defined.

(** C10.  The keywords are tried in the order "complete", "failed",
    "pending", and the first that occurs decides.  Wherever the loop stands,
    a status that contains "complete" gives the answer [True], whatever else
    it contains; one without "complete" that contains "failed" gives
    [False] with "Transfer failed!", even if it contains "pending". *)
Theorem wait_first_keyword_decides (t : transfer) (m : Z) (w : world)
    (t' : transfer) (w' : world) (st : string) :
  reaches (deadline w m) t w t' w' ->
  clock w' < deadline w m ->
  observed (script t' (polls t')) = inr st ->
  let r := _wait_for_transfer t m w in
  (says "complete" st = true ->
     result r = Return (true, reloaded t' st) /\
     exists before,
       emitted r = (before ++ round_head st ++ [Print [Txt "Transfer completed!"]])%list) /\
  (says "complete" st = false -> says "failed" st = true ->
     result r = Return (false, reloaded t' st) /\
     exists before,
       emitted r = (before ++ round_head st ++ [Print [Txt "Transfer failed!"]])%list).
Proof.
  intros Hr Hc Hobs r.
  destruct (wait_reaches t m w t' w' Hr) as (evs & Heq & Hev & Hcount).
  subst r. rewrite Heq. split.
  - intros H1. rewrite (poll_round_complete _ t' w' st Hc Hobs H1).
    unfold conclude, after. simpl. split; [reflexivity|].
    exists (debug_lines t ++ evs)%list. rewrite <- app_assoc. reflexivity.
  - intros H1 H2. rewrite (poll_round_failed _ t' w' st Hc Hobs H1 H2).
    unfold conclude, after. simpl. split; [reflexivity|].
    exists (debug_lines t ++ evs)%list. rewrite <- app_assoc. reflexivity.
Qed.

Lemma wait_first_keyword_decides_witness :
  let st := "FAILED, then COMPLETE (pending)" in
  let t := scripted_transfer [] st in
  says "failed" st = true /\ says "pending" st = true /\
  result (_wait_for_transfer t 10 (sample_world [] ∅ [])) = Return (true, reloaded t st).
Proof.
  split; [reflexivity|]. split; [reflexivity|].
  apply (wait_first_keyword_decides
           (scripted_transfer [] "FAILED, then COMPLETE (pending)") 10 (sample_world [] ∅ [])
           (scripted_transfer [] "FAILED, then COMPLETE (pending)") (sample_world [] ∅ [])
           "FAILED, then COMPLETE (pending)");
    [constructor | reflexivity | reflexivity | reflexivity].
Defined.

(** ** Walking through a computation

    [walk tac] decomposes a goal [behaves E Q m] along the structure of [m];
    [tac] must prove [E ev] for each event [ev] that [m] can emit. *)

Ltac post_by_default :=
  lazymatch goal with
  | |- @behaves ?A _ ?Q _ => tryif is_evar Q then unify Q (fun _ : A => True) else idtac
  end.

Ltac by_rule R tac :=
  first [ eapply R; tac
        | eapply behaves_weaken; [ eapply R; tac | intros; exact I ] ].

Ltac walk tac :=
  lazymatch goal with
  | |- behaves _ _ (mret _) => post_by_default; apply behaves_ret; try exact I
  | |- behaves _ _ (print _) => by_rule behaves_print tac
  | |- behaves _ _ (emit _) => by_rule behaves_emit tac
  | |- behaves _ _ (input _) => by_rule behaves_input tac
  | |- behaves _ _ (sdk _ _) => by_rule @behaves_sdk tac
  | |- behaves _ _ (wallet_balances _) => unfold wallet_balances; walk tac
  | |- behaves _ _ (wallet_transfer _ _ _ _ _) => unfold wallet_transfer; walk tac
  | |- behaves _ _ (wallet_faucet _) => unfold wallet_faucet; walk tac
  | |- behaves _ _ (faucet_wait _) => unfold faucet_wait; walk tac
  | |- behaves _ _ (address_transfers _) => unfold address_transfers; walk tac
  | |- behaves _ _ (wallet_reload _) => by_rule behaves_wallet_reload tac
  | |- behaves _ _ Wallet_list_all => by_rule behaves_Wallet_list_all tac
  | |- behaves _ _ (read_wallet_file _) => by_rule behaves_read_wallet_file idtac
  | |- behaves _ _ (_wait_for_transfer _ _) =>
      by_rule behaves_wait ltac:(let ev := fresh "ev" in let H := fresh "H" in
                                 intros ev H; inversion H; subst; tac)
  | |- behaves _ _ (print_balances _ _) =>
      unfold print_balances;
      by_rule @behaves_for_each ltac:(let kv := fresh "kv" in intros kv; walk tac)
  | |- behaves _ _ (for_each _ _) =>
      by_rule @behaves_for_each ltac:(let x := fresh "x" in intros x; walk tac)
  | |- behaves _ _ (try_except _ _) =>
      post_by_default;
      apply behaves_try_except; [ walk tac | let e := fresh "e" in intros e; walk tac ]
  | |- behaves _ _ (try_except_FileNotFoundError _ _) =>
      post_by_default;
      apply behaves_try_except_FileNotFoundError; [ walk tac | walk tac ]
  | |- behaves _ _ (mbind _ _) =>
      post_by_default;
      eapply behaves_bind;
      [ walk tac | let a := fresh "a" in let Ha := fresh "Ha" in intros a Ha; walk tac ]
  | |- behaves _ _ (if ?b then _ else _) => destruct b eqn:?; walk tac
  | |- behaves _ _ (match ?x with _ => _ end) => destruct x eqn:?; walk tac
  | |- _ => idtac
  end.

Ltac not_a_submission :=
  let H := fresh "Hev" in
  intros (? & ? & ? & ? & ? & H); discriminate H.

Ltac not_submitted :=
  let Hs := fresh "Hs" in
  intros Hs; exfalso; revert Hs; not_a_submission.

(** ** [send_tokens]: the gasless flag *)

Ltac submits_as_asked_event :=
  let H := fresh "Hev" in
  intros ? ? ? ? ? H;
  first [ discriminate H
        | injection H as <- <- <- <- <-;
          repeat split; apply lower_eqb_caseless; reflexivity ].

Lemma send_tokens_submits_as_asked (self : manager) (from_address to_address : string)
    (quantity : float) (asset_id : string) :
  behaves (submits_as_asked quantity asset_id to_address) (fun _ => True)
          (send_tokens self from_address to_address quantity asset_id).
Proof.
  unfold send_tokens, send_tokens_error, send_from, check_balance, submit_and_follow,
    wallet_file_not_found, wallet_not_in_cdp.
  walk submits_as_asked_event.
Qed.

(** C7.  Whatever [send_tokens] submits to [wallet.transfer], for whatever
    asset text it was given: the gasless flag is [True] exactly when the
    asset is "usdc" up to the case of its letters, and the asset passed on
    is the given one in lower case. *)
Theorem send_tokens_gasless_iff_usdc (self : manager) (from_address to_address : string)
    (quantity : float) (asset_id : string) (w : world)
    (id : string) (amount : float) (asset destination : string) (gasless : bool) :
  In (Sdk (Wallet_transfer id amount asset destination gasless))
     (emitted (send_tokens self from_address to_address quantity asset_id w)) ->
  (gasless = true <-> caseless_eqb asset_id "usdc" = true) /\
  asset = lower asset_id.
Proof.
  intros Hin.
  destruct (send_tokens_submits_as_asked self from_address to_address quantity asset_id w)
    as [Hall _].
  rewrite List.Forall_forall in Hall.
  destruct (Hall _ Hin id amount asset destination gasless eq_refl) as (-> & -> & _).
  split; [tauto | reflexivity].
Qed.

Lemma send_tokens_gasless_iff_usdc_witness :
  let w := sample_world [sample_wallet (scripted_transfer [] "complete")] sample_disk ["yes"] in
  In (Sdk (Wallet_transfer "w-1" 0.5 "usdc" "0xB" true))
     (emitted (send_tokens sample_manager "0xA" "0xB" 0.5 "UsDc" w)) /\
  ((true = true <-> caseless_eqb "UsDc" "usdc" = true) /\ "usdc" = lower "UsDc").
Proof.
  assert (Hin : In (Sdk (Wallet_transfer "w-1" 0.5 "usdc" "0xB" true))
                   (emitted (send_tokens sample_manager "0xA" "0xB" 0.5 "UsDc"
                      (sample_world [sample_wallet (scripted_transfer [] "complete")]
                         sample_disk ["yes"])))).
  { vm_compute. repeat (first [left; reflexivity | right]). }
  split; [exact Hin|].
  exact (send_tokens_gasless_iff_usdc _ _ _ _ _ _ _ _ _ _ _ Hin).
Defined.

(** ** [send_tokens]: locating the wallet *)

Section Locating.

Variables (self : manager) (from_address to_address : string).
Variables (quantity : float) (asset_id : string) (w : world).

Lemma send_tokens_no_record :
  files w !! wallet_file_of self from_address = None ->
  send_tokens self from_address to_address quantity asset_id w =
  Run (Return tt) [wallet_file_not_found (wallet_file_of self from_address)] w.
Proof.
  intros H.
  unfold send_tokens, try_except, mbind, M_bind, bind, try_except_FileNotFoundError,
    read_wallet_file.
  rewrite H. reflexivity.
Qed.

Lemma send_tokens_listing_fails (wallet_info : wallet_data) (e : exn) :
  files w !! wallet_file_of self from_address = Some wallet_info ->
  remote_wallets w = inl e ->
  send_tokens self from_address to_address quantity asset_id w =
  Run (Return tt)
      [ Print [Nl; Txt "Locating wallet "; Txt from_address; Txt "..."];
        Sdk Wallet_list;
        Print [Txt "Error sending tokens: "; Txt (exn_str e)];
        Print [Traceback e] ] w.
Proof.
  intros H H'.
  unfold send_tokens, try_except, mbind, M_bind, bind, try_except_FileNotFoundError,
    read_wallet_file, Wallet_list_all, sdk.
  rewrite H. cbn. rewrite H'. reflexivity.
Qed.

Lemma send_tokens_unknown (wallet_info : wallet_data) (wallets : list wallet) :
  files w !! wallet_file_of self from_address = Some wallet_info ->
  remote_wallets w = inr wallets ->
  find_wallet from_address wallets = None ->
  send_tokens self from_address to_address quantity asset_id w =
  Run (Return tt)
      [ Print [Nl; Txt "Locating wallet "; Txt from_address; Txt "..."];
        Sdk Wallet_list;
        wallet_not_in_cdp from_address ] w.
Proof.
  intros H H' H''.
  unfold send_tokens, try_except, mbind, M_bind, bind, try_except_FileNotFoundError,
    read_wallet_file, Wallet_list_all, sdk.
  rewrite H. cbn. rewrite H'. cbn. rewrite H''. reflexivity.
Qed.

Lemma send_tokens_found (wallet_info : wallet_data) (wallets : list wallet)
    (target_wallet : wallet) :
  files w !! wallet_file_of self from_address = Some wallet_info ->
  remote_wallets w = inr wallets ->
  find_wallet from_address wallets = Some target_wallet ->
  send_tokens self from_address to_address quantity asset_id w =
  after [ Print [Nl; Txt "Locating wallet "; Txt from_address; Txt "..."];
          Sdk Wallet_list ]
        (try_except
           (send_from wallet_info target_wallet from_address to_address quantity asset_id)
           send_tokens_error w).
Proof.
  intros H H' H''.
  unfold send_tokens, try_except, mbind, M_bind, bind, try_except_FileNotFoundError,
    read_wallet_file, Wallet_list_all, sdk.
  rewrite H. cbn. rewrite H'. cbn. rewrite H''.
  destruct (result (send_from wallet_info target_wallet from_address to_address
                      quantity asset_id w)); reflexivity.
Qed.

End Locating.

Ltac other_event :=
  let H := fresh "Hev" in
  intros H; first [ discriminate H | simpl in H; discriminate H ].

Lemma send_from_never_says_not_in_cdp (wallet_info : wallet_data) (target_wallet : wallet)
    (from_address to_address : string) (quantity : float) (asset_id : string) :
  behaves (fun ev => ev <> wallet_not_in_cdp from_address) (fun _ => True)
          (try_except
             (send_from wallet_info target_wallet from_address to_address quantity asset_id)
             send_tokens_error).
Proof.
  unfold send_tokens_error, send_from, check_balance, submit_and_follow, wallet_not_in_cdp.
  walk other_event.
Qed.

(** C5, as the code has it.  [send_tokens] prints "Wallet ... not found in
    CDP" exactly when a wallet record file exists for the address and the
    listing of the remote service has no wallet with that address.  Without
    a record file it prints "Wallet file not found" and stops there: the
    remote service is not asked. *)
Theorem send_tokens_wallet_not_found (self : manager) (from_address to_address : string)
    (quantity : float) (asset_id : string) (w : world) :
  let r := send_tokens self from_address to_address quantity asset_id w in
  (In (wallet_not_in_cdp from_address) (emitted r) <->
   has_record self from_address w /\ unknown_to_remote from_address w) /\
  (~ has_record self from_address w ->
   r = Run (Return tt) [wallet_file_not_found (wallet_file_of self from_address)] w).
Proof.
  intros r. subst r. unfold has_record, unknown_to_remote.
  destruct (files w !! wallet_file_of self from_address) as [info|] eqn:Hfile.
  2:{ rewrite (send_tokens_no_record _ _ _ _ _ _ Hfile). split; [|reflexivity].
      split.
      - intros [H|[]]. discriminate H.
      - intros [[x Hx] _]. discriminate Hx. }
  split; [|intros Hno; exfalso; apply Hno; eexists; reflexivity].
  destruct (remote_wallets w) as [e|wallets] eqn:Hlist.
  { rewrite (send_tokens_listing_fails _ _ _ _ _ _ info e Hfile Hlist). split.
    - intros H. simpl in H. unfold wallet_not_in_cdp in H.
      repeat (destruct H as [H|H]; [discriminate H|]). destruct H.
    - intros [_ (ws & Hws & _)]. discriminate Hws. }
  destruct (find_wallet from_address wallets) as [target_wallet|] eqn:Hfind.
  - rewrite (send_tokens_found _ _ _ _ _ _ info wallets target_wallet Hfile Hlist Hfind).
    split.
    + intros H. exfalso. unfold after in H. cbn [emitted] in H.
      destruct (send_from_never_says_not_in_cdp info target_wallet from_address
                  to_address quantity asset_id w) as [Hall _].
      rewrite List.Forall_forall in Hall.
      destruct H as [H|[H|H]]; [discriminate H | discriminate H |].
      exact (Hall _ H eq_refl).
    + intros [_ (ws & Hws & Hnone)]. injection Hws as <-. congruence.
  - rewrite (send_tokens_unknown _ _ _ _ _ _ info wallets Hfile Hlist Hfind). split.
    + intros _. split; [eexists; reflexivity | exists wallets; split; reflexivity || assumption].
    + intros _. simpl. right. right. left. reflexivity.
Qed.

(** C5, as the spec states it, fails: without a record file the outcome
    does not depend on the remote service at all.  For an address that the
    remote service does not know, and for one that it knows, the run is the
    single line "Wallet file not found": the first never gets the "not
    found in CDP" report, the second fails although the address is known. *)
Lemma send_tokens_not_found_depends_on_record :
  let known := sample_wallet (scripted_transfer [] "complete") in
  let w1 := sample_world [] ∅ ["yes"] in
  let w2 := sample_world [known] ∅ ["yes"] in
  let run w := send_tokens sample_manager "0xA" "0xB" 0.5 "usdc" w in
  (unknown_to_remote "0xA" w1 /\
   run w1 = Run (Return tt) [wallet_file_not_found "./wallets/0xA.txt"] w1) /\
  (find_wallet "0xA" [known] = Some known /\
   run w2 = Run (Return tt) [wallet_file_not_found "./wallets/0xA.txt"] w2) /\
  ~ (In (wallet_not_in_cdp "0xA") (emitted (run w1)) <-> unknown_to_remote "0xA" w1).
Proof.
  assert (H1 : unknown_to_remote "0xA" (sample_world [] ∅ ["yes"])).
  { exists []. split; reflexivity. }
  assert (E1 : send_tokens sample_manager "0xA" "0xB" 0.5 "usdc" (sample_world [] ∅ ["yes"])
               = Run (Return tt) [wallet_file_not_found "./wallets/0xA.txt"]
                     (sample_world [] ∅ ["yes"])).
  { apply send_tokens_no_record. reflexivity. }
  split; [split; [exact H1 | exact E1]|].
  split; [split; [reflexivity | apply send_tokens_no_record; reflexivity]|].
  cbv zeta. rewrite E1. intros [_ Hback].
  destruct (Hback H1) as [H|[]]. discriminate H.
Qed.

(** ** [send_tokens]: the balance guard *)

Lemma SFcompare_not_lt_le (a b : spec_float) :
  SFeqb a a = true -> SFeqb b b = true -> SFltb b a = false -> SFleb a b = true.
Proof.
  unfold SFeqb, SFltb, SFleb.
  destruct a as [sa|sa| |sa ma ea], b as [sb|sb| |sb mb eb]; simpl;
    try discriminate; try reflexivity;
    try (destruct sa; simpl; congruence);
    try (destruct sb; simpl; congruence);
    try (destruct sa, sb; simpl; congruence).
  intros _ _.
  pose proof (Z.compare_antisym ea eb) as Hz.
  pose proof (Pos.compare_cont_antisym mb ma Eq) as Hp. simpl in Hp.
  destruct sa, sb; try congruence;
    destruct (ea ?= eb)%Z, (eb ?= ea)%Z; simpl in Hz; try discriminate Hz;
    try congruence;
    destruct (Pos.compare_cont Eq ma mb), (Pos.compare_cont Eq mb ma);
    simpl in Hp; try discriminate Hp; simpl; congruence.
Qed.

(** On numbers, "not [b < q]" is "[q <= b]". *)
Lemma float_not_lt_le (q b : float) :
  is_number q -> is_number b -> (b <? q)%float = false -> (q <=? b)%float = true.
Proof.
  unfold is_number, is_nan. intros Hq Hb.
  apply negb_false_iff in Hq, Hb.
  rewrite FloatAxioms.eqb_spec in Hq, Hb.
  rewrite FloatAxioms.ltb_spec, FloatAxioms.leb_spec.
  apply SFcompare_not_lt_le; assumption.
Qed.

Lemma print_balances_run (lead : list frag) (balances : balances_t) (w : world) :
  print_balances lead balances w = Run (Return tt) (balance_lines lead balances) w.
Proof.
  unfold print_balances, balance_lines.
  induction balances as [|kv l IH]; [reflexivity|].
  simpl. unfold mbind, M_bind, bind. simpl. rewrite IH. reflexivity.
Qed.

Lemma check_balance_guard (E : event -> Prop) (wl : wallet) (quantity : float)
    (asset_id : string) :
  (forall ev, ~ is_submission ev -> E ev) ->
  behaves E
    (fun ok => ok = true ->
       exists balances,
         balances_result (wallet_now wl) = inr balances /\
         (guarded_balance asset_id balances <? quantity)%float = false)
    (check_balance wl quantity asset_id).
Proof.
  intros HE. unfold check_balance. apply behaves_try_except.
  - eapply behaves_bind;
      [ unfold wallet_balances; apply behaves_sdk; apply HE; not_a_submission
      | intros balances Hbal ].
    eapply behaves_bind; [ walk ltac:(apply HE; not_a_submission) | intros _ _ ].
    eapply behaves_bind; [ walk ltac:(apply HE; not_a_submission) | intros _ _ ].
    cbv zeta. fold (guarded_balance asset_id balances).
    destruct (guarded_balance asset_id balances <? quantity)%float eqn:Hlt.
    + walk ltac:(apply HE; not_a_submission). discriminate.
    + apply behaves_ret. intros _. exists balances. split; assumption.
  - intros e. walk ltac:(apply HE; not_a_submission). discriminate.
Qed.

Section Guard.

Variables (wallet_info : wallet_data) (wl : wallet).
Variables (from_address to_address : string) (quantity : float) (asset_id : string).

Lemma send_from_insufficient (balances : balances_t) (w : world) :
  reload_error wl (reloads wl) = None ->
  balances_result (wallet_now (wallet_reloaded wl)) = inr balances ->
  (guarded_balance asset_id balances <? quantity)%float = true ->
  send_from wallet_info wl from_address to_address quantity asset_id w =
  Run (Return tt)
      (reload_and_announce wl ++ balance_lines [] balances
       ++ insufficient_balance_report quantity (guarded_balance asset_id balances) (lower asset_id))
      w.
Proof.
  unfold guarded_balance, wallet_now, wallet_reloaded. simpl. intros Hre Hbal Hlt.
  unfold send_from, check_balance, mbind, M_bind, bind, try_except, wallet_reload,
    wallet_balances, sdk, wallet_now.
  rewrite Hre. cbn. rewrite Hbal. cbn. rewrite print_balances_run. cbn.
  rewrite Hlt. cbn. unfold reload_and_announce, wallet_now, wallet_reloaded. cbn.
  unfold after, insufficient_balance_report, mret, M_ret, ret. cbn.
  rewrite ?app_nil_r. reflexivity.
Qed.

(** A submission by [send_from] has passed the guard. *)
Lemma send_from_submits_guarded :
  behaves
    (fun ev => is_submission ev ->
       exists balances,
         reload_error wl (reloads wl) = None /\
         balances_result (wallet_now (wallet_reloaded wl)) = inr balances /\
         (guarded_balance asset_id balances <? quantity)%float = false)
    (fun _ => True)
    (try_except (send_from wallet_info wl from_address to_address quantity asset_id)
                send_tokens_error).
Proof.
  unfold send_from, send_tokens_error, submit_and_follow.
  apply behaves_try_except; [| intros e; walk not_submitted ].
  eapply behaves_bind; [ walk not_submitted | intros wl' [-> Hre] ].
  eapply behaves_bind; [ walk not_submitted | intros _ _ ].
  eapply behaves_bind; [ walk not_submitted | intros _ _ ].
  eapply behaves_bind; [ walk not_submitted | intros _ _ ].
  eapply behaves_bind;
    [ apply check_balance_guard; intros ev Hev Hs; contradiction | intros ok Hok ].
  destruct ok; simpl negb; cbv iota; [| apply behaves_ret; exact I].
  destruct (Hok eq_refl) as (balances & Hbal & Hlt).
  walk ltac:(first [ not_submitted | intros _; exists balances; repeat split; assumption ]).
Qed.

End Guard.

Section GuardOfSendTokens.

Variables (self : manager) (from_address to_address : string).
Variables (quantity : float) (asset_id : string) (w : world).

(** Whatever [send_tokens] submits, it found the record file and the
    wallet, reloaded it, read its balances, and did not find the balance of
    the asset lower than the quantity. *)
Lemma send_tokens_submits_after_guard :
  Exists is_submission
         (emitted (send_tokens self from_address to_address quantity asset_id w)) ->
  exists wallet_info wallets wl balances,
    files w !! wallet_file_of self from_address = Some wallet_info /\
    remote_wallets w = inr wallets /\
    find_wallet from_address wallets = Some wl /\
    reload_error wl (reloads wl) = None /\
    balances_result (wallet_now (wallet_reloaded wl)) = inr balances /\
    (guarded_balance asset_id balances <? quantity)%float = false.
Proof.
  rewrite List.Exists_exists. intros (ev & Hin & Hs).
  destruct (files w !! wallet_file_of self from_address) as [info|] eqn:Hfile.
  2:{ rewrite (send_tokens_no_record _ _ _ _ _ _ Hfile) in Hin.
      destruct Hin as [<-|[]]. revert Hs. not_a_submission. }
  destruct (remote_wallets w) as [e|wallets] eqn:Hlist.
  { rewrite (send_tokens_listing_fails _ _ _ _ _ _ info e Hfile Hlist) in Hin.
    simpl in Hin. exfalso.
    repeat (destruct Hin as [<-|Hin]; [revert Hs; not_a_submission|]). destruct Hin. }
  destruct (find_wallet from_address wallets) as [wl|] eqn:Hfind.
  2:{ rewrite (send_tokens_unknown _ _ _ _ _ _ info wallets Hfile Hlist Hfind) in Hin.
      simpl in Hin. exfalso.
      repeat (destruct Hin as [<-|Hin]; [revert Hs; not_a_submission|]). destruct Hin. }
  rewrite (send_tokens_found _ _ _ _ _ _ info wallets wl Hfile Hlist Hfind) in Hin.
  unfold after in Hin. cbn [emitted] in Hin.
  destruct Hin as [<-|[<-|Hin]]; [exfalso; revert Hs; not_a_submission
                                 | exfalso; revert Hs; not_a_submission |].
  destruct (send_from_submits_guarded info wl from_address to_address quantity asset_id w)
    as [Hall _].
  rewrite List.Forall_forall in Hall.
  destruct (Hall _ Hin Hs) as (balances & Hre & Hbal & Hlt).
  exists info, wallets, wl, balances. repeat split; assumption.
Qed.

(** X10.  With a balance lower than the quantity, [send_tokens] reports it,
    with the quantity as "Required" and the balance as "Available", and
    submits nothing. *)
Lemma send_tokens_insufficient (wallet_info : wallet_data) (wallets : list wallet)
    (wl : wallet) (balances : balances_t) :
  files w !! wallet_file_of self from_address = Some wallet_info ->
  remote_wallets w = inr wallets ->
  find_wallet from_address wallets = Some wl ->
  reload_error wl (reloads wl) = None ->
  balances_result (wallet_now (wallet_reloaded wl)) = inr balances ->
  (guarded_balance asset_id balances <? quantity)%float = true ->
  let r := send_tokens self from_address to_address quantity asset_id w in
  result r = Return tt /\
  (exists before,
     emitted r = (before ++ insufficient_balance_report quantity
                    (guarded_balance asset_id balances) (lower asset_id))%list) /\
  ~ Exists is_submission (emitted r).
Proof.
  intros Hfile Hlist Hfind Hre Hbal Hlt r.
  assert (Hr : r = Run (Return tt)
                 ([ Print [Nl; Txt "Locating wallet "; Txt from_address; Txt "..."];
                    Sdk Wallet_list ]
                  ++ reload_and_announce wl ++ balance_lines [] balances
                  ++ insufficient_balance_report quantity
                       (guarded_balance asset_id balances) (lower asset_id)) w).
  { subst r. rewrite (send_tokens_found _ _ _ _ _ _ wallet_info wallets wl Hfile Hlist Hfind).
    unfold try_except.
    rewrite (send_from_insufficient wallet_info wl from_address to_address quantity
               asset_id balances w Hre Hbal Hlt).
    reflexivity. }
  split; [rewrite Hr; reflexivity|]. split.
  - rewrite Hr. cbn [emitted]. eexists. rewrite !app_assoc. reflexivity.
  - intros Hex. destruct (send_tokens_submits_after_guard Hex)
      as (i' & ws' & wl' & b' & Hf' & Hl' & Hfi' & _ & Hb' & Hlt').
    rewrite Hlist in Hl'. injection Hl' as <-.
    rewrite Hfind in Hfi'. injection Hfi' as <-.
    rewrite Hbal in Hb'. injection Hb' as <-. congruence.
Qed.

(** X11.  For a quantity and a balance that are numbers, a submission
    means that the quantity is at most the balance. *)
Lemma send_tokens_submits_within_balance :
  is_number quantity ->
  Exists is_submission
         (emitted (send_tokens self from_address to_address quantity asset_id w)) ->
  exists wallets wl balances,
    remote_wallets w = inr wallets /\
    find_wallet from_address wallets = Some wl /\
    balances_result (wallet_now (wallet_reloaded wl)) = inr balances /\
    (is_number (guarded_balance asset_id balances) ->
     (quantity <=? guarded_balance asset_id balances)%float = true).
Proof.
  intros Hq Hex.
  destruct (send_tokens_submits_after_guard Hex)
    as (info & wallets & wl & balances & _ & Hlist & Hfind & _ & Hbal & Hlt).
  exists wallets, wl, balances. repeat split; try assumption.
  intros Hb. apply float_not_lt_le; assumption.
Qed.

End GuardOfSendTokens.

(** ** [_wait_for_transfer]: what the answer tells *)

(** How the loop can end, read off its last event. *)
Lemma poll_outcome (timeout : Z) (t : transfer) (w : world) :
  match result (poll timeout t w) with
  | Return (Some true, t') =>
      says "complete" (status t') = true /\
      exists before,
        emitted (poll timeout t w) = (before ++ [Print [Txt "Transfer completed!"]])%list
  | Return (Some false, t') =>
      (says "failed" (status t') = true /\
       exists before,
         emitted (poll timeout t w) = (before ++ [Print [Txt "Transfer failed!"]])%list)
      \/
      (says "complete" (status t') = false /\ says "failed" (status t') = false /\
       says "pending" (status t') = false /\
       exists before,
         emitted (poll timeout t w)
         = (before ++ [Print [Txt "Unexpected status: "; Txt (status t')]])%list)
  | Return (None, t') =>
      timeout <= clock (final (poll timeout t w)) /\
      reaches timeout t w t' (final (poll timeout t w))
  | Raise _ => True
  | SysExit _ => False
  end.
Proof.
  revert t w.
  apply (poll_rounds_ind timeout (fun t w =>
    match result (poll timeout t w) with
    | Return (Some true, t') =>
        says "complete" (status t') = true /\
        exists before,
          emitted (poll timeout t w) = (before ++ [Print [Txt "Transfer completed!"]])%list
    | Return (Some false, t') =>
        (says "failed" (status t') = true /\
         exists before,
           emitted (poll timeout t w) = (before ++ [Print [Txt "Transfer failed!"]])%list)
        \/
        (says "complete" (status t') = false /\ says "failed" (status t') = false /\
         says "pending" (status t') = false /\
         exists before,
           emitted (poll timeout t w)
           = (before ++ [Print [Txt "Unexpected status: "; Txt (status t')]])%list)
    | Return (None, t') =>
        timeout <= clock (final (poll timeout t w)) /\
        reaches timeout t w t' (final (poll timeout t w))
    | Raise _ => True
    | SysExit _ => False
    end)); intros t w Hc.
  - rewrite (poll_expired timeout t w Hc). simpl. split; [exact Hc | constructor].
  - intros IH. destruct (observed (script t (polls t))) as [e|st] eqn:Hobs.
    { rewrite (poll_round_raises timeout t w e Hc Hobs). exact I. }
    specialize (IH st eq_refl).
    rewrite (poll_round timeout t w st Hc Hobs).
    destruct (says "complete" st) eqn:H1.
    { cbn [after result emitted final]. split; [exact H1|].
      exists (round_head st). reflexivity. }
    destruct (says "failed" st) eqn:H2.
    { cbn [after result emitted final]. left. split; [exact H2|].
      exists (round_head st). reflexivity. }
    destruct (says "pending" st) eqn:H3.
    2:{ cbn [after result emitted final]. right. repeat split; try assumption.
        exists (round_head st). reflexivity. }
    rewrite after_after. unfold after. cbn [result emitted final].
    destruct (result (poll timeout (reloaded t st) (next_round t w)))
      as [[[[|]|] t']|e|c]; try exact IH.
    + destruct IH as [Hs (before & ->)]. split; [exact Hs|].
      eexists. rewrite app_assoc. reflexivity.
    + destruct IH as [[Hs (before & ->)] | (Ha & Hb & Hd & before & ->)].
      * left. split; [exact Hs|]. eexists. rewrite app_assoc. reflexivity.
      * right. repeat split; try assumption. eexists. rewrite app_assoc. reflexivity.
    + destruct IH as [Hd Hr]. split; [exact Hd|].
      eapply reaches_round; eauto. repeat split; assumption.
Qed.

Lemma bind_run {A B} (m : M A) (k : A -> M B) (w : world)
    (a : A) (evs : list event) (w' : world) :
  m w = Run (Return a) evs w' -> (m ≫= k) w = after evs (k a w').
Proof. unfold mbind, M_bind, bind. intros ->. reflexivity. Qed.

(** What [submit_and_follow] does after an answer [False]: the same report,
    whatever made the answer [False]. *)
Lemma submit_and_follow_not_completed (wl : wallet) (to_address : string)
    (quantity : float) (asset_id : string) (w : world)
    (tr t' : transfer) (evs : list event) (w' : world) :
  transfer_result wl quantity asset_id to_address (String.eqb asset_id "usdc") = inr tr ->
  _wait_for_transfer tr default_timeout_minutes w = Run (Return (false, t')) evs w' ->
  submit_and_follow wl to_address quantity asset_id w =
  Run (Return tt)
      ([ Print [Nl; Txt "Preparing transaction..."];
         Print [Txt "Creating transfer..."];
         Sdk (Wallet_transfer (wallet_id wl) quantity asset_id to_address
                (String.eqb asset_id "usdc"));
         Print [Txt "Transfer created with status: "; Txt (status tr)] ]
       ++ evs ++ not_completed_report t')
      w'.
Proof.
  intros Htr Hwait.
  unfold submit_and_follow.
  erewrite bind_run by reflexivity. cbv zeta.
  erewrite bind_run by reflexivity.
  erewrite bind_run by (unfold wallet_transfer, sdk; rewrite Htr; reflexivity).
  erewrite bind_run by reflexivity.
  erewrite bind_run by exact Hwait. cbv beta iota.
  erewrite bind_run by reflexivity.
  unfold not_completed_report, after. destruct (error t'); reflexivity.
Qed.

(** C4, as the code has it.  [_wait_for_transfer] has one answer, [False],
    for three ends: the deadline passed while the transfer stayed pending, a
    status with "failed" was observed, a status with none of the keywords
    was observed.  They differ by the last console line of the function
    only; after the answer [False] the caller prints "Transfer failed or
    timed out!" in each case. *)
Theorem wait_false_means_failed_or_timed_out (t : transfer) (m : Z) (w : world) :
  let r := _wait_for_transfer t m w in
  (forall t', result r = Return (false, t') ->
     (deadline w m <= clock (final r) /\ reaches (deadline w m) t w t' (final r) /\
      exists before, emitted r = (before ++ [timed_out_line m])%list)
     \/
     (says "failed" (status t') = true /\
      exists before, emitted r = (before ++ [Print [Txt "Transfer failed!"]])%list)
     \/
     (says "complete" (status t') = false /\ says "failed" (status t') = false /\
      says "pending" (status t') = false /\
      exists before,
        emitted r = (before ++ [Print [Txt "Unexpected status: "; Txt (status t')]])%list))
  /\
  (forall t', result r = Return (true, t') ->
     says "complete" (status t') = true /\
     exists before, emitted r = (before ++ [Print [Txt "Transfer completed!"]])%list)
  /\
  (forall wl to_address quantity asset_id t',
     m = default_timeout_minutes ->
     transfer_result wl quantity asset_id to_address (String.eqb asset_id "usdc") = inr t ->
     result r = Return (false, t') ->
     exists before,
       emitted (submit_and_follow wl to_address quantity asset_id w)
       = (before ++ emitted r ++ not_completed_report t')%list).
Proof.
  intros r. subst r. unfold _wait_for_transfer.
  pose proof (poll_outcome (deadline w m) t w) as Hp.
  assert (Hshape : forall b t',
            result (after (debug_lines t) (conclude m (poll (deadline w m) t w)))
            = Return (b, t') ->
            result (poll (deadline w m) t w) = Return (Some b, t') \/
            (b = false /\ result (poll (deadline w m) t w) = Return (None, t'))).
  { intros b t'. unfold after, conclude. cbn [result].
    destruct (result (poll (deadline w m) t w)) as [[[b0|] t0]|e|c]; cbn [result];
      intros H; try discriminate H; injection H as <- <-; auto. }
  split; [|split].
  - intros t' Hres. destruct (Hshape _ _ Hres) as [Hq|[_ Hq]]; rewrite Hq in Hp.
    + right. unfold after, conclude. rewrite Hq. cbn [emitted].
      destruct Hp as [[Hs (before & ->)] | (Ha & Hb & Hd & before & ->)].
      * left. split; [exact Hs|]. eexists. rewrite app_assoc. reflexivity.
      * right. repeat split; try assumption. eexists. rewrite app_assoc. reflexivity.
    + left. unfold after, conclude. rewrite Hq. cbn [emitted final].
      destruct Hp as [Hd Hr]. repeat split; try assumption.
      eexists. rewrite app_assoc. reflexivity.
  - intros t' Hres. destruct (Hshape _ _ Hres) as [Hq|[Hb _]]; [|discriminate Hb].
    rewrite Hq in Hp. unfold after, conclude. rewrite Hq. cbn [emitted].
    destruct Hp as [Hs (before & ->)]. split; [exact Hs|].
    eexists. rewrite app_assoc. reflexivity.
  - intros wl to_address quantity asset_id t' -> Htr Hres.
    eexists.
    rewrite (submit_and_follow_not_completed wl to_address quantity asset_id w t t'
               (emitted (_wait_for_transfer t default_timeout_minutes w))
               (final (_wait_for_transfer t default_timeout_minutes w)) Htr).
    + cbn [emitted]. reflexivity.
    + unfold _wait_for_transfer in *.
      destruct (after (debug_lines t) _) as [res ev fw]. cbn in Hres. subst res.
      reflexivity.
Qed.

(** C4, as the spec states it, fails: the caller cannot tell a timeout from
    a failure by what [_wait_for_transfer] hands back.  A transfer that
    stays pending for the ten minutes and one that fails at once both give
    the answer [False], and [send_tokens] ends on the same line for both;
    only the last line printed inside [_wait_for_transfer] differs. *)
Lemma wait_answers_timeout_and_failure_alike :
  let w := sample_world [] ∅ [] in
  let stays_pending := scripted_transfer [] "pending" in
  let fails := scripted_transfer [] "failed" in
  let send tr :=
    send_tokens sample_manager "0xA" "0xB" 0.5 "usdc"
                (sample_world [sample_wallet tr] sample_disk ["yes"]) in
  (List.last (emitted (_wait_for_transfer stays_pending 10 w)) PrintDot = timed_out_line 10 /\
   List.last (emitted (_wait_for_transfer fails 10 w)) PrintDot
     = Print [Txt "Transfer failed!"]) /\
  (answered (_wait_for_transfer stays_pending 10 w) = Some false /\
   answered (_wait_for_transfer fails 10 w) = Some false) /\
  (List.last (emitted (send stays_pending)) PrintDot
     = Print [Nl; Txt "Transfer failed or timed out!"] /\
   List.last (emitted (send fails)) PrintDot
     = Print [Nl; Txt "Transfer failed or timed out!"]) /\
  ~ (answered (_wait_for_transfer stays_pending 10 w)
     <> answered (_wait_for_transfer fails 10 w)).
Proof.
  cbv zeta.
  assert (H1 : answered (_wait_for_transfer (scripted_transfer [] "pending") 10
                           (sample_world [] ∅ [])) = Some false)
    by (vm_compute; reflexivity).
  assert (H2 : answered (_wait_for_transfer (scripted_transfer [] "failed") 10
                           (sample_world [] ∅ [])) = Some false)
    by (vm_compute; reflexivity).
  repeat split; try assumption; try (vm_compute; reflexivity).
  rewrite H1, H2. intros H. apply H. reflexivity.
Qed.

(** ** [create_wallet] *)

Lemma try_except_returns {A} (m : M A) (h : exn -> M A) (w : world)
    (a : A) (evs : list event) (w' : world) :
  m w = Run (Return a) evs w' -> try_except m h w = Run (Return a) evs w'.
Proof. unfold try_except. intros ->. reflexivity. Qed.

Lemma try_except_raises {A} (m : M A) (h : exn -> M A) (w : world)
    (e : exn) (evs : list event) (w' : world) :
  m w = Run (Raise e) evs w' -> try_except m h w = after evs (h e w').
Proof. unfold try_except. intros ->. reflexivity. Qed.

Lemma bind_raises {A B} (m : M A) (k : A -> M B) (w : world)
    (e : exn) (evs : list event) (w' : world) :
  m w = Run (Raise e) evs w' -> (m ≫= k) w = Run (Raise e) evs w'.
Proof. unfold mbind, M_bind, bind. intros ->. reflexivity. Qed.

(** The funding attempt asks the faucet, and returns whatever happens. *)
Lemma fund_wallet_run (wl : wallet) (w : world) :
  exists rest,
    fund_wallet wl w =
    Run (Return tt)
        (Print [Nl; Txt "Attempting to fund wallet with testnet ETH..."]
         :: Sdk (Wallet_faucet (wallet_id wl)) :: rest) w.
Proof.
  unfold fund_wallet. erewrite bind_run by reflexivity.
  destruct (faucet_result wl) as [e|tx] eqn:Hf.
  { erewrite try_except_raises
      by (apply bind_raises; unfold wallet_faucet, sdk; rewrite Hf; reflexivity).
    eexists. reflexivity. }
  destruct (wait_error tx) as [e|] eqn:Hw.
  { erewrite try_except_raises.
    2:{ erewrite bind_run by (unfold wallet_faucet, sdk; rewrite Hf; reflexivity).
        erewrite bind_raises by (unfold faucet_wait, sdk; rewrite Hw; reflexivity).
        reflexivity. }
    eexists. reflexivity. }
  destruct (balances_result (wallet_now wl)) as [e|balances] eqn:Hb.
  { erewrite try_except_raises.
    2:{ erewrite bind_run by (unfold wallet_faucet, sdk; rewrite Hf; reflexivity).
        erewrite bind_run by (unfold faucet_wait, sdk; rewrite Hw; reflexivity).
        erewrite bind_run by reflexivity.
        erewrite bind_run by reflexivity.
        erewrite bind_raises by (unfold wallet_balances, sdk; rewrite Hb; reflexivity).
        reflexivity. }
    eexists. reflexivity. }
  erewrite try_except_returns.
  2:{ erewrite bind_run by (unfold wallet_faucet, sdk; rewrite Hf; reflexivity).
      erewrite bind_run by (unfold faucet_wait, sdk; rewrite Hw; reflexivity).
      erewrite bind_run by reflexivity.
      erewrite bind_run by reflexivity.
      erewrite bind_run by (unfold wallet_balances, sdk; rewrite Hb; reflexivity).
      rewrite print_balances_run. reflexivity. }
  eexists. reflexivity.
Qed.

(** C8.  When [Wallet.create] answers with a wallet, [create_wallet]
    returns normally and has saved the record, whatever the faucet, its
    [wait] or the balances do; it asks the faucet exactly when the
    configured network is "base-sepolia".  When [Wallet.create] raises, the
    function ends the process with [sys.exit(1)], the faucet not asked. *)
Theorem create_wallet_funding (self : manager) (w : world) :
  let r := create_wallet self w in
  match remote_create w (network self) with
  | inr wl =>
      result r = Return tt /\
      files (final r) !! wallet_file_of self (address_id wl) = Some (record_of self wl) /\
      (Exists is_funding (emitted r) <-> network self = "base-sepolia") /\
      (network self = "base-sepolia" -> In (Sdk (Wallet_faucet (wallet_id wl))) (emitted r))
  | inl e =>
      r = Run (SysExit 1)
              [ Sdk (Wallet_create (network self));
                Print [Txt "Error creating wallet: "; Txt (exn_str e)];
                Print [Traceback e] ] w
  end.
Proof.
  intros r. subst r. unfold create_wallet.
  destruct (remote_create w (network self)) as [e|wl] eqn:Hc.
  { erewrite try_except_raises
      by (apply bind_raises; unfold Wallet_create_on, sdk; rewrite Hc; reflexivity).
    reflexivity. }
  set (w' := set_files (<[wallet_file_of self (address_id wl) := record_of self wl]> (files w)) w).
  assert (Hsaved : files w' !! wallet_file_of self (address_id wl) = Some (record_of self wl))
    by (subst w'; simpl; apply lookup_insert_eq).
  destruct (String.eqb_spec (network self) testnet) as [Hnet|Hnet].
  - destruct (fund_wallet_run wl w') as [rest Hfund].
    erewrite try_except_returns.
    2:{ erewrite bind_run by (unfold Wallet_create_on, sdk; rewrite Hc; reflexivity).
        cbv zeta. erewrite bind_run by reflexivity. fold w'.
        do 7 (erewrite bind_run by reflexivity).
        rewrite Hfund. reflexivity. }
    cbn [result emitted final after].
    split; [reflexivity|]. split; [exact Hsaved|]. split; [split|].
    + intros _. exact Hnet.
    + intros _. rewrite List.Exists_exists. eexists. split; [|eexists; reflexivity].
      simpl. do 9 right. left. reflexivity.
    + intros _. simpl. do 9 right. left. reflexivity.
  - erewrite try_except_returns.
    2:{ erewrite bind_run by (unfold Wallet_create_on, sdk; rewrite Hc; reflexivity).
        cbv zeta. erewrite bind_run by reflexivity. fold w'.
        do 7 (erewrite bind_run by reflexivity).
        reflexivity. }
    cbn [result emitted final after].
    split; [reflexivity|]. split; [exact Hsaved|]. split; [split|]; try contradiction.
    intros Hex. exfalso. rewrite List.Exists_exists in Hex.
    destruct Hex as (ev & Hin & id & ->). simpl in Hin.
    repeat (destruct Hin as [Hin|Hin]; [discriminate Hin|]). destruct Hin.
Qed.

(** ** [main] *)

Section Dispatch.

Variable builtin_float : string -> exn + float.





(** X22.  The text of the quantity goes to [float] unguarded: when [float]
    raises on the third argument of a [send] with four arguments, the
    exception leaves [main] right after the start-up, before [send_tokens]
    is called: nothing but the lines of the start-up is printed. *)
Lemma main_send_malformed_quantity (argv : list string) (w : world) (mgr : manager)
    (e : exn) :
  length argv = 6%nat -> command_of argv = "send" ->
  result (WalletManager_init w) = Return mgr ->
  builtin_float (argv_at argv 4) = inl e ->
  main builtin_float argv w =
  Run (Raise e) (emitted (WalletManager_init w)) (final (WalletManager_init w)).
Proof.
  intros Hlen Hcmd Hinit Hfloat. unfold main.
  rewrite (proj2 (Nat.ltb_ge (length argv) 2) ltac:(lia)).
  unfold mbind at 1. unfold M_bind, bind. rewrite Hinit.
  fold (command_of argv). rewrite Hcmd, Hlen. cbn [String.eqb Ascii.eqb Bool.eqb andb Nat.eqb].
  unfold mbind, M_bind, bind, float_of_str. rewrite Hfloat.
  unfold after. cbn [result emitted final]. rewrite app_nil_r. reflexivity.
Qed.

(** [send] with four arguments, the third of which [float] can read. *)
Lemma main_send (argv : list string) (w : world) (mgr : manager) (quantity : float)
    (evs : list event) (w' : world) :
  length argv = 6%nat -> command_of argv = "send" ->
  WalletManager_init w = Run (Return mgr) evs w' ->
  builtin_float (argv_at argv 4) = inr quantity ->
  main builtin_float argv w =
  after evs (send_tokens mgr (argv_at argv 2) (argv_at argv 3) quantity (argv_at argv 5) w').
Proof.
  intros Hlen Hcmd Hinit Hfloat. unfold main.
  rewrite (proj2 (Nat.ltb_ge (length argv) 2) ltac:(lia)).
  erewrite bind_run by exact Hinit.
  fold (command_of argv). rewrite Hcmd, Hlen. cbn [String.eqb Ascii.eqb Bool.eqb andb Nat.eqb].
  erewrite bind_run by (unfold float_of_str; rewrite Hfloat; reflexivity).
  unfold after. cbn [result emitted final]. reflexivity.
Qed.

End Dispatch.


(** C1, at the input where the code departs from it.  The quantity is NaN
    (the command line accepts it: [float("nan")]), the wallet holds 5 USDC
    and the operator confirms: "5 < NaN" is false, so the guard lets the
    transfer through, although "NaN <= 5" is false as well.  The same
    submission is reached from [main], whatever [float] does on other
    texts. *)
Theorem send_tokens_submits_nan_quantity :
  let wl := sample_wallet (scripted_transfer [] "complete") in
  let balances := [("eth", sample_decimal 1 "1"); ("usdc", sample_decimal 5 "5")] in
  let w := sample_world [wl] sample_disk ["yes"] in
  balances_result (wallet_now (wallet_reloaded wl)) = inr balances /\
  guarded_balance "usdc" balances = 5%float /\
  (nan <=? 5)%float = false /\
  (5 <? nan)%float = false /\
  In (Sdk (Wallet_transfer "w-1" nan "usdc" "0xB" true))
     (emitted (send_tokens sample_manager "0xA" "0xB" nan "usdc" w)) /\
  (forall builtin_float,
     builtin_float "nan" = inr nan ->
     In (Sdk (Wallet_transfer "w-1" nan "usdc" "0xB" true))
        (emitted (main builtin_float
                    ["wallet_manager.py"; "send"; "0xA"; "0xB"; "nan"; "usdc"] w))).
Proof.
  cbv zeta. repeat split; try reflexivity.
  - vm_compute. repeat (first [left; reflexivity | right]).
  - intros builtin_float Hnan.
    erewrite (main_send builtin_float _ _ sample_manager nan);
      [ | reflexivity | reflexivity | vm_compute; reflexivity | exact Hnan ].
    unfold after. cbn [emitted]. apply in_or_app. right.
    vm_compute. repeat (first [left; reflexivity | right]).
Qed.


(** A wallet created on the test network while the faucet is down: the
    faucet was asked, and the creation succeeded. *)
Lemma create_wallet_funding_witness :
  let w := sample_world [] ∅ [] in
  let r := create_wallet sample_manager w in
  faucet_result (sample_wallet (scripted_transfer [] "complete"))
    = inl (Exception "faucet unavailable") /\
  result r = Return tt /\
  In (Sdk (Wallet_faucet "w-1")) (emitted r).
Proof.
  pose proof (create_wallet_funding sample_manager (sample_world [] ∅ [])) as H.
  cbv zeta in H. simpl remote_create in H.
  destruct H as (Hres & _ & _ & Hin).
  split; [reflexivity|]. split; [exact Hres|]. apply Hin. reflexivity.
Defined.

(** A known record file and an address that the remote service does not
    list: the "not found in CDP" report. *)
Lemma send_tokens_wallet_not_found_witness :
  let w := sample_world [] sample_disk [] in
  has_record sample_manager "0xA" w /\ unknown_to_remote "0xA" w /\
  In (wallet_not_in_cdp "0xA")
     (emitted (send_tokens sample_manager "0xA" "0xB" 0.5 "usdc" w)).
Proof.
  assert (H1 : has_record sample_manager "0xA" (sample_world [] sample_disk []))
    by (eexists; reflexivity).
  assert (H2 : unknown_to_remote "0xA" (sample_world [] sample_disk []))
    by (exists []; split; reflexivity).
  split; [exact H1|]. split; [exact H2|].
  apply (proj1 (send_tokens_wallet_not_found sample_manager "0xA" "0xB" 0.5 "usdc"
                  (sample_world [] sample_disk []))).
  split; assumption.
Defined.

(** A transfer that fails at once: the answer [False], with "Transfer
    failed!" as the last line. *)
Lemma wait_false_means_failed_or_timed_out_witness :
  let t := scripted_transfer [] "failed" in
  let r := _wait_for_transfer t 10 (sample_world [] ∅ []) in
  result r = Return (false, reloaded t "failed") /\
  ((deadline (sample_world [] ∅ []) 10 <= clock (final r) /\
    reaches (deadline (sample_world [] ∅ []) 10) t (sample_world [] ∅ [])
            (reloaded t "failed") (final r) /\
    exists before, emitted r = (before ++ [timed_out_line 10])%list)
   \/
   (says "failed" "failed" = true /\
    exists before, emitted r = (before ++ [Print [Txt "Transfer failed!"]])%list)
   \/
   (says "complete" "failed" = false /\ says "failed" "failed" = false /\
    says "pending" "failed" = false /\
    exists before,
      emitted r = (before ++ [Print [Txt "Unexpected status: "; Txt "failed"]])%list)).
Proof.
  assert (Hres : result (_wait_for_transfer (scripted_transfer [] "failed") 10
                           (sample_world [] ∅ []))
                 = Return (false, reloaded (scripted_transfer [] "failed") "failed"))
    by reflexivity.
  split; [exact Hres|].
  exact (proj1 (wait_false_means_failed_or_timed_out (scripted_transfer [] "failed") 10
                  (sample_world [] ∅ [])) _ Hres).
Defined.

(* ===================================================================== *)
(** * Further properties of the program                                   *)
(* ===================================================================== *)

(** ** What leaves a function: exceptions and exits *)

Section ExitRules.

Context {A B : Type}.

Lemma no_exit_ret (a : A) : no_exit (mret a : M A).
Proof. intros w c. discriminate. Qed.

Lemma no_exit_bind (m : M A) (k : A -> M B) :
  no_exit m -> (forall a, no_exit (k a)) -> no_exit (m ≫= k).
Proof.
  intros Hm Hk w c. unfold mbind, M_bind, bind.
  destruct (result (m w)) as [a|e|c'] eqn:Hres; simpl.
  - apply Hk.
  - discriminate.
  - exfalso. exact (Hm w c' Hres).
Qed.

Lemma no_exit_try_except (m : M A) (h : exn -> M A) :
  no_exit m -> (forall e, no_exit (h e)) -> no_exit (try_except m h).
Proof.
  intros Hm Hh w c. unfold try_except.
  destruct (result (m w)) as [a|e|c'] eqn:Hres; simpl.
  - rewrite Hres. discriminate.
  - apply Hh.
  - exfalso. exact (Hm w c' Hres).
Qed.

Lemma no_exit_try_except_FileNotFoundError (m h : M A) :
  no_exit m -> no_exit h -> no_exit (try_except_FileNotFoundError m h).
Proof.
  intros Hm Hh w c. unfold try_except_FileNotFoundError.
  destruct (result (m w)) as [a|[p|p|p|p]|c'] eqn:Hres; simpl;
    try (rewrite Hres; discriminate).
  - apply Hh.
  - exfalso. exact (Hm w c' Hres).
Qed.

Lemma always_returns_ret (a : A) : always_returns (mret a : M A).
Proof. intros w. exists a. reflexivity. Qed.

Lemma always_returns_bind (m : M A) (k : A -> M B) :
  always_returns m -> (forall a, always_returns (k a)) -> always_returns (m ≫= k).
Proof.
  intros Hm Hk w. unfold mbind, M_bind, bind.
  destruct (Hm w) as [a Ha]. rewrite Ha. simpl. apply Hk.
Qed.

(** A [try] whose body cannot exit and whose handler returns: it returns. *)
Lemma always_returns_try_except (m : M A) (h : exn -> M A) :
  no_exit m -> (forall e, always_returns (h e)) -> always_returns (try_except m h).
Proof.
  intros Hm Hh w. unfold try_except.
  destruct (result (m w)) as [a|e|c] eqn:Hres; simpl.
  - exists a. exact Hres.
  - apply Hh.
  - exfalso. exact (Hm w c Hres).
Qed.

End ExitRules.

Lemma no_exit_emit (ev : event) : no_exit (emit ev).
Proof. intros w c. discriminate. Qed.

Lemma no_exit_sdk {A} (c : sdk_call) (ans : exn + A) : no_exit (sdk c ans).
Proof. intros w c'. unfold sdk. destruct ans; discriminate. Qed.

Lemma no_exit_input (prompt : list frag) : no_exit (input prompt).
Proof. intros w c. unfold input. destruct (stdin w); discriminate. Qed.

Lemma no_exit_read_wallet_file (path : string) : no_exit (read_wallet_file path).
Proof. intros w c. unfold read_wallet_file. destruct (files w !! path); discriminate. Qed.

Lemma no_exit_wallet_reload (wl : wallet) : no_exit (wallet_reload wl).
Proof.
  intros w c. unfold wallet_reload. destruct (reload_error wl (reloads wl)); discriminate.
Qed.

Lemma no_exit_Wallet_list_all : no_exit Wallet_list_all.
Proof. intros w c. unfold Wallet_list_all. apply no_exit_sdk. Qed.

Lemma no_exit_Wallet_create_on (net : string) : no_exit (Wallet_create_on net).
Proof. intros w c. unfold Wallet_create_on. apply no_exit_sdk. Qed.

Lemma no_exit_write_wallet_file (path : string) (data : wallet_data) :
  no_exit (write_wallet_file path data).
Proof. intros w c. discriminate. Qed.

Lemma no_exit_for_each {A} (l : list A) (body : A -> M unit) :
  (forall x, no_exit (body x)) -> no_exit (for_each l body).
Proof.
  intros Hb. induction l as [|x l IH]; simpl.
  - apply (no_exit_ret tt).
  - apply no_exit_bind; [apply Hb | intros _; exact IH].
Qed.

Lemma no_exit_wait (t : transfer) (m : Z) : no_exit (_wait_for_transfer t m).
Proof.
  intros w c. unfold _wait_for_transfer, after, conclude. cbn [result].
  pose proof (poll_outcome (deadline w m) t w) as H.
  destruct (result (poll (deadline w m) t w)) as [[[b|] t']|e|c']; cbn [result];
    try discriminate.
  destruct H.
Qed.

Lemma always_returns_emit (ev : event) : always_returns (emit ev).
Proof. intros w. exists tt. reflexivity. Qed.

Lemma always_returns_for_each {A} (l : list A) (body : A -> M unit) :
  (forall x, always_returns (body x)) -> always_returns (for_each l body).
Proof.
  intros Hb. induction l as [|x l IH]; simpl.
  - apply (always_returns_ret tt).
  - apply always_returns_bind; [apply Hb | intros _; exact IH].
Qed.

(** [stays] decomposes a goal [no_exit m] or [always_returns m] along [m]. *)
Ltac stays :=
  lazymatch goal with
  | |- no_exit (mret _) => apply no_exit_ret
  | |- no_exit (print _) => apply no_exit_emit
  | |- no_exit (emit _) => apply no_exit_emit
  | |- no_exit (input _) => apply no_exit_input
  | |- no_exit (sdk _ _) => apply no_exit_sdk
  | |- no_exit (wallet_balances _) => apply no_exit_sdk
  | |- no_exit (wallet_transfer _ _ _ _ _) => apply no_exit_sdk
  | |- no_exit (wallet_faucet _) => apply no_exit_sdk
  | |- no_exit (faucet_wait _) => apply no_exit_sdk
  | |- no_exit (address_transfers _) => apply no_exit_sdk
  | |- no_exit (wallet_reload _) => apply no_exit_wallet_reload
  | |- no_exit Wallet_list_all => apply no_exit_Wallet_list_all
  | |- no_exit (Wallet_create_on _) => apply no_exit_Wallet_create_on
  | |- no_exit (write_wallet_file _ _) => apply no_exit_write_wallet_file
  | |- no_exit (read_wallet_file _) => apply no_exit_read_wallet_file
  | |- no_exit (_wait_for_transfer _ _) => apply no_exit_wait
  | |- no_exit (print_balances _ _) =>
      unfold print_balances; apply no_exit_for_each; intros ?; stays
  | |- no_exit (for_each _ _) => apply no_exit_for_each; intros ?; stays
  | |- no_exit (try_except _ _) => apply no_exit_try_except; [ stays | intros ?; stays ]
  | |- no_exit (try_except_FileNotFoundError _ _) =>
      apply no_exit_try_except_FileNotFoundError; [ stays | stays ]
  | |- no_exit (mbind _ _) => apply no_exit_bind; [ stays | intros ?; stays ]
  | |- no_exit (if ?b then _ else _) => destruct b; stays
  | |- no_exit (match ?x with _ => _ end) => destruct x; stays
  | |- always_returns (mret _) => apply always_returns_ret
  | |- always_returns (print _) => apply always_returns_emit
  | |- always_returns (emit _) => apply always_returns_emit
  | |- always_returns (for_each _ _) => apply always_returns_for_each; intros ?; stays
  | |- always_returns (try_except _ _) =>
      apply always_returns_try_except; [ stays | intros ?; stays ]
  | |- always_returns (mbind _ _) => apply always_returns_bind; [ stays | intros ?; stays ]
  | |- always_returns (if ?b then _ else _) => destruct b; stays
  | |- always_returns (match ?x with _ => _ end) => destruct x; stays
  | |- _ => idtac
  end.

Lemma send_tokens_returns (self : manager) (from_address to_address : string)
    (quantity : float) (asset_id : string) :
  always_returns (send_tokens self from_address to_address quantity asset_id).
Proof.
  unfold send_tokens, send_tokens_error, send_from, check_balance, submit_and_follow.
  stays.
Qed.

Lemma show_balance_returns (self : manager) (wallet_address : string) :
  always_returns (show_balance self wallet_address).
Proof. unfold show_balance. stays. Qed.

Lemma list_wallets_returns (self : manager) : always_returns (list_wallets self).
Proof. unfold list_wallets. stays. Qed.

(** X1.  [send_tokens], [show_balance] and [list_wallets] contain the
    errors of the calls they make.  An exception that such a call raises
    (the [FileNotFoundError] of [open], the [EOFError] of [input] when the
    input has ended, whatever a call of the SDK raises) is handled inside,
    by [except FileNotFoundError] or by the outer [except Exception], and
    none of the three calls [sys.exit]: the function returns.  The
    exceptions are those of this model, instances of [Exception] all: an
    interrupt from the keyboard, which [except Exception] would let
    through, is not among them. *)
Theorem operations_contain_their_errors (self : manager) :
  (forall from_address to_address quantity asset_id,
     no_exception (send_tokens self from_address to_address quantity asset_id) /\
     no_exit (send_tokens self from_address to_address quantity asset_id)) /\
  (forall wallet_address,
     no_exception (show_balance self wallet_address) /\
     no_exit (show_balance self wallet_address)) /\
  no_exception (list_wallets self) /\ no_exit (list_wallets self).
Proof.
  assert (Hreturns : forall m : M unit,
             always_returns m -> no_exception m /\ no_exit m).
  { intros m Hm. split.
    - intros w e. destruct (Hm w) as [a Ha]. rewrite Ha. discriminate.
    - intros w c. destruct (Hm w) as [a Ha]. rewrite Ha. discriminate. }
  split; [|split].
  - intros. apply Hreturns, send_tokens_returns.
  - intros. apply Hreturns, show_balance_returns.
  - apply Hreturns, list_wallets_returns.
Qed.

(** ** Start-up *)

Lemma load_credentials_run (w : world) :
  _load_credentials w =
  if negb (key_file w) then
    Run (SysExit 1)
        [ Print [Txt "Error: cdp_api_key.json not found"];
          Print [Txt "Please ensure your CDP API credentials are in cdp_api_key.json"] ] w
  else
    match configure_error w with
    | Some e =>
        Run (SysExit 1)
            [ Sdk Cdp_configure_from_json;
              Print [Txt "Error configuring CDP SDK: "; Txt (exn_str e)];
              Print [Traceback e] ] w
    | None =>
        Run (Return tt)
            [ Sdk Cdp_configure_from_json;
              Print [Txt "CDP SDK has been successfully configured from JSON file."];
              Print [Txt "Server signer has been enabled for transaction signing."] ] w
    end.
Proof.
  unfold _load_credentials. destruct (key_file w); simpl negb; cbv iota.
  - destruct (configure_error w); reflexivity.
  - reflexivity.
Qed.

(** [os.getenv] after [load_dotenv()]: the setting by precedence. *)
Lemma getenv_setting (w : world) (key dflt : string) :
  match (environ w ∪ loaded_by_dotenv w) !! key with
  | Some v => v
  | None => dflt
  end = setting w key dflt.
Proof.
  unfold setting. rewrite lookup_union.
  destruct (environ w !! key), (loaded_by_dotenv w !! key); reflexivity.
Qed.

(** The run of [_load_env_config]. *)
Lemma load_env_config_run (w : world) :
  _load_env_config w =
  Run (match mkdir_error w (wallet_path (configured w)) with
       | None => Return (configured w)
       | Some e => Raise e
       end)
      (match dotenv w with
       | Some _ => []
       | None => [ Print [Txt "Warning: .env file not found. A template has been created."];
                   Print [Txt "Using default values for network and storage path."] ]
       end)
      (set_environ (environ w ∪ loaded_by_dotenv w)
         (set_dotenv (Some (env_file_after_check w)) w)).
Proof.
  assert (Hfirst :
    match dotenv w with
    | None =>
        _create_default_env_file;;
        print [Txt "Warning: .env file not found. A template has been created."];;
        print [Txt "Using default values for network and storage path."]
    | Some _ => mret tt
    end w
    = Run (Return tt)
          (match dotenv w with
           | Some _ => []
           | None => [ Print [Txt "Warning: .env file not found. A template has been created."];
                       Print [Txt "Using default values for network and storage path."] ]
           end)
          (set_dotenv (Some (env_file_after_check w)) w)).
  { unfold env_file_after_check. destruct w as [c n o si f k ce d src env mk rw rc].
    destruct d; reflexivity. }
  set (w1 := set_dotenv (Some (env_file_after_check w)) w) in *.
  assert (Hload : load_dotenv w1
                  = Run (Return tt) [] (set_environ (environ w ∪ loaded_by_dotenv w) w1)).
  { unfold load_dotenv, loaded_variables, loaded_by_dotenv. subst w1.
    cbn [environ load_dotenv_finds dotenv set_dotenv]. reflexivity. }
  set (w2 := set_environ (environ w ∪ loaded_by_dotenv w) w1) in *.
  unfold _load_env_config.
  erewrite bind_run by exact Hfirst.
  erewrite bind_run by exact Hload.
  erewrite bind_run by reflexivity.
  erewrite bind_run by reflexivity.
  cbn [environ set_environ w2]. rewrite !getenv_setting.
  unfold mbind, M_bind, bind, mkdir. cbn [mkdir_error set_environ set_dotenv w2 w1].
  fold (configured w).
  change (setting w "WALLET_STORAGE_PATH" "./wallets") with (wallet_path (configured w)).
  unfold after.
  destruct (mkdir_error w (wallet_path (configured w))); cbn [result emitted final];
    rewrite ?app_nil_r; reflexivity.
Qed.

Lemma init_cases (w : world) :
  (key_file w = true /\ configure_error w = None /\
   WalletManager_init w =
   after (emitted (_load_credentials w)) (_load_env_config w)) \/
  ((key_file w = false \/ is_Some (configure_error w)) /\
   result (WalletManager_init w) = SysExit 1 /\
   final (WalletManager_init w) = w).
Proof.
  unfold WalletManager_init, mbind, M_bind, bind. rewrite load_credentials_run.
  destruct (key_file w); simpl negb; cbv iota.
  - destruct (configure_error w) as [e|]; cbn [result emitted final].
    + right. repeat split; eauto.
    + left. repeat split.
  - right. repeat split; eauto.
Qed.



(** ** What leaves [main] *)




Section Outcomes.

Variable builtin_float : string -> exn + float.


End Outcomes.

(** ** [_wait_for_transfer]: how long it polls *)

Lemma rounds_left_pos (timeout : Z) (w : world) :
  clock w < timeout -> (1 <= rounds_left timeout w)%nat.
Proof. intros H. unfold rounds_left. Z.div_mod_to_equations. lia. Qed.

Lemma poll_reloads_bounded (timeout : Z) (t : transfer) (w : world) :
  (reload_count (emitted (poll timeout t w)) <= rounds_left timeout w)%nat.
Proof.
  revert t w. apply (poll_rounds_ind timeout).
  - intros t w H. rewrite poll_expired by exact H. simpl. lia.
  - intros t w Hlt IH. pose proof (rounds_left_pos timeout w Hlt) as Hpos.
    destruct (observed (script t (polls t))) as [e|st] eqn:Hobs.
    + rewrite (poll_round_raises timeout t w e Hlt Hobs). simpl. exact Hpos.
    + rewrite (poll_round timeout t w st Hlt Hobs).
      unfold after. cbn [emitted]. rewrite reload_count_app.
      change (reload_count (round_head st)) with 1%nat.
      destruct (says "complete" st); [simpl; lia|].
      destruct (says "failed" st); [simpl; lia|].
      destruct (says "pending" st); [|simpl; lia].
      cbn [emitted]. rewrite reload_count_app.
      change (reload_count [PrintDot; Sleep 2]) with 0%nat.
      specialize (IH st eq_refl).
      pose proof (rounds_left_next timeout t w Hlt). lia.
Qed.

Lemma wait_reload_count (t : transfer) (m : Z) (w : world) :
  reload_count (emitted (_wait_for_transfer t m w))
  = reload_count (emitted (poll (deadline w m) t w)).
Proof.
  unfold _wait_for_transfer, after, conclude. cbn [emitted].
  rewrite reload_count_app, debug_lines_no_reload.
  destruct (result (poll (deadline w m) t w)) as [[[b|] t']|e|c]; cbn [emitted];
    try reflexivity.
  rewrite reload_count_app. simpl. lia.
Qed.

(** X5.  [_wait_for_transfer] reloads the transfer at most thirty times per
    minute of its timeout, whatever the remote service answers and however
    long its answers take: at most 300 times with the timeout of ten
    minutes that [send_tokens] uses. *)
Theorem wait_reloads_bounded (t : transfer) (m : Z) (w : world) :
  (reload_count (emitted (_wait_for_transfer t m w)) <= Z.to_nat (30 * m))%nat /\
  (reload_count (emitted (_wait_for_transfer t default_timeout_minutes w)) <= 300)%nat.
Proof.
  assert (H : forall m', (reload_count (emitted (_wait_for_transfer t m' w))
                          <= Z.to_nat (30 * m'))%nat).
  { intros m'. rewrite wait_reload_count.
    etransitivity; [apply poll_reloads_bounded|].
    unfold rounds_left, deadline, microseconds_per_second.
    assert (E : (clock w + m' * 60 * 1000000 - clock w + 1999999) / 2000000 = 30 * m')
      by (Z.div_mod_to_equations; lia).
    rewrite E. lia. }
  split; [apply H|]. apply (H default_timeout_minutes).
Qed.

(** X6.  With a timeout that is not positive the loop is never entered: the
    transfer is not reloaded, the answer is [False] at once, with the
    transfer as it was given. *)
Theorem wait_without_time (t : transfer) (m : Z) (w : world) :
  m <= 0 ->
  _wait_for_transfer t m w =
  Run (Return (false, t)) (debug_lines t ++ [timed_out_line m]) w.
Proof.
  intros Hm. unfold _wait_for_transfer.
  rewrite poll_expired by (unfold deadline, microseconds_per_second; lia).
  reflexivity.
Qed.

Lemma wait_without_time_witness :
  let t := scripted_transfer [] "complete" in
  0 <= 0 /\
  _wait_for_transfer t 0 (sample_world [] ∅ []) =
  Run (Return (false, t)) (debug_lines t ++ [timed_out_line 0]) (sample_world [] ∅ []).
Proof.
  split; [lia|]. apply (wait_without_time _ 0). lia.
Defined.

(** X7.  An exception of [transfer.reload()] is not handled inside
    [_wait_for_transfer]: when the loop, after some pending rounds, calls a
    reload that raises, the exception leaves the function right after that
    call, and nothing more is printed. *)
Theorem wait_reload_raises (t : transfer) (m : Z) (w : world)
    (t' : transfer) (w' : world) (e : exn) :
  reaches (deadline w m) t w t' w' ->
  clock w' < deadline w m ->
  observed (script t' (polls t')) = inl e ->
  let r := _wait_for_transfer t m w in
  result r = Raise e /\
  (exists before, emitted r = (before ++ [Sdk Transfer_reload])%list) /\
  reload_count (emitted r) = S (polls t' - polls t).
Proof.
  intros Hreach Hlt Hobs r. subst r.
  destruct (wait_reaches t m w t' w' Hreach) as (evs & Hrun & _ & Hcount).
  rewrite Hrun, (poll_round_raises _ t' w' e Hlt Hobs).
  unfold conclude, after. cbn [result emitted final].
  split; [reflexivity|]. split.
  - exists (debug_lines t ++ evs)%list. reflexivity.
  - rewrite !reload_count_app, debug_lines_no_reload, Hcount. simpl. lia.
Qed.

Lemma wait_reload_raises_witness :
  let e := Exception "connection reset" in
  let t := interrupted_transfer ["pending"] e in
  let r := _wait_for_transfer t 10 (sample_world [] ∅ []) in
  result r = Raise e /\
  (exists before, emitted r = (before ++ [Sdk Transfer_reload])%list) /\
  reload_count (emitted r) = 2%nat.
Proof.
  apply (wait_reload_raises
           (interrupted_transfer ["pending"] (Exception "connection reset")) 10
           (sample_world [] ∅ [])
           (reloaded (interrupted_transfer ["pending"] (Exception "connection reset"))
                     "pending")
           (next_round (interrupted_transfer ["pending"] (Exception "connection reset"))
                       (sample_world [] ∅ []))
           (Exception "connection reset"));
    try reflexivity.
  apply (reaches_round _ _ _ "pending"); [reflexivity | reflexivity | | constructor].
  repeat split; reflexivity.
Defined.

(** ** [send_tokens]: the confirmation *)

Lemma check_balance_passes (wl : wallet) (quantity : float) (asset_id : string)
    (balances : balances_t) (w : world) :
  balances_result (wallet_now wl) = inr balances ->
  (guarded_balance asset_id balances <? quantity)%float = false ->
  check_balance wl quantity asset_id w =
  Run (Return true)
      (Sdk (Wallet_balances (wallet_id wl)) :: Print [Nl; Txt "Current balance:"]
       :: balance_lines [] balances) w.
Proof.
  intros Hbal Hlt. unfold check_balance. apply try_except_returns.
  erewrite bind_run by (unfold wallet_balances, sdk; rewrite Hbal; reflexivity).
  erewrite bind_run by reflexivity.
  erewrite bind_run by apply print_balances_run.
  cbv zeta. fold (guarded_balance asset_id balances). rewrite Hlt.
  unfold after. cbn [result emitted final mret M_ret ret app].
  rewrite app_nil_r. reflexivity.
Qed.

Section Confirmation.

Variables (wallet_info : wallet_data) (wl : wallet).
Variables (from_address to_address : string) (quantity : float) (asset_id : string).
Variables (balances : balances_t) (w : world).
Hypothesis reloads_well : reload_error wl (reloads wl) = None.
Hypothesis has_balances : balances_result (wallet_now (wallet_reloaded wl)) = inr balances.
Hypothesis guard_passes : (guarded_balance asset_id balances <? quantity)%float = false.

(** [send_from] up to its question. *)
Lemma send_from_asks :
  send_from wallet_info wl from_address to_address quantity asset_id w =
  after (reload_and_announce wl ++ balance_lines [] balances
         ++ transaction_details wallet_info from_address to_address quantity asset_id)
    ((confirm ← input [Nl; Txt "Proceed with transaction? (yes/no): "];
      if negb (String.eqb (lower confirm) "yes") then print [Txt "Transaction cancelled"]
      else submit_and_follow (wallet_reloaded wl) to_address quantity (lower asset_id)) w).
Proof.
  unfold send_from.
  erewrite bind_run by (unfold wallet_reload; rewrite reloads_well; reflexivity).
  fold (wallet_reloaded wl).
  do 3 (erewrite bind_run by reflexivity).
  erewrite bind_run by (apply check_balance_passes; [exact has_balances | exact guard_passes]).
  cbn [negb]. cbv zeta.
  do 7 (erewrite bind_run by reflexivity).
  rewrite !after_after. unfold after. f_equal.
  unfold reload_and_announce, transaction_details. rewrite <- !app_assoc. reflexivity.
Qed.

End Confirmation.

Lemma try_except_after {A} (m k : M A) (h : exn -> M A) (evs : list event) (w w' : world) :
  m w = after evs (k w') -> try_except m h w = after evs (try_except k h w').
Proof.
  unfold try_except. intros ->. unfold after. cbn [result emitted final].
  destruct (result (k w')) eqn:Hr; cbn [result emitted final]; rewrite ?Hr;
    try reflexivity.
  rewrite <- app_assoc. reflexivity.
Qed.

Lemma balance_lines_not_submissions (lead : list frag) (balances : balances_t) :
  Forall (fun ev => ~ is_submission ev) (balance_lines lead balances).
Proof.
  unfold balance_lines. induction balances as [|kv l IH]; simpl; constructor;
    [not_a_submission | exact IH].
Qed.

Lemma up_to_question_not_submissions (wallet_info : wallet_data) (wl : wallet)
    (from_address to_address : string) (quantity : float) (asset_id : string)
    (balances : balances_t) :
  Forall (fun ev => ~ is_submission ev)
         (up_to_question wallet_info wl from_address to_address quantity asset_id balances).
Proof.
  unfold up_to_question, reload_and_announce, transaction_details, confirmation_prompt.
  repeat first [ apply Forall_app; split
               | apply balance_lines_not_submissions
               | apply Forall_cons; split; [not_a_submission|]
               | apply Forall_nil_2 ].
Qed.

(** Once asked to, [submit_and_follow] calls [wallet.transfer], whatever
    comes of it. *)
Lemma submit_and_follow_submits (wl : wallet) (to_address : string) (quantity : float)
    (asset_id : string) (w : world) :
  In (Sdk (Wallet_transfer (wallet_id wl) quantity asset_id to_address
             (String.eqb asset_id "usdc")))
     (emitted (submit_and_follow wl to_address quantity asset_id w)).
Proof.
  unfold submit_and_follow.
  erewrite bind_run by reflexivity. cbv zeta.
  erewrite bind_run by reflexivity.
  destruct (transfer_result wl quantity asset_id to_address (String.eqb asset_id "usdc"))
    as [e|tr] eqn:Htr.
  - erewrite bind_raises by (unfold wallet_transfer, sdk; rewrite Htr; reflexivity).
    simpl. auto.
  - erewrite bind_run by (unfold wallet_transfer, sdk; rewrite Htr; reflexivity).
    simpl. auto.
Qed.

Lemma try_except_keeps_events {A} (m : M A) (h : exn -> M A) (w : world) (ev : event) :
  In ev (emitted (m w)) -> In ev (emitted (try_except m h w)).
Proof.
  unfold try_except. intros H. destruct (result (m w)); try exact H.
  unfold after. cbn [emitted]. apply in_or_app. left. exact H.
Qed.

Section Question.

Variables (self : manager) (from_address to_address : string).
Variables (quantity : float) (asset_id : string) (w : world).
Variables (wallet_info : wallet_data) (wl : wallet) (balances : balances_t).
Hypothesis asks :
  gets_to_question self from_address quantity asset_id w wallet_info wl balances.

Lemma send_tokens_at_question :
  send_tokens self from_address to_address quantity asset_id w =
  after ([ Print [Nl; Txt "Locating wallet "; Txt from_address; Txt "..."]; Sdk Wallet_list ]
         ++ reload_and_announce wl ++ balance_lines [] balances
         ++ transaction_details wallet_info from_address to_address quantity asset_id)
    (try_except
       (confirm ← input [Nl; Txt "Proceed with transaction? (yes/no): "];
        if negb (String.eqb (lower confirm) "yes") then print [Txt "Transaction cancelled"]
        else submit_and_follow (wallet_reloaded wl) to_address quantity (lower asset_id))
       send_tokens_error w).
Proof.
  destruct asks as (Hfile & (wallets & Hlist & Hfind) & Hre & Hbal & Hlt).
  rewrite (send_tokens_found _ _ _ _ _ _ wallet_info wallets wl Hfile Hlist Hfind).
  erewrite try_except_after
    by (apply (send_from_asks wallet_info wl from_address to_address quantity asset_id
                 balances w Hre Hbal Hlt)).
  rewrite after_after. reflexivity.
Qed.

Lemma send_tokens_end_of_input :
  stdin w = [] ->
  send_tokens self from_address to_address quantity asset_id w =
  Run (Return tt)
      (up_to_question wallet_info wl from_address to_address quantity asset_id balances
       ++ [ Print [Txt "Error sending tokens: "; Txt "EOF when reading a line"];
            Print [Traceback (EOFError "EOF when reading a line")] ])
      w.
Proof.
  intros Hin. rewrite send_tokens_at_question.
  erewrite try_except_raises
    by (apply bind_raises; unfold input; rewrite Hin; reflexivity).
  unfold after, up_to_question, confirmation_prompt. cbn [result emitted final].
  f_equal. rewrite <- !app_assoc. reflexivity.
Qed.

Lemma send_tokens_declined (answer : string) (rest : list string) :
  stdin w = answer :: rest -> lower answer <> "yes" ->
  send_tokens self from_address to_address quantity asset_id w =
  Run (Return tt)
      (up_to_question wallet_info wl from_address to_address quantity asset_id balances
       ++ [Print [Txt "Transaction cancelled"]])
      (set_stdin rest w).
Proof.
  intros Hin Hno. rewrite send_tokens_at_question.
  erewrite try_except_returns.
  2:{ erewrite bind_run by (unfold input; rewrite Hin; reflexivity).
      destruct (String.eqb_spec (lower answer) "yes") as [E|_]; [contradiction|].
      reflexivity. }
  unfold after, up_to_question, confirmation_prompt. cbn [result emitted final].
  f_equal. rewrite <- !app_assoc. reflexivity.
Qed.

Lemma send_tokens_confirmed (answer : string) (rest : list string) :
  stdin w = answer :: rest -> lower answer = "yes" ->
  send_tokens self from_address to_address quantity asset_id w =
  after (up_to_question wallet_info wl from_address to_address quantity asset_id balances)
    (try_except
       (submit_and_follow (wallet_reloaded wl) to_address quantity (lower asset_id))
       send_tokens_error (set_stdin rest w)).
Proof.
  intros Hin Hyes. rewrite send_tokens_at_question.
  erewrite try_except_after.
  2:{ erewrite bind_run by (unfold input; rewrite Hin; reflexivity).
      rewrite Hyes. cbn [String.eqb Ascii.eqb Bool.eqb negb]. reflexivity. }
  rewrite after_after. unfold up_to_question, confirmation_prompt.
  rewrite <- !app_assoc. reflexivity.
Qed.

End Question.

Lemma not_submitted_app (l1 l2 : list event) :
  Forall (fun ev => ~ is_submission ev) l1 ->
  Forall (fun ev => ~ is_submission ev) l2 ->
  ~ Exists is_submission (l1 ++ l2).
Proof.
  intros H1 H2 Hex. apply List.Exists_exists in Hex. destruct Hex as (ev & Hin & Hs).
  apply in_app_or in Hin.
  rewrite List.Forall_forall in H1, H2.
  destruct Hin as [Hin|Hin]; [exact (H1 ev Hin Hs) | exact (H2 ev Hin Hs)].
Qed.

(** A submission was asked for and confirmed. *)
Lemma send_tokens_submission_confirmed (self : manager) (from_address to_address : string)
    (quantity : float) (asset_id : string) (w : world) :
  Exists is_submission
         (emitted (send_tokens self from_address to_address quantity asset_id w)) ->
  (exists wallet_info wl balances,
     gets_to_question self from_address quantity asset_id w wallet_info wl balances) /\
  confirms w.
Proof.
  intros Hex.
  destruct (send_tokens_submits_after_guard _ _ _ _ _ _ Hex)
    as (info & wallets & wl & balances & Hfile & Hlist & Hfind & Hre & Hbal & Hlt).
  assert (Hq : gets_to_question self from_address quantity asset_id w info wl balances).
  { split; [exact Hfile|]. split; [exists wallets; split; assumption|].
    repeat split; assumption. }
  split; [exists info, wl, balances; exact Hq|].
  destruct (stdin w) as [|answer rest] eqn:Hin.
  - exfalso. rewrite (send_tokens_end_of_input _ _ to_address _ _ _ _ _ _ Hq Hin) in Hex.
    revert Hex. apply not_submitted_app; [apply up_to_question_not_submissions|].
    repeat constructor; not_a_submission.
  - destruct (String.eqb_spec (lower answer) "yes") as [Hyes|Hno].
    + exists answer, rest. split; [exact Hin | exact Hyes].
    + exfalso.
      rewrite (send_tokens_declined _ _ to_address _ _ _ _ _ _ Hq answer rest Hin Hno)
        in Hex.
      revert Hex. apply not_submitted_app; [apply up_to_question_not_submissions|].
      repeat constructor; not_a_submission.
Qed.

(** X8.  When [send_tokens] submits.  It calls [wallet.transfer] exactly in
    the runs where it gets as far as its question (record file, wallet in
    the listing, reload, balances, balance not found lower than the
    quantity) and the operator's next line is "yes" in any case of the
    letters: nothing is submitted unasked, after another answer, or when
    the input has ended.  What it submits then is the quantity and the
    destination it was given, on the reloaded wallet. *)
Theorem send_tokens_submits_iff_confirmed (self : manager) (from_address to_address : string)
    (quantity : float) (asset_id : string) (w : world) :
  (Exists is_submission
          (emitted (send_tokens self from_address to_address quantity asset_id w)) <->
   (exists wallet_info wl balances,
      gets_to_question self from_address quantity asset_id w wallet_info wl balances) /\
   confirms w) /\
  (forall wallet_info wl balances,
     gets_to_question self from_address quantity asset_id w wallet_info wl balances ->
     confirms w ->
     In (Sdk (Wallet_transfer (wallet_id wl) quantity (lower asset_id) to_address
                (String.eqb (lower asset_id) "usdc")))
        (emitted (send_tokens self from_address to_address quantity asset_id w))).
Proof.
  assert (Hsub : forall info wl balances,
             gets_to_question self from_address quantity asset_id w info wl balances ->
             confirms w ->
             In (Sdk (Wallet_transfer (wallet_id wl) quantity (lower asset_id) to_address
                        (String.eqb (lower asset_id) "usdc")))
                (emitted (send_tokens self from_address to_address quantity asset_id w))).
  { intros info wl balances Hq (answer & rest & Hin & Hyes).
    rewrite (send_tokens_confirmed _ _ to_address _ _ _ _ _ _ Hq answer rest Hin Hyes).
    unfold after. cbn [emitted]. apply in_or_app. right.
    apply try_except_keeps_events.
    apply (submit_and_follow_submits (wallet_reloaded wl)). }
  split; [split|exact Hsub].
  - apply send_tokens_submission_confirmed.
  - intros [(info & wl & balances & Hq) Hyes].
    apply List.Exists_exists. eexists. split; [exact (Hsub info wl balances Hq Hyes)|].
    repeat eexists.
Qed.

(** X9.  Without the confirmation nothing is sent.  When [send_tokens] has
    got as far as its question and the operator's next line is not "yes",
    it prints "Transaction cancelled"; when the input has ended, the
    [EOFError] of [input] is reported as "Error sending tokens".  Either
    way it returns, it has read at most that line, and it has not called
    [wallet.transfer]. *)
Theorem send_tokens_unconfirmed (self : manager) (from_address to_address : string)
    (quantity : float) (asset_id : string) (w : world)
    (wallet_info : wallet_data) (wl : wallet) (balances : balances_t) :
  gets_to_question self from_address quantity asset_id w wallet_info wl balances ->
  ~ confirms w ->
  let r := send_tokens self from_address to_address quantity asset_id w in
  result r = Return tt /\
  emitted r =
    (up_to_question wallet_info wl from_address to_address quantity asset_id balances
     ++ match stdin w with
        | [] => [ Print [Txt "Error sending tokens: "; Txt "EOF when reading a line"];
                  Print [Traceback (EOFError "EOF when reading a line")] ]
        | _ :: _ => [ Print [Txt "Transaction cancelled"] ]
        end)%list /\
  final r = set_stdin (tl (stdin w)) w /\
  ~ Exists is_submission (emitted r).
Proof.
  intros Hq Hno r. subst r.
  destruct (stdin w) as [|answer rest] eqn:Hin.
  - rewrite (send_tokens_end_of_input _ _ to_address _ _ _ _ _ _ Hq Hin).
    cbn [result emitted final tl]. repeat split.
    + destruct w. simpl in Hin. subst. reflexivity.
    + apply not_submitted_app; [apply up_to_question_not_submissions|].
      repeat constructor; not_a_submission.
  - assert (Hne : lower answer <> "yes").
    { intros Hyes. apply Hno. exists answer, rest. split; [exact Hin | exact Hyes]. }
    rewrite (send_tokens_declined _ _ to_address _ _ _ _ _ _ Hq answer rest Hin Hne).
    cbn [result emitted final tl]. repeat split.
    apply not_submitted_app; [apply up_to_question_not_submissions|].
    repeat constructor; not_a_submission.
Qed.

Lemma send_tokens_unconfirmed_witness :
  let wl := sample_wallet (scripted_transfer [] "complete") in
  let w := sample_world [wl] sample_disk ["y"] in
  let r := send_tokens sample_manager "0xA" "0xB" 0.5 "usdc" w in
  result r = Return tt /\
  List.last (emitted r) PrintDot = Print [Txt "Transaction cancelled"] /\
  final r = set_stdin [] w /\
  ~ Exists is_submission (emitted r).
Proof.
  assert (Hq : gets_to_question sample_manager "0xA" 0.5 "usdc"
                 (sample_world [sample_wallet (scripted_transfer [] "complete")]
                    sample_disk ["y"])
                 sample_record (sample_wallet (scripted_transfer [] "complete"))
                 [("eth", sample_decimal 1 "1"); ("usdc", sample_decimal 5 "5")]).
  { split; [reflexivity|]. split; [eexists; split; reflexivity|].
    repeat split; reflexivity. }
  assert (Hno : ~ confirms (sample_world [sample_wallet (scripted_transfer [] "complete")]
                              sample_disk ["y"])).
  { intros (answer & rest & Hin & Hyes). injection Hin as <- <-. discriminate Hyes. }
  destruct (send_tokens_unconfirmed sample_manager "0xA" "0xB" 0.5 "usdc" _ _ _ _ Hq Hno)
    as (H1 & H2 & H3 & H4).
  split; [exact H1|]. split; [rewrite H2; reflexivity|]. split; [exact H3 | exact H4].
Defined.

(** ** [send_tokens]: the balance guard at work *)

Lemma send_tokens_insufficient_witness :
  let wl := sample_wallet (scripted_transfer [] "complete") in
  let w := sample_world [wl] sample_disk ["yes"] in
  let r := send_tokens sample_manager "0xA" "0xB" 7 "USDC" w in
  result r = Return tt /\
  (exists before,
     emitted r = (before ++ insufficient_balance_report 7 5 "usdc")%list) /\
  ~ Exists is_submission (emitted r).
Proof.
  apply (send_tokens_insufficient sample_manager "0xA" "0xB" 7 "USDC"
           (sample_world [sample_wallet (scripted_transfer [] "complete")]
              sample_disk ["yes"])
           sample_record [sample_wallet (scripted_transfer [] "complete")]
           (sample_wallet (scripted_transfer [] "complete"))
           [("eth", sample_decimal 1 "1"); ("usdc", sample_decimal 5 "5")]);
    reflexivity.
Defined.

Lemma send_tokens_submits_within_balance_witness :
  let wl := sample_wallet (scripted_transfer [] "complete") in
  let w := sample_world [wl] sample_disk ["yes"] in
  Exists is_submission (emitted (send_tokens sample_manager "0xA" "0xB" 0.5 "usdc" w)) /\
  exists wallets wl' balances,
    remote_wallets w = inr wallets /\
    find_wallet "0xA" wallets = Some wl' /\
    balances_result (wallet_now (wallet_reloaded wl')) = inr balances /\
    (is_number (guarded_balance "usdc" balances) ->
     (0.5 <=? guarded_balance "usdc" balances)%float = true).
Proof.
  assert (Hex : Exists is_submission
                  (emitted (send_tokens sample_manager "0xA" "0xB" 0.5 "usdc"
                     (sample_world [sample_wallet (scripted_transfer [] "complete")]
                        sample_disk ["yes"])))).
  { apply List.Exists_exists.
    exists (Sdk (Wallet_transfer "w-1" 0.5 "usdc" "0xB" true)). split.
    - vm_compute. repeat (first [left; reflexivity | right]).
    - repeat eexists. }
  split; [exact Hex|].
  exact (send_tokens_submits_within_balance sample_manager "0xA" "0xB" 0.5 "usdc" _
           eq_refl Hex).
Defined.

(** ** What the operations leave untouched *)

Section Frame.

Context {X : Type} (f : world -> X).
Hypothesis f_clock : forall c w, f (set_clock c w) = f w.
Hypothesis f_naps : forall n w, f (set_naps n w) = f w.
Hypothesis f_stdin : forall l w, f (set_stdin l w) = f w.

Lemma preserves_ret {A} (a : A) : preserves f (mret a : M A).
Proof. intros w. reflexivity. Qed.

Lemma preserves_bind {A B} (m : M A) (k : A -> M B) :
  preserves f m -> (forall a, preserves f (k a)) -> preserves f (m ≫= k).
Proof.
  intros Hm Hk w. unfold mbind, M_bind, bind.
  destruct (result (m w)) as [a|e|c]; cbn [final after]; [|apply Hm..].
  rewrite Hk. apply Hm.
Qed.

Lemma preserves_try_except {A} (m : M A) (h : exn -> M A) :
  preserves f m -> (forall e, preserves f (h e)) -> preserves f (try_except m h).
Proof.
  intros Hm Hh w. unfold try_except.
  destruct (result (m w)) as [a|e|c]; cbn [final after]; [apply Hm| |apply Hm].
  rewrite Hh. apply Hm.
Qed.

Lemma preserves_try_except_FileNotFoundError {A} (m h : M A) :
  preserves f m -> preserves f h -> preserves f (try_except_FileNotFoundError m h).
Proof.
  intros Hm Hh w. unfold try_except_FileNotFoundError.
  destruct (result (m w)) as [a|[p|p|p|p]|c]; cbn [final after]; try apply Hm.
  rewrite Hh. apply Hm.
Qed.

Lemma preserves_for_each {A} (l : list A) (body : A -> M unit) :
  (forall x, preserves f (body x)) -> preserves f (for_each l body).
Proof.
  intros Hb. induction l as [|x l IH]; simpl.
  - apply (preserves_ret tt).
  - apply preserves_bind; [apply Hb | intros _; exact IH].
Qed.

Lemma preserves_emit (ev : event) : preserves f (emit ev).
Proof. intros w. reflexivity. Qed.

Lemma preserves_sdk {A} (c : sdk_call) (ans : exn + A) : preserves f (sdk c ans).
Proof. intros w. unfold sdk. destruct ans; reflexivity. Qed.

Lemma preserves_input (prompt : list frag) : preserves f (input prompt).
Proof. intros w. unfold input. destruct (stdin w); cbn [final]; [reflexivity|apply f_stdin]. Qed.

Lemma preserves_read_wallet_file (path : string) : preserves f (read_wallet_file path).
Proof. intros w. unfold read_wallet_file. destruct (files w !! path); reflexivity. Qed.

Lemma preserves_wallet_reload (wl : wallet) : preserves f (wallet_reload wl).
Proof.
  intros w. unfold wallet_reload. destruct (reload_error wl (reloads wl)); reflexivity.
Qed.

Lemma preserves_Wallet_list_all : preserves f Wallet_list_all.
Proof. intros w. unfold Wallet_list_all. apply preserves_sdk. Qed.

Lemma preserves_next_round (t : transfer) (w : world) : f (next_round t w) = f w.
Proof.
  unfold next_round, time_sleep, transfer_reload.
  destruct (observed (script t (polls t))); cbn [final];
    rewrite f_naps, f_clock, f_clock; reflexivity.
Qed.

Lemma preserves_poll (timeout : Z) (t : transfer) (w : world) :
  f (final (poll timeout t w)) = f w.
Proof.
  revert t w. apply (poll_rounds_ind timeout).
  - intros t w H. rewrite poll_expired by exact H. reflexivity.
  - intros t w Hlt IH.
    destruct (observed (script t (polls t))) as [e|st] eqn:Hobs.
    + rewrite (poll_round_raises timeout t w e Hlt Hobs). apply f_clock.
    + rewrite (poll_round timeout t w st Hlt Hobs).
      rewrite (transfer_reload_observes t w st Hobs).
      unfold after. cbn [final].
      destruct (says "complete" st); [apply f_clock|].
      destruct (says "failed" st); [apply f_clock|].
      destruct (says "pending" st); [|apply f_clock].
      cbn [final]. rewrite (IH st eq_refl). apply preserves_next_round.
Qed.

Lemma preserves_wait (t : transfer) (m : Z) : preserves f (_wait_for_transfer t m).
Proof.
  intros w. unfold _wait_for_transfer, after, conclude. cbn [final].
  pose proof (preserves_poll (deadline w m) t w) as H.
  destruct (result (poll (deadline w m) t w)) as [[[b|] t']|e|c]; exact H.
Qed.

End Frame.

(** [frames tac] decomposes a goal [preserves f m] along [m]; [tac] shows
    that [f] does not look at the clock, the naps and the input. *)
Ltac frames tac :=
  lazymatch goal with
  | |- preserves _ (mret _) => apply preserves_ret
  | |- preserves _ (print _) => apply preserves_emit
  | |- preserves _ (emit _) => apply preserves_emit
  | |- preserves _ (input _) => apply preserves_input; tac
  | |- preserves _ (sdk _ _) => apply preserves_sdk
  | |- preserves _ (wallet_balances _) => apply preserves_sdk
  | |- preserves _ (wallet_transfer _ _ _ _ _) => apply preserves_sdk
  | |- preserves _ (wallet_faucet _) => apply preserves_sdk
  | |- preserves _ (faucet_wait _) => apply preserves_sdk
  | |- preserves _ (address_transfers _) => apply preserves_sdk
  | |- preserves _ (wallet_reload _) => apply preserves_wallet_reload
  | |- preserves _ Wallet_list_all => apply preserves_Wallet_list_all
  | |- preserves _ (read_wallet_file _) => apply preserves_read_wallet_file
  | |- preserves _ (_wait_for_transfer _ _) => apply preserves_wait; tac
  | |- preserves _ (print_balances _ _) =>
      unfold print_balances; apply preserves_for_each; intros ?; frames tac
  | |- preserves _ (for_each _ _) => apply preserves_for_each; intros ?; frames tac
  | |- preserves _ (try_except _ _) =>
      apply preserves_try_except; [ frames tac | intros ?; frames tac ]
  | |- preserves _ (try_except_FileNotFoundError _ _) =>
      apply preserves_try_except_FileNotFoundError; [ frames tac | frames tac ]
  | |- preserves _ (mbind _ _) => apply preserves_bind; [ frames tac | intros ?; frames tac ]
  | |- preserves _ (if ?b then _ else _) => destruct b; frames tac
  | |- preserves _ (match ?x with _ => _ end) => destruct x; frames tac
  | |- _ => idtac
  end.

(** X12.  [list_wallets] and [show_balance] only look: they leave the world
    as they found it (no file written, no line of input read, no sleep).
    [send_tokens] reads the operator's answer and waits, but leaves the
    storage alone: the record files, the [.env] file, the environment and
    the credentials file are after the call what they were before, however
    the call ends. *)
Theorem operations_leave_storage (self : manager) :
  preserves (fun w => w) (list_wallets self) /\
  (forall wallet_address, preserves (fun w => w) (show_balance self wallet_address)) /\
  (forall from_address to_address quantity asset_id,
     preserves storage (send_tokens self from_address to_address quantity asset_id)).
Proof.
  split; [|split].
  - unfold list_wallets. frames idtac.
  - intros wallet_address. unfold show_balance. frames idtac.
  - intros from_address to_address quantity asset_id.
    unfold send_tokens, send_tokens_error, send_from, check_balance, submit_and_follow.
    frames ltac:(intros; reflexivity).
Qed.

Lemma fund_wallet_only_looks (wl : wallet) : preserves (fun w => w) (fund_wallet wl).
Proof. unfold fund_wallet. frames idtac. Qed.

(** X13.  The one write of the program.  When [Wallet.create] answers,
    [create_wallet] leaves the world as it was but for the record file of
    the new address, which it writes without looking whether one exists;
    every other file is untouched, also when the funding fails.  When
    [Wallet.create] raises, nothing is written. *)
Theorem create_wallet_writes_one_record (self : manager) (w : world) :
  let r := create_wallet self w in
  match remote_create w (network self) with
  | inr wl =>
      let path := wallet_file_of self (address_id wl) in
      final r = set_files (<[path := record_of self wl]> (files w)) w /\
      (forall p, p <> path -> files (final r) !! p = files w !! p)
  | inl _ => final r = w
  end.
Proof.
  intros r.
  assert (Hfinal : final r =
                   match remote_create w (network self) with
                   | inr wl =>
                       set_files (<[wallet_file_of self (address_id wl) := record_of self wl]>
                                    (files w)) w
                   | inl _ => w
                   end).
  { subst r. unfold create_wallet.
    match goal with
    | |- final (try_except ?m ?h w) = _ =>
        assert (Hh : final (try_except m h w) = final (m w))
    end.
    { unfold try_except.
      destruct (result (_ w)) as [a|e|c]; cbn [final after]; reflexivity. }
    rewrite Hh. unfold mbind at 1. unfold M_bind, bind, Wallet_create_on, sdk.
    destruct (remote_create w (network self)) as [e|wl]; cbn [result final emitted after];
      [reflexivity|].
    cbv zeta.
    match goal with
    | |- final ((write_wallet_file ?p ?d ≫= ?k) w) = _ =>
        assert (Hk : preserves (fun w => w) (k tt))
          by (frames idtac; apply fund_wallet_only_looks);
        unfold mbind at 1; unfold M_bind, bind, write_wallet_file;
        cbn [result final emitted after]; exact (Hk _)
    end. }
  destruct (remote_create w (network self)) as [e|wl]; [exact Hfinal|].
  cbv zeta. split; [exact Hfinal|].
  intros p Hp. rewrite Hfinal. cbn [files set_files].
  apply lookup_insert_ne. congruence.
Qed.

(** ** [show_balance] *)

Lemma for_each_print_run {A} (l : list A) (line : A -> list frag) (w : world) :
  for_each l (fun x => print (line x)) w = Run (Return tt) (map (fun x => Print (line x)) l) w.
Proof.
  induction l as [|x l IH]; [reflexivity|].
  simpl. erewrite bind_run by reflexivity. rewrite IH. reflexivity.
Qed.

Lemma read_record_found (path : string) (wallet_info : wallet_data)
    (h : M (option wallet_data)) (w : world) :
  files w !! path = Some wallet_info ->
  try_except_FileNotFoundError
    (wallet_info ← read_wallet_file path; mret (Some wallet_info)) h w
  = Run (Return (Some wallet_info)) [] w.
Proof.
  intros H. unfold try_except_FileNotFoundError, read_wallet_file, mbind, M_bind, bind.
  rewrite H. reflexivity.
Qed.

Lemma after_nil {A} (r : run A) : after [] r = r.
Proof. destruct r. reflexivity. Qed.

Section ShowBalance.

Variables (self : manager) (wallet_address : string) (w : world).

(** X14.  What [show_balance] shows.  Without the record file, one line
    and no call of the service.  With it: the listing, then the wallet of
    that address reloaded, then its information, where the network is the
    one of the record file and the signing state the one after the reload,
    then the balances and the transfers, with a line of their own when
    there are none.  A call that raises ends the report there, with the
    error. *)
Theorem show_balance_report :
  let r := show_balance self wallet_address w in
  match files w !! wallet_file_of self wallet_address with
  | None =>
      emitted r = [ Print [Txt "Error: Wallet file not found at ";
                           Txt (wallet_file_of self wallet_address)] ]
  | Some wallet_info =>
      match remote_wallets w with
      | inl e => emitted r = Sdk Wallet_list :: show_balance_error e
      | inr wallets =>
          match find_wallet wallet_address wallets with
          | None =>
              emitted r = [ Sdk Wallet_list;
                            Print [Txt "Error: Wallet "; Txt wallet_address;
                                   Txt " not found in CDP"] ]
          | Some wl =>
              let information := wallet_information wallet_info wl wallet_address in
              match reload_error wl (reloads wl),
                    balances_result (wallet_now (wallet_reloaded wl)),
                    transfers_result wl with
              | Some e, _, _ =>
                  emitted r = Sdk Wallet_list :: Sdk (Wallet_reload (wallet_id wl))
                              :: show_balance_error e
              | None, inl e, _ =>
                  emitted r = (information ++ show_balance_error e)%list
              | None, inr balances, inl e =>
                  emitted r = (information ++ current_balances wl balances
                               ++ show_balance_error e)%list
              | None, inr balances, inr transfers =>
                  emitted r = (information ++ current_balances wl balances
                               ++ transfer_history transfers)%list
              end
          end
      end
  end.
Proof.
  intros r. subst r.
  destruct (files w !! wallet_file_of self wallet_address) as [info|] eqn:Hfile.
  2:{ unfold show_balance, try_except, mbind, M_bind, bind, try_except_FileNotFoundError,
        read_wallet_file.
      rewrite Hfile. reflexivity. }
  destruct (remote_wallets w) as [e|wallets] eqn:Hlist.
  { unfold show_balance. cbv zeta.
    erewrite try_except_raises.
    2:{ erewrite bind_run by (apply read_record_found; exact Hfile). rewrite after_nil.
        apply bind_raises. unfold Wallet_list_all, sdk. rewrite Hlist. reflexivity. }
    reflexivity. }
  destruct (find_wallet wallet_address wallets) as [wl|] eqn:Hfind.
  2:{ unfold show_balance. cbv zeta.
      erewrite try_except_returns.
      2:{ erewrite bind_run by (apply read_record_found; exact Hfile). rewrite after_nil.
          erewrite bind_run by (unfold Wallet_list_all, sdk; rewrite Hlist; reflexivity).
          rewrite Hfind. reflexivity. }
      reflexivity. }
  cbv zeta.
  destruct (reload_error wl (reloads wl)) as [e|] eqn:Hre.
  { unfold show_balance. cbv zeta.
    erewrite try_except_raises.
    2:{ erewrite bind_run by (apply read_record_found; exact Hfile). rewrite after_nil.
        erewrite bind_run by (unfold Wallet_list_all, sdk; rewrite Hlist; reflexivity).
        rewrite Hfind.
        erewrite bind_raises by (unfold wallet_reload; rewrite Hre; reflexivity).
        reflexivity. }
    reflexivity. }
  unfold show_balance. cbv zeta.
  erewrite try_except_after.
  2:{ erewrite bind_run by (apply read_record_found; exact Hfile). rewrite after_nil.
      erewrite bind_run by (unfold Wallet_list_all, sdk; rewrite Hlist; reflexivity).
      rewrite Hfind.
      erewrite bind_run by (unfold wallet_reload; rewrite Hre; reflexivity).
      fold (wallet_reloaded wl).
      do 7 (erewrite bind_run by reflexivity).
      rewrite !after_after. reflexivity. }
  destruct (balances_result (wallet_now (wallet_reloaded wl))) as [e|balances] eqn:Hbal.
  { erewrite try_except_raises
      by (apply bind_raises; unfold wallet_balances, sdk; rewrite Hbal; reflexivity).
    reflexivity. }
  assert (Hshown : forall w0,
             match balances with
             | [] => print [Txt "No balances found"]
             | _ :: _ => print_balances [] balances
             end w0
             = Run (Return tt) (balances_or [Print [Txt "No balances found"]] [] balances) w0).
  { intros w0. destruct balances; [reflexivity | apply print_balances_run]. }
  destruct (transfers_result wl) as [e|transfers] eqn:Htr.
  { erewrite try_except_raises.
    2:{ erewrite bind_run by (unfold wallet_balances, sdk; rewrite Hbal; reflexivity).
        erewrite bind_run by apply Hshown.
        erewrite bind_run by reflexivity.
        erewrite bind_raises by (unfold address_transfers, sdk; cbn [wallet_reloaded transfers_result]; rewrite Htr;
              reflexivity).
        reflexivity. }
    unfold after, current_balances, wallet_information. cbn [emitted result final].
    rewrite <- !app_assoc. reflexivity. }
  erewrite try_except_returns.
  2:{ erewrite bind_run by (unfold wallet_balances, sdk; rewrite Hbal; reflexivity).
      erewrite bind_run by apply Hshown.
      erewrite bind_run by reflexivity.
      erewrite bind_run by (unfold address_transfers, sdk; cbn [wallet_reloaded transfers_result]; rewrite Htr;
              reflexivity).
      assert (Hhist : forall w0,
                 match transfers with
                 | [] => print [Txt "No transfer history found"]
                 | _ :: _ => for_each transfers (fun tr => print [Txt "Transfer: "; Txt tr])
                 end w0
                 = Run (Return tt) (transfer_history transfers) w0).
      { intros w0. destruct transfers; [reflexivity|].
        apply (for_each_print_run _ (fun tr => [Txt "Transfer: "; Txt tr])). }
      rewrite Hhist. reflexivity. }
  unfold after, current_balances, wallet_information. cbn [emitted result final].
  rewrite <- !app_assoc. reflexivity.
Qed.

End ShowBalance.

(** ** [list_wallets] *)

Lemma for_each_blocks {A} (body : A -> M unit) (block : A -> list event) (P : A -> Prop) :
  (forall x w, P x -> body x w = Run (Return tt) (block x) w) ->
  forall good more w,
    Forall P good ->
    for_each (good ++ more) body w = after (concat (map block good)) (for_each more body w).
Proof.
  intros Hbody good more w Hgood. induction Hgood as [|x good Hx Hgood IH].
  - simpl. symmetry. apply after_nil.
  - simpl. erewrite bind_run by (apply Hbody; exact Hx).
    rewrite IH, after_after. reflexivity.
Qed.

Ltac list_wallets_body_on_healthy :=
  let x := fresh "wl" in
  let w0 := fresh "w0" in
  let Hh := fresh "Hh" in
  let Hre := fresh "Hre" in
  let Hbal := fresh "Hbal" in
  let e := fresh "e" in
  let balances := fresh "balances" in
  intros x w0 Hh; unfold healthy, wallet_failure in Hh;
  destruct (reload_error x (reloads x)) as [e|] eqn:Hre; [discriminate Hh|];
  destruct (balances_result (wallet_now (wallet_reloaded x))) as [e|balances] eqn:Hbal;
    [discriminate Hh|];
  do 5 (erewrite bind_run by reflexivity);
  erewrite bind_run by (unfold wallet_reload; rewrite Hre; reflexivity);
  fold (wallet_reloaded x);
  erewrite bind_run by (unfold wallet_balances, sdk; rewrite Hbal; reflexivity);
  unfold wallet_block, balances_after_reload; rewrite Hbal;
  destruct balances;
    [ erewrite bind_run by reflexivity; reflexivity
    | erewrite bind_run
        by (erewrite bind_run by reflexivity; rewrite print_balances_run; reflexivity);
      reflexivity ].

Section ListWallets.

Variables (self : manager) (w : world).

(** X15.  [list_wallets] on wallets that reload and answer their balances:
    the count, then one block per wallet of the listing, in its order.  A
    block shows the signing state as listed, before the reload, and the
    balances as they are after it. *)
Theorem list_wallets_shows_all (wallets : list wallet) :
  remote_wallets w = inr wallets ->
  Forall healthy wallets ->
  list_wallets self w =
  Run (Return tt) (listing_head (length wallets) ++ concat (map wallet_block wallets)) w.
Proof.
  intros Hlist Hall. unfold list_wallets.
  erewrite try_except_returns; [reflexivity|].
  erewrite bind_run by reflexivity.
  erewrite bind_run by (unfold Wallet_list_all, sdk; rewrite Hlist; reflexivity).
  erewrite bind_run by reflexivity.
  rewrite <- (app_nil_r wallets) at 2.
  erewrite for_each_blocks with (P := healthy) (block := wallet_block);
    [ | list_wallets_body_on_healthy | exact Hall ].
  unfold after, listing_head. cbn [result emitted final for_each mret M_ret ret].
  rewrite app_nil_r. reflexivity.
Qed.

(** X16.  One wallet that fails hides the rest.  When the reload or the
    balances of a wallet of the listing raise, [list_wallets] has shown the
    wallets before it, shows the first lines of that one, reports the error
    and returns: the wallets after it are not shown, although the count
    printed first includes them. *)
Theorem list_wallets_stops_at_failure (good : list wallet) (bad : wallet)
    (rest : list wallet) (calls : list event) (e : exn) :
  remote_wallets w = inr (good ++ bad :: rest)%list ->
  Forall healthy good ->
  wallet_failure bad = Some (calls, e) ->
  list_wallets self w =
  Run (Return tt)
      (listing_head (List.length good + 1 + List.length rest)
       ++ concat (map wallet_block good)
       ++ wallet_lines bad ++ calls ++ list_wallets_error e)%list w.
Proof.
  intros Hlist Hall Hbad. unfold wallet_failure in Hbad.
  assert (Hcount : (List.length (good ++ bad :: rest) = List.length good + 1 + List.length rest)%nat)
    by (rewrite length_app; cbn [length]; lia).
  destruct (reload_error bad (reloads bad)) as [e'|] eqn:Hre.
  - injection Hbad as <- <-. unfold list_wallets.
    erewrite try_except_raises.
    2:{ erewrite bind_run by reflexivity.
        erewrite bind_run by (unfold Wallet_list_all, sdk; rewrite Hlist; reflexivity).
        erewrite bind_run by reflexivity.
        erewrite for_each_blocks with (P := healthy) (block := wallet_block);
          [ | list_wallets_body_on_healthy | exact Hall ].
        cbn [for_each].
        erewrite bind_raises.
        2:{ do 5 (erewrite bind_run by reflexivity).
            erewrite bind_raises by (unfold wallet_reload; rewrite Hre; reflexivity).
            reflexivity. }
        reflexivity. }
    rewrite Hcount.
    unfold after, listing_head, list_wallets_error, wallet_lines.
    cbn [result emitted final app]. f_equal. rewrite <- !app_assoc. reflexivity.
  - destruct (balances_result (wallet_now (wallet_reloaded bad))) as [e'|b] eqn:Hbal;
      [|discriminate Hbad].
    injection Hbad as <- <-. unfold list_wallets.
    erewrite try_except_raises.
    2:{ erewrite bind_run by reflexivity.
        erewrite bind_run by (unfold Wallet_list_all, sdk; rewrite Hlist; reflexivity).
        erewrite bind_run by reflexivity.
        erewrite for_each_blocks with (P := healthy) (block := wallet_block);
          [ | list_wallets_body_on_healthy | exact Hall ].
        cbn [for_each].
        erewrite bind_raises.
        2:{ do 5 (erewrite bind_run by reflexivity).
            erewrite bind_run by (unfold wallet_reload; rewrite Hre; reflexivity).
            fold (wallet_reloaded bad).
            erewrite bind_raises by (unfold wallet_balances, sdk; rewrite Hbal; reflexivity).
            reflexivity. }
        reflexivity. }
    rewrite Hcount.
    unfold after, listing_head, list_wallets_error, wallet_lines.
    cbn [result emitted final app]. f_equal. rewrite <- !app_assoc. reflexivity.
Qed.

End ListWallets.

Lemma list_wallets_shows_all_witness :
  let wl := sample_wallet (scripted_transfer [] "complete") in
  let w := sample_world [wl; wl] ∅ [] in
  list_wallets sample_manager w =
  Run (Return tt) (listing_head 2 ++ wallet_block wl ++ wallet_block wl) w.
Proof.
  cbv zeta.
  rewrite (list_wallets_shows_all sample_manager
             (sample_world [sample_wallet (scripted_transfer [] "complete");
                            sample_wallet (scripted_transfer [] "complete")] ∅ [])
             [sample_wallet (scripted_transfer [] "complete");
              sample_wallet (scripted_transfer [] "complete")]
             eq_refl).
  - cbn [length map concat]. rewrite app_nil_r. reflexivity.
  - repeat constructor.
Defined.

Lemma list_wallets_stops_at_failure_witness :
  let wl := sample_wallet (scripted_transfer [] "complete") in
  let down := unreachable_wallet "w-2" "0xC" in
  let w := sample_world [wl; down; wl] ∅ [] in
  list_wallets sample_manager w =
  Run (Return tt)
      (listing_head 3 ++ wallet_block wl ++ wallet_lines down
       ++ [Sdk (Wallet_reload "w-2")]
       ++ list_wallets_error (Exception "503 Service Unavailable")) w.
Proof.
  cbv zeta.
  rewrite (list_wallets_stops_at_failure sample_manager
             (sample_world [sample_wallet (scripted_transfer [] "complete");
                            unreachable_wallet "w-2" "0xC";
                            sample_wallet (scripted_transfer [] "complete")] ∅ [])
             [sample_wallet (scripted_transfer [] "complete")]
             (unreachable_wallet "w-2" "0xC")
             [sample_wallet (scripted_transfer [] "complete")]
             [Sdk (Wallet_reload "w-2")] (Exception "503 Service Unavailable")
             eq_refl).
  - cbn [length map concat Nat.add]. rewrite app_nil_r. reflexivity.
  - repeat constructor.
  - reflexivity.
Defined.

(** ** What [main] submits *)

Lemma init_not_submissions (w : world) :
  Forall (fun ev => ~ is_submission ev) (emitted (WalletManager_init w)).
Proof.
  unfold WalletManager_init, mbind, M_bind, bind. rewrite load_credentials_run.
  destruct (key_file w); cbn [negb result emitted final after].
  - destruct (configure_error w) as [e|]; cbn [result emitted final after].
    + repeat constructor; not_a_submission.
    + rewrite load_env_config_run. cbn [emitted].
      destruct (dotenv w); repeat constructor; not_a_submission.
  - repeat constructor; not_a_submission.
Qed.

Lemma create_wallet_not_submissions (self : manager) :
  behaves (fun ev => ~ is_submission ev) (fun _ => True) (create_wallet self).
Proof.
  unfold create_wallet, create_wallet_error, fund_wallet.
  apply behaves_try_except.
  - eapply behaves_bind with (Q := fun _ => True).
    + intros w0. unfold Wallet_create_on, sdk.
      destruct (remote_create w0 (network self));
        (split; [repeat constructor; not_a_submission | intros; exact I]).
    + intros wl _. cbv zeta.
      eapply behaves_bind with (Q := fun _ => True).
      * intros w0. split; [constructor | intros; exact I].
      * intros _ _. walk not_a_submission.
  - intros e.
    eapply behaves_bind; [ walk not_a_submission | intros _ _ ].
    eapply behaves_bind; [ walk not_a_submission | intros _ _ ].
    intros w0. split; [constructor | intros a Ha; discriminate Ha].
Qed.

Lemma list_wallets_not_submissions (self : manager) :
  behaves (fun ev => ~ is_submission ev) (fun _ => True) (list_wallets self).
Proof. unfold list_wallets. walk not_a_submission. Qed.

Lemma show_balance_not_submissions (self : manager) (wallet_address : string) :
  behaves (fun ev => ~ is_submission ev) (fun _ => True) (show_balance self wallet_address).
Proof. unfold show_balance. walk not_a_submission. Qed.

Lemma bind_emitted {A B} (m : M A) (k : A -> M B) (w : world) :
  emitted ((m ≫= k) w) =
  (emitted (m w) ++ match result (m w) with
                    | Return a => emitted (k a (final (m w)))
                    | _ => []
                    end)%list.
Proof.
  unfold mbind, M_bind, bind.
  destruct (result (m w)); cbn [emitted after]; rewrite ?app_nil_r; reflexivity.
Qed.

Lemma nothing_submitted (l : list event) :
  Forall (fun ev => ~ is_submission ev) l -> ~ Exists is_submission l.
Proof.
  intros H Hex. apply List.Exists_exists in Hex. destruct Hex as (ev & Hin & Hs).
  rewrite List.Forall_forall in H. exact (H ev Hin Hs).
Qed.

Section Submissions.

Variable builtin_float : string -> exn + float.

(** X17.  The program transfers only when asked and confirmed.  If a run of
    [main] calls [wallet.transfer], then the command was [send] with four
    arguments, the start-up succeeded, [float] read the quantity, and the
    operator's first line of input was "yes" in any case of the letters. *)
Theorem main_submits_only_confirmed (argv : list string) (w : world) :
  Exists is_submission (emitted (main builtin_float argv w)) ->
  command_of argv = "send" /\ length argv = 6%nat /\
  key_file w = true /\ configure_error w = None /\
  (exists quantity, builtin_float (argv_at argv 4) = inr quantity) /\
  confirms w.
Proof.
  unfold main.
  destruct (Nat.ltb_spec (length argv) 2) as [Hlen|Hlen].
  { intros Hex. exfalso. revert Hex. apply nothing_submitted.
    repeat constructor; not_a_submission. }
  rewrite bind_emitted. intros Hex.
  apply Exists_app in Hex. destruct Hex as [Hex|Hex].
  { exfalso. revert Hex. apply nothing_submitted, init_not_submissions. }
  destruct (init_cases w) as [(Hk & Hc & Hinit)|(_ & Hres & _)].
  2:{ rewrite Hres in Hex. inversion Hex. }
  rewrite Hinit, load_env_config_run in Hex. unfold after in Hex.
  cbn [result final] in Hex.
  destruct (mkdir_error w (wallet_path (configured w))) as [e|]; [inversion Hex|].
  set (mgr := configured w) in Hex. set (w' := set_environ _ _) in Hex.
  assert (Hstdin : stdin w' = stdin w) by reflexivity.
  fold (command_of argv) in Hex.
  destruct (String.eqb_spec (command_of argv) "create-wallet") as [_|_].
  { exfalso. revert Hex. apply nothing_submitted, (create_wallet_not_submissions mgr w'). }
  destruct (String.eqb_spec (command_of argv) "list-wallets") as [_|_].
  { exfalso. revert Hex. apply nothing_submitted, (list_wallets_not_submissions mgr w'). }
  destruct (String.eqb_spec (command_of argv) "send") as [E3|_].
  { destruct (Nat.eqb_spec (length argv) 6) as [L|_]; cbn [andb] in Hex.
    - rewrite bind_emitted in Hex. unfold float_of_str in Hex.
      destruct (builtin_float (argv_at argv 4)) as [e|q] eqn:Hq;
        cbn [result emitted final app] in Hex; [inversion Hex|].
      destruct (send_tokens_submission_confirmed _ _ _ _ _ _ Hex)
        as [_ (answer & rest & Hin & Hyes)].
      repeat split; try assumption.
      + exists q. reflexivity.
      + exists answer, rest. rewrite <- Hstdin. split; assumption.
    - destruct (String.eqb_spec (command_of argv) "show-balance") as [E4|_];
        [rewrite E3 in E4; discriminate E4|].
      exfalso. revert Hex. apply nothing_submitted. repeat constructor; not_a_submission. }
  destruct (String.eqb_spec (command_of argv) "show-balance") as [_|_].
  { destruct (Nat.eqb_spec (length argv) 3) as [_|_]; cbn [andb] in Hex.
    - exfalso. revert Hex. apply nothing_submitted, (show_balance_not_submissions mgr _ w').
    - exfalso. revert Hex. apply nothing_submitted. repeat constructor; not_a_submission. }
  exfalso. revert Hex. apply nothing_submitted. repeat constructor; not_a_submission.
Qed.

End Submissions.

Lemma main_submits_only_confirmed_witness :
  let argv := ["wallet_manager.py"; "SEND"; "0xA"; "0xB"; "0.5"; "usdc"] in
  let w := sample_world [sample_wallet (scripted_transfer [] "complete")] sample_disk ["Yes"] in
  let read := fun _ : string => inr 0.5%float : exn + float in
  Exists is_submission (emitted (main read argv w)) /\
  command_of argv = "send" /\ length argv = 6%nat /\
  key_file w = true /\ configure_error w = None /\
  (exists quantity, read (argv_at argv 4) = inr quantity) /\
  confirms w.
Proof.
  assert (Hex : Exists is_submission
                  (emitted (main (fun _ : string => inr 0.5%float : exn + float)
                     ["wallet_manager.py"; "SEND"; "0xA"; "0xB"; "0.5"; "usdc"]
                     (sample_world [sample_wallet (scripted_transfer [] "complete")]
                        sample_disk ["Yes"])))).
  { apply List.Exists_exists.
    exists (Sdk (Wallet_transfer "w-1" 0.5 "usdc" "0xB" true)). split.
    - vm_compute. repeat (first [left; reflexivity | right]).
    - repeat eexists. }
  split; [exact Hex|].
  exact (main_submits_only_confirmed _ _ _ Hex).
Defined.

(** ** The keyword test and the case of letters *)

Lemma prefix_spec (a b : string) :
  String.prefix a b = true <-> exists post, b = a +:+ post.
Proof.
  revert b. induction a as [|x a IH]; intros b.
  - split; [intros _; exists b; reflexivity | intros _; destruct b; reflexivity].
  - destruct b as [|y b]; simpl.
    + split; [discriminate | intros [post H]; discriminate H].
    + destruct (ascii_dec x y) as [->|Hne].
      * rewrite IH. split; intros [post H]; exists post.
        -- rewrite H. reflexivity.
        -- injection H as H. exact H.
      * split; [discriminate|]. intros [post H]. injection H as Hxy _.
        congruence.
Qed.

Lemma str_in_spec (needle hay : string) :
  str_in needle hay = true <-> exists pre post, hay = pre +:+ needle +:+ post.
Proof.
  induction hay as [|c hay IH].
  - cbn [str_in]. rewrite orb_false_r, prefix_spec. split.
    + intros [post H]. exists "", post. exact H.
    + intros (pre & post & H). destruct pre as [|x pre]; [exists post; exact H|].
      discriminate H.
  - cbn [str_in]. rewrite orb_true_iff, prefix_spec, IH. split.
    + intros [[post H]|(pre & post & H)].
      * exists "", post. exact H.
      * exists (String c pre), post. rewrite H. reflexivity.
    + intros (pre & post & H). destruct pre as [|x pre].
      * left. exists post. exact H.
      * right. injection H as _ H. exists pre, post. exact H.
Qed.

Lemma lower_char_idempotent (c : ascii) : lower_char (lower_char c) = lower_char c.
Proof.
  unfold lower_char. destruct (is_upper c) eqn:Hc; [|rewrite Hc; reflexivity].
  unfold is_upper in *. apply andb_prop in Hc as [H1 H2].
  apply Nat.leb_le in H1, H2.
  rewrite nat_ascii_embedding by lia.
  destruct ((65 <=? nat_of_ascii c + 32)%nat && (nat_of_ascii c + 32 <=? 90)%nat) eqn:E;
    [|reflexivity].
  apply andb_prop in E as [_ E2]. apply Nat.leb_le in E2. lia.
Qed.

Lemma lower_idempotent (s : string) : lower (lower s) = lower s.
Proof.
  induction s as [|c s IH]; [reflexivity|].
  simpl. rewrite lower_char_idempotent, IH. reflexivity.
Qed.

Lemma lower_app (a b : string) : lower (a +:+ b) = lower a +:+ lower b.
Proof. induction a as [|c a IH]; [reflexivity|]. simpl. rewrite IH. reflexivity. Qed.

(** X18.  What the keyword tests of the polling loop accept: a status says
    a keyword exactly when its lower-cased text has the keyword somewhere
    inside, so the test does not see the case of the letters of the status
    and accepts the keyword inside a longer word: "INCOMPLETE" says
    "complete". *)
Theorem says_iff_inside (keyword status_text : string) :
  (says keyword status_text = true <->
   exists before after, lower status_text = before +:+ keyword +:+ after) /\
  says keyword (lower status_text) = says keyword status_text /\
  (forall before after,
     says (lower keyword) (before +:+ keyword +:+ after) = true).
Proof.
  unfold says. split; [apply str_in_spec|]. split.
  - rewrite lower_idempotent. reflexivity.
  - intros before after. apply str_in_spec.
    exists (lower before), (lower after). rewrite !lower_app. reflexivity.
Qed.

(** X19.  The command and the asset are read without the case of their
    letters, and the name of the program is not read at all: two
    invocations whose commands are equal in lower case and whose arguments
    are the same do the same, and so do two calls of [send_tokens] whose
    assets are equal in lower case. *)
Theorem inputs_read_in_lower_case :
  (forall builtin_float prog prog' cmd cmd' args,
     lower cmd = lower cmd' ->
     main builtin_float (prog :: cmd :: args) = main builtin_float (prog' :: cmd' :: args)) /\
  (forall self from_address to_address quantity asset_id asset_id',
     lower asset_id = lower asset_id' ->
     send_tokens self from_address to_address quantity asset_id
     = send_tokens self from_address to_address quantity asset_id').
Proof.
  split.
  - intros builtin_float prog prog' cmd cmd' args H.
    unfold main, argv_at. cbn [length nth]. rewrite H. reflexivity.
  - intros self from_address to_address quantity asset_id asset_id' H.
    unfold send_tokens, send_from, check_balance. rewrite H. reflexivity.
Qed.

(** ** [send_tokens]: after the transfer *)

Lemma optional_line_run {A} (o : option A) (line : A -> list frag) (w : world) :
  match o with
  | Some x => print (line x)
  | None => mret tt
  end w
  = Run (Return tt) (match o with Some x => [Print (line x)] | None => [] end) w.
Proof. destruct o; reflexivity. Qed.

Lemma run_eta {A} (r : run A) : r = Run (result r) (emitted r) (final r).
Proof. destruct r. reflexivity. Qed.

(** X20.  An error after the transfer is reported as an error of the
    sending.  When the transfer was submitted and [_wait_for_transfer]
    answered [True], and then the reload of the wallet or its balances
    raise, the operator reads "Transfer completed successfully!" and, last,
    "Error sending tokens": the tokens are sent, and [send_tokens]
    returns. *)
Theorem send_tokens_error_after_completion (self : manager)
    (from_address to_address : string) (quantity : float) (asset_id : string) (w : world)
    (wallet_info : wallet_data) (wl : wallet) (balances : balances_t)
    (tr t' : transfer) (calls : list event) (e : exn) :
  gets_to_question self from_address quantity asset_id w wallet_info wl balances ->
  confirms w ->
  transfer_result (wallet_reloaded wl) quantity (lower asset_id) to_address
                  (String.eqb (lower asset_id) "usdc") = inr tr ->
  result (_wait_for_transfer tr default_timeout_minutes (set_stdin (tl (stdin w)) w))
  = Return (true, t') ->
  wallet_failure (wallet_reloaded wl) = Some (calls, e) ->
  let r := send_tokens self from_address to_address quantity asset_id w in
  result r = Return tt /\
  Exists is_submission (emitted r) /\
  In (Print [Nl; Txt "Transfer completed successfully!"]) (emitted r) /\
  exists before,
    emitted r = (before ++ [ Print [Txt "Error sending tokens: "; Txt (exn_str e)];
                             Print [Traceback e] ])%list.
Proof.
  intros Hq (answer & rest & Hin & Hyes) Htr Hwait Hfail r. subst r.
  rewrite Hin in Hwait. cbn [tl] in Hwait.
  rewrite (send_tokens_confirmed _ _ to_address _ _ _ _ _ _ Hq answer rest Hin Hyes).
  set (wl' := wallet_reloaded wl) in *.
  set (w1 := set_stdin rest w) in *.
  assert (Hrun : exists evs w2,
             submit_and_follow wl' to_address quantity (lower asset_id) w1
             = Run (Raise e) evs w2 /\
             Exists is_submission evs /\
             In (Print [Nl; Txt "Transfer completed successfully!"]) evs).
  { unfold wallet_failure in Hfail.
    pose proof (run_eta (_wait_for_transfer tr default_timeout_minutes w1)) as Hw.
    rewrite Hwait in Hw.
    destruct (reload_error wl' (reloads wl')) as [e'|] eqn:Hre.
    - injection Hfail as _ <-.
      eexists _, _. split.
      + unfold submit_and_follow.
        erewrite bind_run by reflexivity. cbv zeta.
        erewrite bind_run by reflexivity.
        erewrite bind_run by (unfold wallet_transfer, sdk; rewrite Htr; reflexivity).
        erewrite bind_run by reflexivity.
        erewrite bind_run by exact Hw. cbv beta iota.
        erewrite bind_run by reflexivity.
        erewrite bind_run by apply optional_line_run.
        erewrite bind_run by apply optional_line_run.
        erewrite bind_raises by (unfold wallet_reload; rewrite Hre; reflexivity).
        unfold after. cbn [result emitted final]. reflexivity.
      + split.
        * apply List.Exists_exists. eexists. split; [|repeat eexists].
          cbn [app]. right. right. left. reflexivity.
        * cbn [app]. do 4 right. apply in_or_app. right. left. reflexivity.
    - destruct (balances_result (wallet_now (wallet_reloaded wl'))) as [e'|b] eqn:Hbal;
        [|discriminate Hfail].
      injection Hfail as _ <-.
      eexists _, _. split.
      + unfold submit_and_follow.
        erewrite bind_run by reflexivity. cbv zeta.
        erewrite bind_run by reflexivity.
        erewrite bind_run by (unfold wallet_transfer, sdk; rewrite Htr; reflexivity).
        erewrite bind_run by reflexivity.
        erewrite bind_run by exact Hw. cbv beta iota.
        erewrite bind_run by reflexivity.
        erewrite bind_run by apply optional_line_run.
        erewrite bind_run by apply optional_line_run.
        erewrite bind_run by (unfold wallet_reload; rewrite Hre; reflexivity).
        fold (wallet_reloaded wl').
        erewrite bind_run by reflexivity.
        erewrite bind_raises by (unfold wallet_balances, sdk; rewrite Hbal; reflexivity).
        unfold after. cbn [result emitted final]. reflexivity.
      + split.
        * apply List.Exists_exists. eexists. split; [|repeat eexists].
          cbn [app]. right. right. left. reflexivity.
        * cbn [app]. do 4 right. apply in_or_app. right. left. reflexivity. }
  destruct Hrun as (evs & w2 & Hrun & Hsub & Hdone).
  erewrite try_except_raises by exact Hrun.
  unfold after, send_tokens_error. cbn [result emitted final].
  split; [reflexivity|]. split; [|split].
  - apply Exists_app. right. apply Exists_app. left. exact Hsub.
  - apply in_or_app. right. apply in_or_app. left. exact Hdone.
  - eexists. rewrite app_assoc. reflexivity.
Qed.

Lemma send_tokens_error_after_completion_witness :
  let w := sample_world [fading_wallet (scripted_transfer [] "complete")] sample_disk ["yes"] in
  let r := send_tokens sample_manager "0xA" "0xB" 0.5 "usdc" w in
  let e := Exception "429 Too Many Requests" in
  result r = Return tt /\
  Exists is_submission (emitted r) /\
  In (Print [Nl; Txt "Transfer completed successfully!"]) (emitted r) /\
  exists before,
    emitted r = (before ++ [ Print [Txt "Error sending tokens: "; Txt (exn_str e)];
                             Print [Traceback e] ])%list.
Proof.
  apply (send_tokens_error_after_completion sample_manager "0xA" "0xB" 0.5 "usdc"
           (sample_world [fading_wallet (scripted_transfer [] "complete")] sample_disk ["yes"])
           sample_record (fading_wallet (scripted_transfer [] "complete"))
           [("usdc", sample_decimal 5 "5")]
           (scripted_transfer [] "complete")
           (reloaded (scripted_transfer [] "complete") "complete")
           [Sdk (Wallet_reload "w-1")] (Exception "429 Too Many Requests")).
  - split; [reflexivity|]. split; [eexists; split; reflexivity|].
    repeat split; reflexivity.
  - exists "yes", []. split; reflexivity.
  - reflexivity.
  - vm_compute. reflexivity.
  - reflexivity.
Defined.

(** X21.  The end of a completed sending.  When the transfer was submitted,
    [_wait_for_transfer] answered [True], and the wallet reloads and
    answers its balances once more, [send_tokens] ends with the receipt
    (the hash and the link that the transfer has after the polling) and the
    balances as they are after this second reload, not the ones it checked
    before the transfer. *)
Theorem send_tokens_completed (self : manager)
    (from_address to_address : string) (quantity : float) (asset_id : string) (w : world)
    (wallet_info : wallet_data) (wl : wallet) (balances : balances_t)
    (tr t' : transfer) (updated : balances_t) :
  gets_to_question self from_address quantity asset_id w wallet_info wl balances ->
  confirms w ->
  transfer_result (wallet_reloaded wl) quantity (lower asset_id) to_address
                  (String.eqb (lower asset_id) "usdc") = inr tr ->
  result (_wait_for_transfer tr default_timeout_minutes (set_stdin (tl (stdin w)) w))
  = Return (true, t') ->
  reload_error wl (S (reloads wl)) = None ->
  balances_result (state_after wl (S (S (reloads wl)))) = inr updated ->
  let r := send_tokens self from_address to_address quantity asset_id w in
  result r = Return tt /\
  exists before,
    emitted r = (before ++ receipt t'
                 ++ [ Sdk (Wallet_reload (wallet_id wl));
                      Print [Nl; Txt "Updated balance:"];
                      Sdk (Wallet_balances (wallet_id wl)) ]
                 ++ balance_lines [] updated)%list.
Proof.
  intros Hq (answer & rest & Hin & Hyes) Htr Hwait Hre Hbal r. subst r.
  rewrite Hin in Hwait. cbn [tl] in Hwait.
  rewrite (send_tokens_confirmed _ _ to_address _ _ _ _ _ _ Hq answer rest Hin Hyes).
  pose proof (run_eta (_wait_for_transfer tr default_timeout_minutes (set_stdin rest w)))
    as Hw.
  rewrite Hwait in Hw.
  erewrite try_except_returns.
  2:{ unfold submit_and_follow.
      erewrite bind_run by reflexivity. cbv zeta.
      erewrite bind_run by reflexivity.
      erewrite bind_run by (unfold wallet_transfer, sdk; rewrite Htr; reflexivity).
      erewrite bind_run by reflexivity.
      erewrite bind_run by exact Hw. cbv beta iota.
      erewrite bind_run by reflexivity.
      erewrite bind_run by apply optional_line_run.
      erewrite bind_run by apply optional_line_run.
      erewrite bind_run
        by (unfold wallet_reload; cbn [wallet_reloaded reloads reload_error];
            rewrite Hre; reflexivity).
      erewrite bind_run by reflexivity.
      erewrite bind_run
        by (unfold wallet_balances, sdk, wallet_now;
            cbn [wallet_reloaded reloads state_after]; rewrite Hbal; reflexivity).
      rewrite print_balances_run. reflexivity. }
  unfold after. cbn [result emitted final].
  split; [reflexivity|].
  exists (up_to_question wallet_info wl from_address to_address quantity asset_id balances
          ++ [ Print [Nl; Txt "Preparing transaction..."];
               Print [Txt "Creating transfer..."];
               Sdk (Wallet_transfer (wallet_id wl) quantity (lower asset_id) to_address
                      (String.eqb (lower asset_id) "usdc"));
               Print [Txt "Transfer created with status: "; Txt (status tr)] ]
          ++ emitted (_wait_for_transfer tr default_timeout_minutes (set_stdin rest w)))%list.
  unfold receipt, wallet_reloaded. cbn [wallet_id].
  rewrite <- !app_assoc. f_equal. cbn [app]. do 4 f_equal.
  f_equal. f_equal. rewrite <- !app_assoc. reflexivity.
Qed.

Lemma send_tokens_completed_witness :
  let tr := scripted_transfer [] "complete" in
  let wl := sample_wallet tr in
  let held := [("eth", sample_decimal 1 "1"); ("usdc", sample_decimal 5 "5")] in
  let r := send_tokens sample_manager "0xA" "0xB" 0.5 "usdc"
             (sample_world [wl] sample_disk ["yes"]) in
  result r = Return tt /\
  exists before,
    emitted r = (before ++ receipt (reloaded tr "complete")
                 ++ [ Sdk (Wallet_reload "w-1");
                      Print [Nl; Txt "Updated balance:"];
                      Sdk (Wallet_balances "w-1") ]
                 ++ balance_lines [] held)%list.
Proof.
  apply (send_tokens_completed sample_manager "0xA" "0xB" 0.5 "usdc"
           (sample_world [sample_wallet (scripted_transfer [] "complete")] sample_disk ["yes"])
           sample_record (sample_wallet (scripted_transfer [] "complete"))
           [("eth", sample_decimal 1 "1"); ("usdc", sample_decimal 5 "5")]
           (scripted_transfer [] "complete")
           (reloaded (scripted_transfer [] "complete") "complete")
           [("eth", sample_decimal 1 "1"); ("usdc", sample_decimal 5 "5")]).
  - split; [reflexivity|]. split; [eexists; split; reflexivity|].
    repeat split; reflexivity.
  - exists "yes", []. split; reflexivity.
  - reflexivity.
  - vm_compute. reflexivity.
  - reflexivity.
  - reflexivity.
Defined.

(** ** [main]: a quantity that is no number *)

Lemma main_send_malformed_quantity_witness :
  let e := ValueError "could not convert string to float: 'lots'" in
  let read := fun _ : string => inl e : exn + float in
  let w := sample_world [] sample_disk ["yes"] in
  main read ["wallet_manager.py"; "send"; "0xA"; "0xB"; "lots"; "usdc"] w =
  Run (Raise e) (emitted (WalletManager_init w)) (final (WalletManager_init w)).
Proof.
  apply (main_send_malformed_quantity
           (fun _ : string =>
              inl (ValueError "could not convert string to float: 'lots'") : exn + float)
           ["wallet_manager.py"; "send"; "0xA"; "0xB"; "lots"; "usdc"]
           (sample_world [] sample_disk ["yes"]) sample_manager);
    reflexivity.
Defined.
